(** * fibo-qa-agent: the name resolver, the knowledge-base tools and the planner

    A shallow embedding of [tools/ontology_tools.py] and [planner.py],
    together with the part of Python's [difflib] and [heapq] that the
    resolver calls.

    Conventions of the embedding.
    - A Python [str] is a [string]; entity names and user inputs are ASCII
      text, on which [str.lower] is the ASCII lower-casing below.  Message
      texts carry their emoji as UTF-8 bytes; no character-level operation
      is applied to them.
    - A Python [int] is a [Z].
    - The floats of the resolver are quotients of two small integers that are
      only compared with each other and with the constants 0.6, 0.75 and 0.8;
      they are represented exactly in [Q].  For operands below 2^25 (here,
      lengths of names) correctly rounded division preserves every one of
      these comparisons.
    - A raised exception is the [Raise] outcome of [res].
    - The calls to owlready2, to the language model and to [json.loads] are
      Section variables of the sections that use them.
    - The calls of [print], which only write to the console, are left out. *)

From Stdlib Require Import QArith Ascii String DecimalString.
From stdpp Require Import base list strings gmap numbers sorting.

Local Open Scope string_scope.
Local Open Scope Z_scope.

(** ** Python strings *)

Module pystr.

Definition lower_char (c : ascii) : ascii :=
  let n := nat_of_ascii c in
  if ((65 <=? n) && (n <=? 90))%nat then ascii_of_nat (n + 32) else c.

(** [s.lower()] *)
Fixpoint lower (s : string) : string :=
  match s with
  | EmptyString => EmptyString
  | String c s' => String (lower_char c) (lower s')
  end.

(** [len(s)] *)
Definition len (s : string) : Z := Z.of_nat (String.length s).

(** [s.startswith(p)] *)
Definition startswith (s p : string) : bool := String.prefix p s.

(** [s.endswith(p)] *)
Fixpoint endswith (s p : string) : bool :=
  bool_decide (s = p) ||
  match s with
  | EmptyString => false
  | String _ s' => endswith s' p
  end.

(** [sub in s] *)
Fixpoint contains (sub s : string) : bool :=
  String.prefix sub s ||
  match s with
  | EmptyString => false
  | String _ s' => contains sub s'
  end.

(** [s.replace(old, new)]: the occurrences of [old] are found from left to
    right and do not overlap.  [skip] counts the characters of a found
    occurrence that are still to be dropped. *)
Fixpoint replace_from (old new : string) (skip : nat) (s : string) : string :=
  match s with
  | EmptyString => EmptyString
  | String c s' =>
      match skip with
      | S k => replace_from old new k s'
      | O =>
          if String.prefix old s
          then new +:+ replace_from old new (String.length old - 1) s'
          else String c (replace_from old new 0 s')
      end
  end.

Fixpoint intersperse_with (new s : string) : string :=
  match s with
  | EmptyString => new
  | String c s' => new +:+ String c (intersperse_with new s')
  end.

Definition replace (s old new : string) : string :=
  match old with
  | EmptyString => intersperse_with new s
  | _ => replace_from old new 0 s
  end.

(** [c.isspace()] on ASCII: tab, line feed, vertical tab, form feed,
    carriage return, the four separators 28..31 and the space. *)
Definition isspace (c : ascii) : bool :=
  let n := nat_of_ascii c in
  (((9 <=? n) && (n <=? 13)) || ((28 <=? n) && (n <=? 32)))%nat.

Fixpoint lstrip (s : string) : string :=
  match s with
  | String c s' => if isspace c then lstrip s' else s
  | EmptyString => EmptyString
  end.

Fixpoint rstrip (s : string) : string :=
  match s with
  | EmptyString => EmptyString
  | String c s' =>
      match rstrip s' with
      | EmptyString => if isspace c then EmptyString else String c EmptyString
      | r => String c r
      end
  end.

(** [s.strip()] *)
Definition strip (s : string) : string := rstrip (lstrip s).

(** [sep.join(parts)] *)
Definition join (sep : string) (parts : list string) : string :=
  String.concat sep parts.

(** [str(n)] for an [int] *)
Definition of_int (n : Z) : string := NilZero.string_of_int (Z.to_int n).

(** [c * n] for a one-character string *)
Definition repeat_char (c : ascii) (n : nat) : string :=
  string_of_list_ascii (replicate n c).

(** [set(s)]: the set of the characters of [s] *)
Definition char_set (s : string) : gset ascii :=
  list_to_set (list_ascii_of_string s).

(** What an f-string prints for a value that may be [None]. *)
Definition fmt_opt (o : option string) : string := default "None" o.

End pystr.

(** ** Python lists: [sorted], [list.sort] and [set] *)

Section Sorting.
Context {A : Type}.

(** [le x y] is the test [x <= y] of the order that is sorted by. *)
Variable le : A -> A -> bool.

(** Ascending and stable: the head of the list is placed in front of the
    elements of the sorted tail that are not smaller than it. *)
Fixpoint insert_asc (x : A) (l : list A) : list A :=
  match l with
  | [] => [x]
  | y :: l' => if le x y then x :: l else y :: insert_asc x l'
  end.

(** [sorted(l)] *)
Definition sorted (l : list A) : list A := foldr insert_asc [] l.

Fixpoint insert_desc (x : A) (l : list A) : list A :=
  match l with
  | [] => [x]
  | y :: l' => if le y x then x :: l else y :: insert_desc x l'
  end.

(** [sorted(l, reverse=True)]: descending, elements that compare equal
    keep their original order. *)
Definition sorted_reverse (l : list A) : list A := foldr insert_desc [] l.

End Sorting.

(** ** Python exceptions *)

Inductive exn : Type :=
| ValueError (msg : string)
| TypeError (msg : string)
| IndexError (msg : string).

Inductive res (A : Type) : Type :=
| Ok (a : A)
| Raise (e : exn).
Arguments Ok {A} a.
Arguments Raise {A} e.

Definition res_bind {A B : Type} (m : res A) (f : A -> res B) : res B :=
  match m with
  | Ok a => f a
  | Raise e => Raise e
  end.

(** [l[i]] for an index that is not negative *)
Definition item {A : Type} (l : list A) (i : Z) : option A :=
  if i <? 0 then None else l !! Z.to_nat i.

(** ** difflib: [SequenceMatcher] on two strings and [get_close_matches]

    [get_close_matches] builds [SequenceMatcher()] with no junk predicate and
    with [autojunk] on, so [bjunk] is empty: of the four loops that extend a
    match in [find_longest_match], the two guarded by [isbjunk] never run. *)

Module difflib.

(** A matching block [(i, j, k)]: [a[i:i+k] == b[j:j+k]]. *)
Definition block : Type := Z * Z * Z.

(** A region [(alo, ahi, blo, bhi)] still to be matched. *)
Definition region : Type := Z * Z * Z * Z.

Definition _calculate_ratio (matches length : Z) : Q :=
  if length =? 0 then 1%Q else ((2 * matches) # (Z.to_pos length))%Q.

(** [__chain_b]: for each character of [b] the ascending list of the
    positions where it occurs; when [b] has 200 characters or more, the
    characters that occur more than [len(b) // 100 + 1] times are dropped. *)
Definition chain_b (b : list ascii) : gmap ascii (list Z) :=
  let b2j :=
    foldl (fun (m : gmap ascii (list Z)) '(i, elt) =>
             <[elt := (default [] (m !! elt) ++ [i])%list]> m)
          ∅ (zip (seqZ 0 (Z.of_nat (length b))) b) in
  let n := Z.of_nat (length b) in
  if 200 <=? n then
    let ntest := n / 100 + 1 in
    filter (fun '(_, idxs) => ¬ (ntest < Z.of_nat (length idxs))) b2j
  else b2j.

Section Matcher.
Variables a b : list ascii.
Variable b2j : gmap ascii (list Z).

(** The inner loop of [find_longest_match] over the positions [j] of
    [a[i]] in [b]: positions below [blo] are skipped, the first one at or
    beyond [bhi] ends the loop. *)
Fixpoint scan_positions (i blo bhi : Z) (j2len : gmap Z Z) (js : list Z)
    (newj2len : gmap Z Z) (best : block) : gmap Z Z * block :=
  match js with
  | [] => (newj2len, best)
  | j :: js' =>
      if j <? blo then scan_positions i blo bhi j2len js' newj2len best
      else if bhi <=? j then (newj2len, best)
      else
        let k := default 0 (j2len !! (j - 1)) + 1 in
        let '(_, _, bestsize) := best in
        scan_positions i blo bhi j2len js' (<[j := k]> newj2len)
          (if bestsize <? k then (i - k + 1, j - k + 1, k) else best)
  end.

(** [for i in range(alo, ahi)] *)
Definition scan_rows (alo ahi blo bhi : Z) : block :=
  snd (foldl (fun '(j2len, best) i =>
                let js := match item a i with
                          | Some c => default [] (b2j !! c)
                          | None => []
                          end in
                scan_positions i blo bhi j2len js ∅ best)
             (∅, (alo, blo, 0)) (seqZ alo (ahi - alo))).

(** The first extension loop; it runs at most [n] times, and every run
    lowers [besti], which stays above [alo]. *)
Fixpoint extend_down (n : nat) (alo blo : Z) (best : block) : block :=
  let '(besti, bestj, bestsize) := best in
  match n with
  | O => best
  | S n' =>
      if (alo <? besti) && (blo <? bestj) &&
         bool_decide (item a (besti - 1) = item b (bestj - 1))
      then extend_down n' alo blo (besti - 1, bestj - 1, bestsize + 1)
      else best
  end.

(** The second extension loop; every run raises [besti + bestsize],
    which stays below [ahi]. *)
Fixpoint extend_up (n : nat) (ahi bhi : Z) (best : block) : block :=
  let '(besti, bestj, bestsize) := best in
  match n with
  | O => best
  | S n' =>
      if (besti + bestsize <? ahi) && (bestj + bestsize <? bhi) &&
         bool_decide (item a (besti + bestsize) = item b (bestj + bestsize))
      then extend_up n' ahi bhi (besti, bestj, bestsize + 1)
      else best
  end.

Definition find_longest_match (alo ahi blo bhi : Z) : block :=
  let best := scan_rows alo ahi blo bhi in
  let best := extend_down (Z.to_nat (fst (fst best) - alo)) alo blo best in
  let '(besti, _, bestsize) := best in
  extend_up (Z.to_nat (ahi - (besti + bestsize))) ahi bhi best.

(** The work list of [get_matching_blocks]: [queue.pop()] takes the
    region pushed last.  [None] stands for a loop that is still running
    when [fuel] is used up. *)
Fixpoint match_regions (fuel : nat) (queue : list region)
    (matching_blocks : list block) : option (list block) :=
  match queue with
  | [] => Some matching_blocks
  | (alo, ahi, blo, bhi) :: queue' =>
      match fuel with
      | O => None
      | S fuel' =>
          let '(i, j, k) := find_longest_match alo ahi blo bhi in
          if k =? 0 then match_regions fuel' queue' matching_blocks
          else
            let q1 := if (alo <? i) && (blo <? j)
                      then (alo, i, blo, j) :: queue' else queue' in
            let q2 := if (i + k <? ahi) && (j + k <? bhi)
                      then (i + k, ahi, j + k, bhi) :: q1 else q1 in
            match_regions fuel' q2 (matching_blocks ++ [(i, j, k)])%list
      end
  end.

Definition block_le (x y : block) : bool :=
  let '(i1, j1, k1) := x in
  let '(i2, j2, k2) := y in
  if i1 =? i2 then (if j1 =? j2 then k1 <=? k2 else j1 <=? j2)
  else i1 <=? i2.

(** The loop that collapses adjacent blocks, with the pending block
    [(i1, j1, k1)]. *)
Fixpoint collapse (pending : block) (blocks : list block) : list block :=
  let '(i1, j1, k1) := pending in
  match blocks with
  | [] => if k1 =? 0 then [] else [pending]
  | (i2, j2, k2) :: rest =>
      if (i1 + k1 =? i2) && (j1 + k1 =? j2)
      then collapse (i1, j1, k1 + k2) rest
      else ((if k1 =? 0 then [] else [pending]) ++ collapse (i2, j2, k2) rest)%list
  end.

Definition la : Z := Z.of_nat (length a).
Definition lb : Z := Z.of_nat (length b).

(** Every pass of the work-list loop either drops a region or replaces
    it by regions that together hold fewer characters of [a], so
    [2 * len(a) + 1] passes empty the queue ([match_regions_terminates]
    below) and the default is never taken. *)
Definition get_matching_blocks : list block :=
  let matching_blocks :=
    default [] (match_regions (2 * length a + 1) [(0, la, 0, lb)] []) in
  (collapse (0, 0, 0) (sorted block_le matching_blocks) ++ [(la, lb, 0)])%list.

Definition ratio : Q :=
  _calculate_ratio (foldr Z.add 0 (map snd get_matching_blocks)) (la + lb).

(** [quick_ratio]: the size of the intersection of the multisets of the
    characters of [a] and [b]. *)
Definition fullbcount : gmap ascii Z :=
  foldl (fun (m : gmap ascii Z) elt => <[elt := default 0 (m !! elt) + 1]> m) ∅ b.

Definition quick_ratio : Q :=
  let '(_, matches) :=
    foldl (fun '(avail, matches) elt =>
             let numb := match (avail : gmap ascii Z) !! elt with
                         | Some v => v
                         | None => default 0 (fullbcount !! elt)
                         end in
             (<[elt := numb - 1]> avail,
              if 0 <? numb then matches + 1 else matches))
          (∅, 0) a in
  _calculate_ratio matches (la + lb).

Definition real_quick_ratio : Q := _calculate_ratio (Z.min la lb) (la + lb).

End Matcher.

(** The order of the pairs [(score, x)]: Python compares tuples on their
    first components that differ. *)
Definition scored_le (x y : Q * string) : bool :=
  if Qeq_bool (fst x) (fst y) then String.leb (snd x) (snd y)
  else Qle_bool (fst x) (fst y).

(** [heapq.nlargest(n, l)], which is [sorted(l, reverse=True)[:n]]. *)
Definition nlargest (n : Z) (l : list (Q * string)) : list (Q * string) :=
  take (Z.to_nat n) (sorted_reverse scored_le l).

(** The test of the loop over the possibilities, with [word] as [b]. *)
Definition good_enough (b : list ascii) (b2j : gmap ascii (list Z))
    (cutoff : Q) (x : string) : bool :=
  let a := list_ascii_of_string x in
  Qle_bool cutoff (real_quick_ratio a b) &&
  Qle_bool cutoff (quick_ratio a b) &&
  Qle_bool cutoff (ratio a b b2j).

Definition score (word x : string) : Q :=
  let b := list_ascii_of_string word in
  ratio (list_ascii_of_string x) b (chain_b b).

Definition get_close_matches (word : string) (possibilities : list string)
    (n : Z) (cutoff : Q) : res (list string) :=
  if negb (0 <? n) then Raise (ValueError "n must be > 0")
  else if negb (Qle_bool 0 cutoff && Qle_bool cutoff 1)
  then Raise (ValueError "cutoff must be in [0.0, 1.0]")
  else
    let b := list_ascii_of_string word in
    let b2j := chain_b b in
    let result :=
      map (fun x => (ratio (list_ascii_of_string x) b b2j, x))
          (filter (fun x => good_enough b b2j cutoff x = true) possibilities) in
    Ok (map snd (nlargest n result)).


(** *** Measures for the termination of the work list *)

(** A block that lies in the rows [alo .. top - 1]. *)
Definition within (alo top : Z) (best : block) : Prop :=
  let '(besti, _, bestsize) := best in
  alo <= besti /\ 0 <= bestsize /\ besti + bestsize <= top.

(** The rows that a queue still has to match, counted twice, plus one
    for each of its regions. *)
Definition weight (queue : list region) : Z :=
  foldr (fun '(alo, ahi, _, _) w => 2 * (ahi - alo) + 1 + w) 0 queue.

Definition ordered (r : region) : Prop :=
  let '(alo, ahi, _, _) := r in alo <= ahi.

End difflib.

(** ** The knowledge base as the tools see it

    What the tools read of owlready2: the module-level [onto] and the
    ontologies of [owlready2.default_world]. *)

(** A class object: [cls_name] is [None] when [hasattr(cls, "name")] fails. *)
Record ThingClass : Type := {
  cls_name : option string;
  cls_label : list string;
  cls_comment : list string
}.

Record Ontology : Type := {
  onto_iri : string;
  onto_classes : list ThingClass;      (* [ontology.classes()] *)
  onto_properties : list string        (* the names of [ontology.properties()] *)
}.

Record kb_state : Type := {
  onto : option Ontology;              (* the global [onto] *)
  default_world : list Ontology        (* [default_world.ontologies.values()] *)
}.

Definition nl : string := String (ascii_of_nat 10) EmptyString.

(** ** tools/ontology_tools.py: fuzzy matching *)

Module ontology_tools.

(** The three-key dict that [get_class_suggestions] returns. *)
Record suggestion_result : Type := {
  r_type : string;
  r_match : option string;
  r_suggestions : list string
}.

Definition get_class_candidates (st : kb_state) : list string :=
  let all_classes :=
    concat (map (fun ontology => omap cls_name (onto_classes ontology))
                (default_world st)) in
  sorted String.leb (remove_dups all_classes).

(** [l[:n]] *)
Definition slice_to {A : Type} (l : list A) (n : Z) : list A :=
  if 0 <=? n then take (Z.to_nat n) l
  else take (Z.to_nat (Z.of_nat (length l) + n)) l.

(** Tier 1: the candidates equal to the input, ignoring case. *)
Definition exact_matches (candidates : list string) (input_name : string)
    : list string :=
  filter (fun c => pystr.lower c = pystr.lower input_name) candidates.

(** Tier 2: one of the two lower-cased names contains the other. *)
Definition is_substring_match (input_lower candidate : string) : bool :=
  let candidate_lower := pystr.lower candidate in
  pystr.contains input_lower candidate_lower ||
  pystr.contains candidate_lower input_lower.

Definition substring_matches (candidates : list string) (input_name : string)
    : list string :=
  filter (fun c => is_substring_match (pystr.lower input_name) c = true)
         candidates.

(** Tier 3: [difflib.get_close_matches] on the names as they are typed. *)
Definition close_matches (candidates : list string) (input_name : string)
    (max_suggestions : Z) : res (list string) :=
  difflib.get_close_matches input_name candidates (max_suggestions * 2) (6 # 10).

(** Tier 4: the share of the characters of the input that the candidate
    has too, for an input of more than two distinct characters. *)
Definition similarity (input_lower candidate : string) : Q :=
  let input_chars := pystr.char_set input_lower in
  let candidate_chars := pystr.char_set (pystr.lower candidate) in
  (Z.of_nat (size (input_chars ∩ candidate_chars))
     # Pos.of_nat (size input_chars))%Q.

Definition is_char_match (input_lower candidate : string) : bool :=
  (2 <? size (pystr.char_set input_lower))%nat &&
  negb (Qle_bool (similarity input_lower candidate) (75 # 100)).

Definition char_matches (candidates : list string) (input_name : string)
    : list string :=
  let input_lower := pystr.lower input_name in
  let scored :=
    map (fun c => (c, similarity input_lower c))
        (filter (fun c => is_char_match input_lower c = true) candidates) in
  map fst (sorted_reverse (fun x y => Qle_bool (snd x) (snd y)) scored).

(** Tier 5: one of the two lower-cased names starts or ends with the
    other. *)
Definition is_affix_match (input_lower candidate : string) : bool :=
  let candidate_lower := pystr.lower candidate in
  pystr.startswith candidate_lower input_lower ||
  pystr.endswith candidate_lower input_lower ||
  pystr.startswith input_lower candidate_lower ||
  pystr.endswith input_lower candidate_lower.

Definition affix_matches (candidates : list string) (input_name : string)
    : list string :=
  filter (fun c => is_affix_match (pystr.lower input_name) c = true) candidates.

(** [all.extend([m for m in tier if m not in all])] *)
Definition extend_new (all tier : list string) : list string :=
  (all ++ filter (fun m => m ∉ all) tier)%list.

Definition combine_tiers (substring close char affix : list string)
    : list string :=
  extend_new (extend_new (extend_new substring close) char) affix.

Definition none_result : suggestion_result :=
  {| r_type := "none"; r_match := None; r_suggestions := [] |}.

Definition get_class_suggestions (st : kb_state) (input_name : string)
    (max_suggestions : Z) : res suggestion_result :=
  let candidates := get_class_candidates st in
  match candidates with
  | [] => Ok none_result
  | _ =>
      match exact_matches candidates input_name with
      | e :: _ =>
          Ok {| r_type := "exact"; r_match := Some e; r_suggestions := [] |}
      | [] =>
          res_bind (close_matches candidates input_name max_suggestions)
            (fun close =>
               let all_suggestions :=
                 combine_tiers (substring_matches candidates input_name)
                               close
                               (char_matches candidates input_name)
                               (affix_matches candidates input_name) in
               match slice_to all_suggestions max_suggestions with
               | [] => Ok none_result
               | final_suggestions =>
                   Ok {| r_type := "suggestions"; r_match := None;
                         r_suggestions := final_suggestions |}
               end)
      end
  end.

(** The default of the parameter [max_suggestions]. *)
Definition default_max_suggestions : Z := 3.

Definition resolve_class_name_fuzzy (st : kb_state) (input_name : string)
    : res (option string) :=
  res_bind (get_class_suggestions st input_name default_max_suggestions)
    (fun result =>
       if bool_decide (r_type result = "exact") then Ok (r_match result)
       else if bool_decide (r_type result = "suggestions") then
         match r_suggestions result with
         | [] => Ok None
         | suggestions =>
             res_bind (difflib.get_close_matches input_name suggestions 1 (8 # 10))
               (fun best_match =>
                  match best_match with
                  | m :: _ => Ok (Some m)
                  | [] => Ok None
                  end)
         end
       else Ok None).

Definition format_suggestions_message (st : kb_state) (input_name : string)
    : res (option string) :=
  res_bind (get_class_suggestions st input_name default_max_suggestions)
    (fun result =>
       if bool_decide (r_type result = "exact") then Ok None
       else if bool_decide (r_type result = "suggestions") then
         match r_suggestions result with
         | [s] => Ok (Some ("💡 Did you mean '" +:+ s +:+ "'? Try: explain " +:+ s))
         | suggestions =>
             Ok (Some ("💡 Did you mean one of these?" +:+ nl +:+
                       pystr.join nl (map (fun s => "   • " +:+ s) suggestions)))
         end
       else
         Ok (Some ("❌ No similar classes found for '" +:+ input_name +:+
                   "'. Try 'list classes' to see available options."))).

End ontology_tools.

(** ** tools/ontology_tools.py: the tools

    Each tool first checks that an ontology is loaded and then looks the
    named entity up.  What it does with an entity it has found walks the
    owlready2 graph: that part is the variable [render], a function of the
    tool, the ontology, the entities found and the arguments.  The tools that
    wrap that part in [try]/[except] return the text of the error in place of
    the result, which is one more value of [render]. *)

Section Tools.

(** The class and property objects of owlready2. *)
Variable entity : Type.

(** [onto.search_one(iri=pattern)]; [None] when nothing matches. *)
Variable search_one : Ontology -> string -> option entity.

Variable render : string -> Ontology -> list entity -> list string -> string.

(** The body of [get_ontology_stats] behind its guard. *)
Variable render_stats : kb_state -> string.

Import ontology_tools.

Definition NO_ONTOLOGY : string :=
  "❌ No ontology loaded. Please load modules first.".

(** The two guards that the class tools share; [wording] is
    ["not found in the ontology."] or ["not found."]. *)
Definition class_tool (tool wording : string) (st : kb_state)
    (class_name : string) (more : list string) : res string :=
  match onto st with
  | None => Ok NO_ONTOLOGY
  | Some o =>
      match search_one o ("*" +:+ class_name) with
      | None =>
          res_bind (format_suggestions_message st class_name)
            (fun suggestion_msg =>
               Ok ("❌ Class '" +:+ class_name +:+ "' " +:+ wording +:+ nl +:+
                   pystr.fmt_opt suggestion_msg))
      | Some cls => Ok (render tool o [cls] (class_name :: more))
      end
  end.

Definition get_superclasses (st : kb_state) (class_name : string) : res string :=
  class_tool "get_superclasses" "not found in the ontology." st class_name [].

Definition get_subclasses (st : kb_state) (class_name : string) : res string :=
  class_tool "get_subclasses" "not found in the ontology." st class_name [].

Definition get_properties (st : kb_state) (class_name : string) : res string :=
  class_tool "get_properties" "not found in the ontology." st class_name [].

Definition describe_class (st : kb_state) (class_name : string) : res string :=
  class_tool "describe_class" "not found." st class_name [].

Definition explain_class (st : kb_state) (class_name : string) : res string :=
  class_tool "explain_class" "not found." st class_name [].

(** [max_depth] is [None] when the caller leaves it to its default. *)
Definition get_related_concepts (st : kb_state) (class_name : string)
    (max_depth : option string) : res string :=
  class_tool "get_related_concepts" "not found." st class_name
             (match max_depth with Some d => [d] | None => [] end).

Definition get_class_info (st : kb_state) (class_name : string) : res string :=
  class_tool "get_class_info" "not found." st class_name [].

Definition get_all_superclasses (st : kb_state) (class_name : string) : res string :=
  class_tool "get_all_superclasses" "not found." st class_name [].

Definition get_inferred_properties (st : kb_state) (class_name : string) : res string :=
  class_tool "get_inferred_properties" "not found." st class_name [].

(** The guards of the two tools that take two classes. *)
Definition pair_tool (tool : string) (st : kb_state) (class1 class2 : string)
    : res string :=
  match onto st with
  | None => Ok NO_ONTOLOGY
  | Some o =>
      let not_found c :=
        res_bind (format_suggestions_message st c)
          (fun suggestion_msg =>
             Ok ("❌ Class '" +:+ c +:+ "' not found." +:+ nl +:+
                 pystr.fmt_opt suggestion_msg)) in
      match search_one o ("*" +:+ class1), search_one o ("*" +:+ class2) with
      | None, _ => not_found class1
      | Some _, None => not_found class2
      | Some cls1, Some cls2 => Ok (render tool o [cls1; cls2] [class1; class2])
      end
  end.

Definition explain_relationship (st : kb_state) (class1 class2 : string) : res string :=
  pair_tool "explain_relationship" st class1 class2.

Definition get_reasoning_chain (st : kb_state) (class1 class2 : string) : res string :=
  pair_tool "get_reasoning_chain" st class1 class2.

Definition get_property_details (st : kb_state) (property_name : string)
    : res string :=
  match onto st with
  | None => Ok NO_ONTOLOGY
  | Some o =>
      match search_one o ("*" +:+ property_name) with
      | None =>
          res_bind (difflib.get_close_matches property_name
                      (onto_properties o) 3 (6 # 10))
            (fun suggestions =>
               match suggestions with
               | [] => Ok ("❌ Property '" +:+ property_name +:+ "' not found.")
               | _ => Ok ("❌ Property '" +:+ property_name +:+
                          "' not found. Did you mean: " +:+
                          pystr.join ", " suggestions +:+ "?")
               end)
      | Some prop => Ok (render "get_property_details" o [prop] [property_name])
      end
  end.

(** One entry of [matches] in [search_classes_by_keyword]. *)
Record keyword_match : Type := {
  km_name : string;
  km_match_type : string;
  km_match_text : string
}.

(** [s[:n]] on a string *)
Fixpoint str_take (n : nat) (s : string) : string :=
  match n, s with
  | S n', String c s' => String c (str_take n' s')
  | _, _ => EmptyString
  end.

(** The entries that one class adds to [matches]: one for its name, or
    else one for its first matching label and one for its first matching
    comment. *)
Definition class_matches (keyword_lower : string) (cls : ThingClass)
    : list keyword_match :=
  match cls_name cls with
  | None => []
  | Some name =>
      if pystr.contains keyword_lower (pystr.lower name)
      then [ {| km_name := name; km_match_type := "name"; km_match_text := name |} ]
      else
        (match filter (fun l => pystr.contains keyword_lower (pystr.lower l) = true)
                      (cls_label cls) with
         | l :: _ => [ {| km_name := name; km_match_type := "label";
                          km_match_text := l |} ]
         | [] => []
         end ++
         match filter (fun c => pystr.contains keyword_lower (pystr.lower c) = true)
                      (cls_comment cls) with
         | c :: _ =>
             [ {| km_name := name; km_match_type := "comment";
                  km_match_text :=
                    if (100 <? String.length c)%nat
                    then str_take 100 c +:+ "..." else c |} ]
         | [] => []
         end)%list
  end.

(** [search_classes_by_keyword] has no guard: it walks whatever ontologies
    [default_world] holds. *)
Definition search_classes_by_keyword (st : kb_state) (keyword : string)
    : res string :=
  let keyword_lower := pystr.lower keyword in
  let matches :=
    concat (map (fun ontology =>
                   concat (map (class_matches keyword_lower)
                               (onto_classes ontology)))
                (default_world st)) in
  match matches with
  | [] => Ok ("❌ No classes found containing '" +:+ keyword +:+ "'")
  | _ =>
      let header :=
        "🔍 Found " +:+ pystr.of_int (Z.of_nat (length matches)) +:+
        " classes containing '" +:+ keyword +:+ "':" in
      let lines :=
        map (fun m => "  📛 " +:+ km_name m +:+ " (" +:+ km_match_type m +:+
                      ": " +:+ km_match_text m +:+ ")")
            (take 15 matches) in
      let more :=
        if (15 <? length matches)%nat
        then ["  ... and " +:+ pystr.of_int (Z.of_nat (length matches) - 15) +:+
              " more matches"]
        else [] in
      Ok (pystr.join nl (header :: lines ++ more)%list)
  end.

Definition get_ontology_stats (st : kb_state) : res string :=
  match default_world st with
  | [] => Ok NO_ONTOLOGY
  | _ => Ok (render_stats st)
  end.

End Tools.

(** ** planner.py *)

(** A step of a plan: a JSON object whose values are text.  A field is
    [None] when the object has no such key. *)
Record func_call : Type := {
  fc_function : option string;
  fc_arguments : option (list string);
  fc_step : option string;
  fc_instruction : option string
}.

(** What [json.loads] makes of a reply. *)
Inductive plan : Type :=
| PlanDict (d : func_call)
| PlanList (steps : list func_call)
| PlanOther (text : string).

(** The dict [{"function": ..., "output": ...}] of an executed step. *)
Record tool_result : Type := {
  tr_function : option string;
  tr_output : string
}.

(** The calls that the planner makes to its collaborators, in order. *)
Inductive event : Type :=
| LlmCall (prompt : string) (use_multi_step : bool)
| ResolveCall (input_name : string)
| ToolCall (func : string) (args : list string)
| SynthesisCall (instruction : string) (results : list tool_result).

(** A computation that calls collaborators and may raise. *)
Definition M (A : Type) : Type := list event * res A.

Definition ret {A : Type} (a : A) : M A := ([], Ok a).

Definition bind {A B : Type} (m : M A) (f : A -> M B) : M B :=
  match m with
  | (t, Ok a) => let '(t', r) := f a in ((t ++ t')%list, r)
  | (t, Raise e) => (t, Raise e)
  end.

Definition emit (e : event) : M unit := ([e], Ok tt).

Definition lift {A : Type} (r : res A) : M A := ([], r).

Notation "'do' x <- m ; k" := (bind m (fun x => k))
  (at level 10, x pattern, m at level 100, k at level 200).

(** [func in names], for a [func] that may be [None] *)
Definition among (func : option string) (names : list string) : bool :=
  match func with
  | Some f => bool_decide (f ∈ names)
  | None => false
  end.

(** The step after the assignments [args[i] = resolved]: [args] is the list
    that the step holds under "arguments", when it has that key. *)
Definition with_arguments (call : func_call) (args : list string) : func_call :=
  {| fc_function := fc_function call;
     fc_arguments := match fc_arguments call with
                     | Some _ => Some args
                     | None => None
                     end;
     fc_step := fc_step call;
     fc_instruction := fc_instruction call |}.

Section Planner.

Variable entity : Type.
Variable search_one : Ontology -> string -> option entity.
Variable render : string -> Ontology -> list entity -> list string -> string.
Variable render_stats : kb_state -> string.

(** The text that [call_local_llm] returns: the reply of the model, or the
    text of the error of the request. *)
Variable call_local_llm : string -> bool -> string.

(** [json.loads]; [None] when it raises [JSONDecodeError]. *)
Variable json_loads : string -> option plan.

(** [str(plan)] *)
Variable plan_str : plan -> string.

(** The text that [gemma_synthesize_results] returns. *)
Variable gemma_synthesize_results : string -> list tool_result -> string.

(** The loaded knowledge base; the planner does not change it. *)
Variable st : kb_state.

Import ontology_tools.

Definition list_classes : string :=
  let candidates := get_class_candidates st in
  pystr.join nl (map (fun name => "• " +:+ name) (take 100 candidates)) +:+
  (if (100 <? length candidates)%nat then nl +:+ "... (truncated)" else "").

(** [resolve_class_name_fuzzy], as the executor calls it. *)
Definition resolve (input_name : string) : M (option string) :=
  do _ <- emit (ResolveCall input_name);
  lift (resolve_class_name_fuzzy st input_name).

(** A call [f( *args )] of a tool of one parameter: any other number of
    arguments is a [TypeError], raised before the tool runs. *)
Definition call1 (func : string) (f : string -> res string) (args : list string)
    : M string :=
  match args with
  | [x] => do _ <- emit (ToolCall func args); lift (f x)
  | _ => lift (Raise (TypeError (func +:+ "(): wrong number of arguments")))
  end.

Definition single_class_functions : list string :=
  ["get_superclasses"; "get_subclasses"; "get_properties";
   "describe_class"; "explain_class"; "get_related_concepts";
   "get_class_info"; "get_all_superclasses"; "get_inferred_properties"].

Definition two_class_functions : list string :=
  ["explain_relationship"; "get_reasoning_chain"].

(** The test [if not resolved]: a name that is [None] or empty counts as
    not resolved. *)
Definition truthy (resolved : option string) : option string :=
  match resolved with
  | Some r => if bool_decide (r = "") then None else Some r
  | None => None
  end.

Definition not_found (func : option string) (original_name : string)
    : M tool_result :=
  do suggestion_msg <- lift (format_suggestions_message st original_name);
  ret {| tr_function := func;
         tr_output := "❌ Class '" +:+ original_name +:+ "' not found." +:+ nl +:+
                      pystr.fmt_opt suggestion_msg |}.

(** The loop [for i in range(2)] from position [i] on: the arguments with
    the names resolved so far, and the result of the step if a name did
    not resolve. *)
Fixpoint resolve_pair (func : option string) (n : nat) (i : nat)
    (args : list string) : M (list string * option tool_result) :=
  match n with
  | O => ret (args, None)
  | S n' =>
      match args !! i with
      | None => lift (Raise (IndexError "list index out of range"))
      | Some original_name =>
          do resolved <- resolve original_name;
          match truthy resolved with
          | None => do r <- not_found func original_name; ret (args, Some r)
          | Some resolved => resolve_pair func n' (S i) (<[i := resolved]> args)
          end
      end
  end.

(** The chain of [if func == ...] that runs the tool. *)
Definition dispatch (func : option string) (args : list string) : M tool_result :=
  let out (m : M string) : M tool_result :=
    do output <- m; ret {| tr_function := func; tr_output := output |} in
  let named name := bool_decide (func = Some name) in
  if named "get_superclasses" then
    out (call1 "get_superclasses" (get_superclasses entity search_one render st) args)
  else if named "get_subclasses" then
    out (call1 "get_subclasses" (get_subclasses entity search_one render st) args)
  else if named "get_properties" then
    out (call1 "get_properties" (get_properties entity search_one render st) args)
  else if named "describe_class" then
    out (call1 "describe_class" (describe_class entity search_one render st) args)
  else if named "explain_class" then
    out (call1 "explain_class" (explain_class entity search_one render st) args)
  else if named "get_class_info" then
    out (call1 "get_class_info" (get_class_info entity search_one render st) args)
  else if named "get_all_superclasses" then
    out (call1 "get_all_superclasses"
               (get_all_superclasses entity search_one render st) args)
  else if named "get_inferred_properties" then
    out (call1 "get_inferred_properties"
               (get_inferred_properties entity search_one render st) args)
  else if named "get_related_concepts" then
    match args with
    | [class_name] =>
        out (do _ <- emit (ToolCall "get_related_concepts" args);
             lift (get_related_concepts entity search_one render st class_name None))
    | [class_name; max_depth] =>
        out (do _ <- emit (ToolCall "get_related_concepts" args);
             lift (get_related_concepts entity search_one render st class_name
                                        (Some max_depth)))
    | _ => lift (Raise (TypeError "get_related_concepts(): wrong number of arguments"))
    end
  else if named "explain_relationship" then
    match args with
    | class1 :: class2 :: _ =>
        out (do _ <- emit (ToolCall "explain_relationship" [class1; class2]);
             lift (explain_relationship entity search_one render st class1 class2))
    | _ => ret {| tr_function := func;
                  tr_output := "❌ explain_relationship requires two class names" |}
    end
  else if named "get_reasoning_chain" then
    match args with
    | class1 :: class2 :: _ =>
        out (do _ <- emit (ToolCall "get_reasoning_chain" [class1; class2]);
             lift (get_reasoning_chain entity search_one render st class1 class2))
    | _ => ret {| tr_function := func;
                  tr_output := "❌ get_reasoning_chain requires two class names" |}
    end
  else if named "get_property_details" then
    out (call1 "get_property_details"
               (get_property_details entity search_one render st) args)
  else
    ret {| tr_function := func;
           tr_output := "❌ Unsupported function: " +:+ pystr.fmt_opt func |}.

(** [execute_single_function].  The list [args] is the one that the step
    holds, so the assignments [args[i] = resolved] change the step: the
    step is returned as the call leaves it. *)
Definition execute_single_function (call : func_call)
    : M (func_call * tool_result) :=
  let func := fc_function call in
  let args := default [] (fc_arguments call) in
  let named name := bool_decide (func = Some name) in
  if named "list_classes" then
    do _ <- emit (ToolCall "list_classes" []);
    ret (call, {| tr_function := func; tr_output := list_classes |})
  else if named "get_ontology_stats" then
    do _ <- emit (ToolCall "get_ontology_stats" []);
    do output <- lift (get_ontology_stats render_stats st);
    ret (call, {| tr_function := func; tr_output := output |})
  else if named "search_classes_by_keyword" then
    match args with
    | [] => ret (call, {| tr_function := func;
                          tr_output := "❌ search_classes_by_keyword requires a keyword argument" |})
    | _ =>
        do output <- call1 "search_classes_by_keyword"
                           (search_classes_by_keyword st) args;
        ret (call, {| tr_function := func; tr_output := output |})
    end
  else
    (* one class name *)
    do (args, stop) <-
         match args with
         | original_name :: _ =>
             if among func single_class_functions then
               do resolved <- resolve original_name;
               match truthy resolved with
               | None => do r <- not_found func original_name; ret (args, Some r)
               | Some resolved => ret (<[0%nat := resolved]> args, None)
               end
             else ret (args, None)
         | [] => ret (args, None)
         end;
    match stop with
    | Some r => ret (with_arguments call args, r)
    | None =>
        (* two class names *)
        do (args, stop) <-
             (if among func two_class_functions && (2 <=? length args)%nat
              then resolve_pair func 2 0 args
              else ret (args, None));
        match stop with
        | Some r => ret (with_arguments call args, r)
        | None => do r <- dispatch func args; ret (with_arguments call args, r)
        end
    end.

(** What a step that calls a tool adds to [results], if its execution
    returns. *)
Definition step_result (step : func_call) : option tool_result :=
  match fc_function step with
  | Some _ =>
      match execute_single_function step with
      | (_, Ok (_, result)) => Some result
      | (_, Raise _) => None
      end
  | None => None
  end.

Definition step_returns (step : func_call) : Prop :=
  exists t, exists out, execute_single_function step = (t, Ok out).

Definition complex_indicators : list string :=
  ["compare"; "analyze"; "structure"; "complete"; "comprehensive";
   "differences"; "similarities"; "relationship between"; "all about";
   "overview of"; "breakdown"; "in detail"; "thorough"; "full analysis"].

Definition is_complex_query (user_input : string) : bool :=
  let user_lower := pystr.lower user_input in
  existsb (fun indicator => pystr.contains indicator user_lower) complex_indicators.

(** The loop over the steps of a multi-step plan, with the [results]
    collected so far and the current [final_analysis]. *)
Fixpoint run_steps (steps : list func_call) (results : list tool_result)
    (final_analysis : option string) : M (list tool_result * option string) :=
  match steps with
  | [] => ret (results, final_analysis)
  | step :: rest =>
      match fc_function step with
      | Some _ =>
          do (_, result) <- execute_single_function step;
          run_steps rest (results ++ [result])%list final_analysis
      | None =>
          if bool_decide (fc_step step = Some "analysis") then
            let instruction :=
              default "Analyze and synthesize the results" (fc_instruction step) in
            do _ <- emit (SynthesisCall instruction results);
            run_steps rest results
                      (Some (gemma_synthesize_results instruction results))
          else run_steps rest results final_analysis
      end
  end.

(** The lines of the response for the collected results, numbered from
    [i]. *)
Fixpoint result_parts (i : Z) (results : list tool_result) : list string :=
  match results with
  | [] => []
  | result :: rest =>
      ("### " +:+ pystr.of_int i +:+ ". " +:+ pystr.fmt_opt (tr_function result))
        :: tr_output result :: "" :: result_parts (i + 1) rest
  end.

Definition response_parts (results : list tool_result)
    (final_analysis : option string) : list string :=
  let analysis_parts :=
    match final_analysis with
    | Some text => if bool_decide (text = "") then []
                   else [pystr.repeat_char "=" 60; text]
    | None => []
    end in
  ((("📋 **Individual Results:**" +:+ nl) :: result_parts 1 results)
     ++ analysis_parts)%list.

Definition compile_response (results : list tool_result)
    (final_analysis : option string) : string :=
  pystr.join nl (response_parts results final_analysis).

(** The clean-up of the reply before it is parsed. *)
Definition clean_plan (raw_plan : string) : string :=
  if pystr.contains "```" raw_plan
  then pystr.strip (pystr.replace (pystr.replace raw_plan "```json" "") "```" "")
  else raw_plan.

Definition parse_failure (raw_plan : string) : string :=
  "❌ Failed to parse LLM output as JSON:" +:+ nl +:+ raw_plan.

Definition run_natural_language_query (user_input : string) : M string :=
  let use_multi_step := is_complex_query user_input in
  do _ <- emit (LlmCall user_input use_multi_step);
  let raw_plan := clean_plan (call_local_llm user_input use_multi_step) in
  match json_loads raw_plan with
  | None => ret (parse_failure raw_plan)
  | Some p =>
      match p with
      | PlanDict d =>
          match fc_function d with
          | Some _ => do (_, result) <- execute_single_function d;
                      ret (tr_output result)
          | None => ret ("❌ Invalid plan format: " +:+ plan_str p)
          end
      | PlanList steps =>
          do (results, final_analysis) <- run_steps steps [] None;
          ret (compile_response results final_analysis)
      | PlanOther _ => ret ("❌ Invalid plan format: " +:+ plan_str p)
      end
  end.

End Planner.

(** ** A small knowledge base and canned collaborators

    Three classes of the accounting module, a model reply that is fixed in
    advance and tools that print the call they received. *)

Module demo.

Definition mk_class (name : string) : ThingClass :=
  {| cls_name := Some name; cls_label := []; cls_comment := [] |}.

Definition equity : Ontology :=
  {| onto_iri := "https://spec.edmcouncil.org/fibo/ontology/FND/Accounting/AccountingEquity/";
     onto_classes := map mk_class ["PaidInCapital"; "CapitalSurplus"; "OwnersEquity"];
     onto_properties := ["isOwnedBy"] |}.

Definition loaded : kb_state :=
  {| onto := Some equity; default_world := [equity] |}.

(** Nothing was ever loaded, or every module failed to load. *)
Definition unloaded : kb_state :=
  {| onto := None; default_world := [] |}.

(** A knowledge base that holds ShareholdersEquity. *)
Definition shareholders : kb_state :=
  {| onto := None;
     default_world :=
       [ {| onto_iri := "urn:shareholders";
            onto_classes :=
              map mk_class ["ShareholdersEquity"; "OwnersEquity"; "RetainedEarnings"];
            onto_properties := [] |} ] |}.

(** Two classes that differ in case only. *)
Definition twins : kb_state :=
  {| onto := None;
     default_world :=
       [ {| onto_iri := "urn:twins";
            onto_classes := map mk_class ["Equity"; "EQUITY"];
            onto_properties := [] |} ] |}.

Definition entity : Type := string.

Definition search_one (o : Ontology) (pattern : string) : option entity :=
  head (filter (fun name => pattern = "*" +:+ name)
               (omap cls_name (onto_classes o))).

Definition render (tool : string) (o : Ontology) (found : list entity)
    (args : list string) : string :=
  tool +:+ "(" +:+ pystr.join ", " args +:+ ")".

Definition render_stats (st : kb_state) : string := "statistics".

Definition plan_str (p : plan) : string := "<plan>".

Definition gemma_synthesize_results (instruction : string)
    (results : list tool_result) : string := "analysis".

Definition step (func : string) (args : list string) : func_call :=
  {| fc_function := Some func; fc_arguments := Some args;
     fc_step := None; fc_instruction := None |}.

(** A model that always answers [reply], and a parser that knows the
    replies listed in [table]. *)
Definition call_local_llm (reply : string) (prompt : string)
    (use_multi_step : bool) : string := reply.

Definition json_loads (table : list (string * plan)) (text : string)
    : option plan :=
  snd <$> head (filter (fun entry => fst entry = text) table).

(** A plan whose second step names a tool and gives it no argument, and
    the JSON text of that plan. *)
Definition broken_plan : plan :=
  PlanList [step "list_classes" []; step "get_superclasses" [];
            step "get_ontology_stats" []].

Definition dq : string := String (ascii_of_nat 34) EmptyString.

Definition json_step (func : string) : string :=
  "{" +:+ dq +:+ "function" +:+ dq +:+ ": " +:+ dq +:+ func +:+ dq +:+ ", " +:+
  dq +:+ "arguments" +:+ dq +:+ ": []}".

Definition broken_reply : string :=
  "[" +:+ json_step "list_classes" +:+ ", " +:+ json_step "get_superclasses" +:+
  ", " +:+ json_step "get_ontology_stats" +:+ "]".

(** A plan of two steps, of which the second names no class that is
    known. *)
Definition two_step_plan : plan :=
  PlanList [step "get_superclasses" ["PaidInCapital"];
            step "get_subclasses" ["xyz123nonexistent"]].

Definition execute (st : kb_state) (call : func_call)
    : M (func_call * tool_result) :=
  execute_single_function entity search_one render render_stats st call.

Definition query (st : kb_state) (reply : string)
    (table : list (string * plan)) (user_input : string) : M string :=
  run_natural_language_query entity search_one render render_stats
    (call_local_llm reply) (json_loads table) plan_str
    gemma_synthesize_results st user_input.

End demo.

Import ontology_tools.

(** ** The ways [get_class_suggestions] can run *)

Definition exact_result (e : string) : suggestion_result :=
  {| r_type := "exact"; r_match := Some e; r_suggestions := [] |}.

Definition listed_result (l : list string) : suggestion_result :=
  match l with
  | [] => none_result
  | _ => {| r_type := "suggestions"; r_match := None; r_suggestions := l |}
  end.

(** The tiers 2 to 5 joined, before the cut to [max_suggestions]. *)
Definition all_suggestions (candidates : list string) (input_name : string)
    (close : list string) : list string :=
  combine_tiers (substring_matches candidates input_name) close
                (char_matches candidates input_name)
                (affix_matches candidates input_name).

Inductive run_of (st : kb_state) (input_name : string) (max_suggestions : Z)
    : res suggestion_result -> Prop :=
| run_empty :
    get_class_candidates st = [] ->
    run_of st input_name max_suggestions (Ok none_result)
| run_exact e rest :
    exact_matches (get_class_candidates st) input_name = e :: rest ->
    run_of st input_name max_suggestions (Ok (exact_result e))
| run_raise err :
    get_class_candidates st <> [] ->
    exact_matches (get_class_candidates st) input_name = [] ->
    max_suggestions <= 0 ->
    run_of st input_name max_suggestions (Raise err)
| run_tiers close :
    get_class_candidates st <> [] ->
    exact_matches (get_class_candidates st) input_name = [] ->
    0 < max_suggestions ->
    close_matches (get_class_candidates st) input_name max_suggestions = Ok close ->
    run_of st input_name max_suggestions
      (Ok (listed_result
             (take (Z.to_nat max_suggestions)
                   (all_suggestions (get_class_candidates st) input_name close)))).

(** An input that no tier matches against any candidate. *)
Definition matches_no_tier (candidates : list string) (input_name : string)
    (max_suggestions : Z) : Prop :=
  exact_matches candidates input_name = [] /\
  substring_matches candidates input_name = [] /\
  close_matches candidates input_name max_suggestions = Ok [] /\
  char_matches candidates input_name = [] /\
  affix_matches candidates input_name = [].

(** The first tier that finds a name: 2 substring, 3 edit distance,
    4 character overlap, 5 prefix or suffix. *)
Definition tier_of (substring close char : list string) (x : string) : nat :=
  if bool_decide (x ∈ substring) then 2%nat
  else if bool_decide (x ∈ close) then 3%nat
  else if bool_decide (x ∈ char) then 4%nat
  else 5%nat.

(** The result of a step whose class name did not resolve; [msg] is what
    [format_suggestions_message] returned for the name. *)
Definition not_found_result (func : option string) (original_name : string)
    (msg : option string) : tool_result :=
  {| tr_function := func;
     tr_output := "❌ Class '" +:+ original_name +:+ "' not found." +:+ nl +:+
                  pystr.fmt_opt msg |}.

(** ** Reading a trace *)

(** The tools called, the model calls and the names handed to the
    resolver, in the order of the trace. *)
Definition tool_calls (t : list event) : list (string * list string) :=
  omap (fun e => match e with ToolCall f a => Some (f, a) | _ => None end) t.

Definition llm_calls (t : list event) : list (string * bool) :=
  omap (fun e => match e with LlmCall p m => Some (p, m) | _ => None end) t.

Definition resolved_names (t : list event) : list string :=
  omap (fun e => match e with ResolveCall n => Some n | _ => None end) t.

Definition synthesis_calls (t : list event) : list (string * list tool_result) :=
  omap (fun e => match e with SynthesisCall i r => Some (i, r) | _ => None end) t.

(** A computation that calls at most [k] tools, each of them the tool
    [func], never calls the model, neither for a plan nor for a synthesis,
    and whose value, if it returns one, satisfies [P]. *)
Definition calls_only {A : Type} (k : nat) (func : option string)
    (P : A -> Prop) (m : M A) : Prop :=
  (length (tool_calls (fst m)) <= k)%nat /\
  (forall f a, (f, a) ∈ tool_calls (fst m) -> func = Some f) /\
  (llm_calls (fst m) = [] /\ synthesis_calls (fst m) = []) /\
  (forall a, snd m = Ok a -> P a).

(** What the executor may change in the step it is given: the keys of the
    step stay, and the list under "arguments" keeps its length. *)
Definition same_shape (call c : func_call) : Prop :=
  fc_function c = fc_function call /\
  fc_step c = fc_step call /\
  fc_instruction c = fc_instruction call /\
  match fc_arguments call, fc_arguments c with
  | Some a, Some a' => length a' = length a
  | None, None => True
  | _, _ => False
  end.

(** The steps of the plan that a reply was parsed to: one for a dict, the
    elements for a list, none for anything else or for a reply that does
    not parse. *)
Definition planned_steps (parsed : option plan) : list func_call :=
  match parsed with
  | Some (PlanDict d) => [d]
  | Some (PlanList steps) => steps
  | _ => []
  end.

(** A step that asks for a synthesis, and a plan that holds one between
    two steps that call tools. *)
Definition analysis_step (instruction : option string) : func_call :=
  {| fc_function := None; fc_arguments := None;
     fc_step := Some "analysis"; fc_instruction := instruction |}.

Definition analysed_plan : list func_call :=
  [demo.step "get_superclasses" ["PaidInCapital"];
   analysis_step (Some "Compare");
   demo.step "get_subclasses" ["OwnersEquity"]].

(** ** Reading the keyword search *)

(** The list [matches] that [search_classes_by_keyword] builds. *)
Definition keyword_matches (st : kb_state) (keyword : string)
    : list keyword_match :=
  concat (map (fun ontology =>
                 concat (map (class_matches (pystr.lower keyword))
                             (onto_classes ontology)))
              (default_world st)).

(** The classes of every ontology of the world, in the order of the walk. *)
Definition world_classes (st : kb_state) : list ThingClass :=
  concat (map onto_classes (default_world st)).

(** A class with a name that holds the keyword in its name, in one of its
    labels or in one of its comments, ignoring the case of the class's
    texts. *)
Definition mentions (keyword_lower : string) (cls : ThingClass) : bool :=
  match cls_name cls with
  | None => false
  | Some name =>
      pystr.contains keyword_lower (pystr.lower name)
      || existsb (fun l => pystr.contains keyword_lower (pystr.lower l))
                 (cls_label cls)
      || existsb (fun c => pystr.contains keyword_lower (pystr.lower c))
                 (cls_comment cls)
  end.

Definition keyword_not_found (keyword : string) : string :=
  "❌ No classes found containing '" +:+ keyword +:+ "'".

(** A knowledge base with one class, whose label and comment hold "share"
    and whose name does not. *)
Definition labelled : kb_state :=
  {| onto := None;
     default_world :=
       [ {| onto_iri := "urn:labelled";
            onto_classes :=
              [ {| cls_name := Some "Equity";
                   cls_label := ["shareholder equity"];
                   cls_comment := ["what the shareholders own"] |} ];
            onto_properties := [] |} ] |}.

(** ** Module sets: ontology_tools.py *)

(** An exception outside [exn]: the [KeyError] of a dict lookup and the
    [ZeroDivisionError] of a division, beside the exceptions above. *)
Inductive raised : Type :=
| KeyError (key : string)
| ZeroDivisionError
| Native (e : exn).

Inductive attempt (A : Type) : Type :=
| Returned (a : A)
| Thrown (e : raised).
Arguments Returned {A} a.
Arguments Thrown {A} e.

Definition of_res {A : Type} (r : res A) : attempt A :=
  match r with
  | Ok a => Returned a
  | Raise e => Thrown (Native e)
  end.

(** [repr(l)] for a list of strings that hold no quote and no backslash,
    as the module paths do. *)
Definition repr_list (l : list string) : string :=
  "[" +:+ pystr.join ", " (map (fun s => "'" +:+ s +:+ "'") l) +:+ "]".

(** [str(e)] *)
Definition str_raised (e : raised) : string :=
  match e with
  | KeyError key => "'" +:+ key +:+ "'"
  | ZeroDivisionError => "division by zero"
  | Native (ValueError msg) | Native (TypeError msg) | Native (IndexError msg) => msg
  end.

Record module_set : Type := {
  ms_name : string;
  ms_modules : list string
}.

(** The dict [MODULE_SETS], in the order of its keys. *)
Definition MODULE_SETS : list (string * module_set) :=
  [ ("core",
     {| ms_name := "Core Financial Concepts";
        ms_modules :=
          ["FND/Accounting/AccountingEquity.rdf";
           "FND/OwnershipAndControl/Ownership.rdf";
           "SEC/Equities/EquityInstruments.rdf"] |});
    ("comprehensive",
     {| ms_name := "Comprehensive Financial Ontology";
        ms_modules :=
          ["FND/Accounting/AccountingEquity.rdf";
           "FND/OwnershipAndControl/Ownership.rdf";
           "SEC/Equities/EquityInstruments.rdf";
           "FND/Accounting/CurrencyAmount.rdf";
           "FND/Relations/Relations.rdf";
           "FND/Utilities/Values.rdf";
           "FND/DatesAndTimes/FinancialDates.rdf";
           "SEC/Securities/Securities.rdf";
           "SEC/Securities/SecuritiesIdentification.rdf";
           "SEC/Securities/SecuritiesIssuance.rdf";
           "SEC/Securities/SecuritiesListings.rdf";
           "FBC/FinancialInstruments/FinancialInstruments.rdf";
           "FBC/ProductsAndServices/FinancialProductsAndServices.rdf";
           "FBC/FunctionalEntities/FinancialServicesEntities.rdf";
           "FBC/DebtAndEquities/Debt.rdf";
           "BE/LegalEntities/LegalPersons.rdf"] |});
    ("banking",
     {| ms_name := "Banking & Financial Services";
        ms_modules :=
          ["FND/Accounting/AccountingEquity.rdf";
           "FND/Accounting/CurrencyAmount.rdf";
           "FBC/FinancialInstruments/FinancialInstruments.rdf";
           "FBC/ProductsAndServices/FinancialProductsAndServices.rdf";
           "FBC/FunctionalEntities/FinancialServicesEntities.rdf";
           "FBC/DebtAndEquities/Debt.rdf"] |});
    ("securities",
     {| ms_name := "Securities & Capital Markets";
        ms_modules :=
          ["SEC/Equities/EquityInstruments.rdf";
           "SEC/Securities/Securities.rdf";
           "SEC/Securities/SecuritiesIdentification.rdf";
           "SEC/Securities/SecuritiesIssuance.rdf";
           "SEC/Securities/SecuritiesListings.rdf";
           "FBC/FinancialInstruments/FinancialInstruments.rdf"] |}) ].

(** [MODULE_SETS.keys()] *)
Definition module_set_keys : list string := map fst MODULE_SETS.

(** [MODULE_SETS[key]]; [None] stands for the [KeyError]. *)
Definition module_set_of (key : string) : option module_set :=
  snd <$> head (filter (fun entry => fst entry = key) MODULE_SETS).

(** The globals of ontology_tools.py that the loading changes: [onto] and
    the default world, the name of the current module set and its
    files. *)
Record module_state : Type := {
  kb : kb_state;
  CURRENT_MODULE_SET : string;
  MODULE_FILES : list string
}.

(** The state after the import of ontology_tools.py: nothing is loaded. *)
Definition initial_state : module_state :=
  {| kb := {| onto := None; default_world := [] |};
     CURRENT_MODULE_SET := "core";
     MODULE_FILES := default [] (ms_modules <$> module_set_of "core") |}.

(** The locals of the loop of [load_fibo_modules], with [lp_onto] the
    global [onto]. *)
Record load_progress : Type := {
  lp_world : list Ontology;
  lp_onto : option Ontology;
  lp_loaded_count : nat;
  lp_failed_modules : list string
}.

Module fibo_modules.

Section Loading.

(** [full_path.exists()] for the file of a module. *)
Variable path_exists : string -> bool.

(** [world.get_ontology(...).load()] for the file of a module: the
    ontologies of the world after the call, and the ontology that was
    loaded, or [None] when the call raised. *)
Variable load_into : list Ontology -> string -> list Ontology * option Ontology.

Fixpoint load_modules (modules : list string) (p : load_progress)
    : load_progress :=
  match modules with
  | [] => p
  | module :: rest =>
      load_modules rest
        (if path_exists module then
           match load_into (lp_world p) module with
           | (world, Some ontology) =>
               {| lp_world := world;
                  lp_onto := if (lp_loaded_count p =? 0)%nat
                             then Some ontology else lp_onto p;
                  lp_loaded_count := S (lp_loaded_count p);
                  lp_failed_modules := lp_failed_modules p |}
           | (world, None) =>
               {| lp_world := world;
                  lp_onto := lp_onto p;
                  lp_loaded_count := lp_loaded_count p;
                  lp_failed_modules := (lp_failed_modules p ++ [module])%list |}
           end
         else
           {| lp_world := lp_world p;
              lp_onto := lp_onto p;
              lp_loaded_count := lp_loaded_count p;
              lp_failed_modules := (lp_failed_modules p ++ [module])%list |})
  end.

Definition load_fibo_modules (module_set_name : string) (s : module_state)
    : module_state * string :=
  match module_set_of module_set_name with
  | None =>
      (s, "❌ Invalid module set. Available options: " +:+
          pystr.join ", " module_set_keys)
  | Some info =>
      let modules := ms_modules info in
      let p := load_modules modules
                 {| lp_world := []; lp_onto := onto (kb s);
                    lp_loaded_count := 0; lp_failed_modules := [] |} in
      let result :=
        "✅ Successfully loaded " +:+
        pystr.of_int (Z.of_nat (lp_loaded_count p)) +:+ "/" +:+
        pystr.of_int (Z.of_nat (length modules)) +:+
        " modules in fresh world" in
      ({| kb := {| onto := lp_onto p; default_world := lp_world p |};
          CURRENT_MODULE_SET := module_set_name;
          MODULE_FILES := modules |},
       match lp_failed_modules p with
       | [] => result
       | failed_modules =>
           result +:+ nl +:+ "⚠️ Failed to load " +:+
           pystr.of_int (Z.of_nat (length failed_modules)) +:+ " modules: " +:+
           repr_list (take 3 failed_modules) +:+ "..."
       end)
  end.

Definition get_available_module_sets (s : module_state) : string :=
  pystr.join nl
    ("📚 Available FIBO Module Sets:" ::
     map (fun entry =>
            let status :=
              if bool_decide (fst entry = CURRENT_MODULE_SET s)
              then "🟢 ACTIVE" else "⚪" in
            "  " +:+ status +:+ " " +:+ fst entry +:+ ": " +:+
            ms_name (snd entry) +:+ " (" +:+
            pystr.of_int (Z.of_nat (length (ms_modules (snd entry)))) +:+
            " modules)")
         MODULE_SETS).

Definition switch_module_set (module_set_name : string) (s : module_state)
    : module_state * string :=
  if bool_decide (module_set_name = CURRENT_MODULE_SET s) then
    (s, "ℹ️ Already using module set '" +:+ module_set_name +:+ "'")
  else
    let (s', result) := load_fibo_modules module_set_name s in
    (s', "🔄 Switched to module set '" +:+ module_set_name +:+ "'" +:+ nl +:+
         result).

End Loading.

End fibo_modules.

(** ** Module sets: planner.py *)

Record module_info : Type := {
  mi_name : string;
  mi_display_name : string;
  mi_module_count : nat;
  mi_modules : list string
}.

(** The dict that [switch_fibo_module_set] returns; a field is [None] when
    the dict has no such key. *)
Record switch_result : Type := {
  sr_success : bool;
  sr_message : string;
  sr_available_sets : option (list string);
  sr_current_info : option module_info;
  sr_stats : option string;
  sr_error : option string
}.

(** One value of the dict that [get_all_module_sets_info] returns. *)
Record set_info : Type := {
  si_name : string;
  si_module_count : nat;
  si_modules : list string;
  si_is_current : bool;
  si_description : string
}.

(** The dict that [compare_module_sets] returns.  The sets [common],
    [only_in_set1] and [only_in_set2] are lists without duplicates; the
    order in which Python lists a set is not modelled, and no caller
    depends on it. *)
Record comparison : Type := {
  cmp_set1 : string * nat;
  cmp_set2 : string * nat;
  cmp_common : list string;
  cmp_only_in_set1 : list string;
  cmp_only_in_set2 : list string;
  cmp_overlap : nat * nat      (* [len(common)] and the larger total *)
}.

Definition get_module_set_description (module_set_name : string) : string :=
  if bool_decide (module_set_name = "core") then
    "Basic financial concepts including accounting equity, ownership, and equity instruments. Good for getting started with FIBO."
  else if bool_decide (module_set_name = "comprehensive") then
    "Full financial ontology coverage including debt instruments, financial instruments, securities, currencies, and business entities. Best for complete financial modeling."
  else if bool_decide (module_set_name = "banking") then
    "Focused on banking and financial services including debt, currency amounts, and financial service entities. Ideal for banking applications."
  else if bool_decide (module_set_name = "securities") then
    "Specialized in securities and capital markets including equity instruments, securities identification, issuance, and listings. Perfect for investment and trading applications."
  else "Custom module set with specialized focus.".

(** [compare_module_sets]: the text of the refusal, or the comparison; the
    division of the overlap raises when both sets are empty. *)
Definition compare_module_sets (set1 set2 : string)
    : attempt (string + comparison) :=
  match module_set_of set1, module_set_of set2 with
  | Some info1, Some info2 =>
      let modules1 := remove_dups (ms_modules info1) in
      let modules2 := remove_dups (ms_modules info2) in
      let common := list_intersection modules1 modules2 in
      let larger := (length modules1 `max` length modules2)%nat in
      if (larger =? 0)%nat then Thrown ZeroDivisionError
      else
        Returned (inr {| cmp_set1 := (set1, length modules1);
                         cmp_set2 := (set2, length modules2);
                         cmp_common := common;
                         cmp_only_in_set1 := list_difference modules1 modules2;
                         cmp_only_in_set2 := list_difference modules2 modules1;
                         cmp_overlap := (length common, larger) |})
  | _, _ => Returned (inl "❌ One or both module sets not found")
  end.

Definition module_keywords : list (string * string) :=
  [ ("switch to comprehensive", "comprehensive");
    ("use comprehensive", "comprehensive");
    ("load comprehensive", "comprehensive");
    ("switch to banking", "banking");
    ("use banking", "banking");
    ("load banking", "banking");
    ("switch to securities", "securities");
    ("use securities", "securities");
    ("load securities", "securities");
    ("switch to core", "core");
    ("use core", "core");
    ("load core", "core") ].

Definition information_phrases : list string :=
  ["available modules"; "module sets"; "what modules"; "current module"].

Section ModuleAwareness.

Variable entity : Type.
Variable search_one : Ontology -> string -> option entity.
Variable render : string -> Ontology -> list entity -> list string -> string.

(** The text that [get_ontology_stats] builds when the world holds an
    ontology; it names the current module set and counts its files. *)
Variable render_stats : module_state -> string.

Variable call_local_llm : string -> bool -> string.
Variable json_loads : string -> option plan.
Variable plan_str : plan -> string.
Variable gemma_synthesize_results : string -> list tool_result -> string.
Variable path_exists : string -> bool.
Variable load_into : list Ontology -> string -> list Ontology * option Ontology.

(** The text of [f"{x:.1f}"] for the float [(common / larger) * 100]. *)
Variable format_overlap : nat -> nat -> string.

Definition stats_of (s : module_state) (st : kb_state) : string :=
  render_stats {| kb := st; CURRENT_MODULE_SET := CURRENT_MODULE_SET s;
                  MODULE_FILES := MODULE_FILES s |}.

Definition get_current_module_info (s : module_state)
    : attempt (module_info * string) :=
  match module_set_of (CURRENT_MODULE_SET s) with
  | None => Thrown (KeyError (CURRENT_MODULE_SET s))
  | Some info =>
      let current_info :=
        {| mi_name := CURRENT_MODULE_SET s;
           mi_display_name := ms_name info;
           mi_module_count := length (ms_modules info);
           mi_modules := ms_modules info |} in
      match of_res (get_ontology_stats (stats_of s) (kb s)) with
      | Returned stats => Returned (current_info, stats)
      | Thrown e => Thrown e
      end
  end.

Definition switch_fibo_module_set (new_module_set : string) (s : module_state)
    : module_state * switch_result :=
  match module_set_of new_module_set with
  | None =>
      let available := module_set_keys in
      (s, {| sr_success := false;
             sr_message := "❌ Invalid module set '" +:+ new_module_set +:+
                           "'. Available: " +:+ pystr.join ", " available;
             sr_available_sets := Some available;
             sr_current_info := None; sr_stats := None; sr_error := None |})
  | Some _ =>
      let (s', result) :=
        fibo_modules.switch_module_set path_exists load_into new_module_set s in
      match get_current_module_info s' with
      | Returned (current_info, stats) =>
          (s', {| sr_success := true;
                  sr_message := result;
                  sr_available_sets := None;
                  sr_current_info := Some current_info;
                  sr_stats := Some stats; sr_error := None |})
      | Thrown e =>
          (s', {| sr_success := false;
                  sr_message := "❌ Error switching module set: " +:+ str_raised e;
                  sr_available_sets := None;
                  sr_current_info := None; sr_stats := None;
                  sr_error := Some (str_raised e) |})
      end
  end.

Definition get_all_module_sets_info (s : module_state)
    : list (string * set_info) :=
  map (fun entry =>
         (fst entry,
          {| si_name := ms_name (snd entry);
             si_module_count := length (ms_modules (snd entry));
             si_modules := ms_modules (snd entry);
             si_is_current := bool_decide (fst entry = CURRENT_MODULE_SET s);
             si_description := get_module_set_description (fst entry) |}))
      MODULE_SETS.

(** The reply to a request for information about the module sets. *)
Definition information_response (current_info : module_info) (stats : string)
    (all_modules : list (string * set_info)) : string :=
  pystr.join nl
    (["📚 **Current Module Set:** " +:+ mi_display_name current_info +:+
      " (" +:+ mi_name current_info +:+ ")";
      "📊 **Current Stats:**" +:+ nl +:+ stats;
      nl +:+ "🔄 **Available Module Sets:**"]
     ++ concat (map (fun entry =>
                       let status := if si_is_current (snd entry)
                                     then "🟢 ACTIVE" else "⚪" in
                       ["  " +:+ status +:+ " **" +:+ fst entry +:+ "**: " +:+
                        si_name (snd entry) +:+ " (" +:+
                        pystr.of_int (Z.of_nat (si_module_count (snd entry))) +:+
                        " modules)";
                        "     " +:+ si_description (snd entry)])
                    all_modules)
     ++ [nl +:+ "💡 **To switch:** Try 'switch to comprehensive' or 'use banking modules'"])%list.

(** The reply to a request for a comparison. *)
Definition comparison_response (c : comparison) : string :=
  let only_in_set2 := cmp_only_in_set2 c in
  pystr.join nl
    (["📊 **Module Set Comparison: " +:+ fst (cmp_set1 c) +:+ " vs " +:+
      fst (cmp_set2 c) +:+ "**";
      "  📦 " +:+ fst (cmp_set1 c) +:+ ": " +:+
      pystr.of_int (Z.of_nat (snd (cmp_set1 c))) +:+ " modules";
      "  📦 " +:+ fst (cmp_set2 c) +:+ ": " +:+
      pystr.of_int (Z.of_nat (snd (cmp_set2 c))) +:+ " modules";
      "  🔗 Common modules: " +:+
      pystr.of_int (Z.of_nat (length (cmp_common c)));
      "  📈 Overlap: " +:+
      format_overlap (fst (cmp_overlap c)) (snd (cmp_overlap c)) +:+ "%"]
     ++ match only_in_set2 with
        | [] => []
        | _ =>
            ((nl +:+ "🆕 **Additional in " +:+ fst (cmp_set2 c) +:+ ":**")
               :: map (fun module => "  • " +:+ module)
                      (take 5 (sorted String.leb only_in_set2)))
            ++ (if (5 <? length only_in_set2)%nat
                then ["  ... and " +:+
                      pystr.of_int (Z.of_nat (length only_in_set2) - 5) +:+
                      " more"]
                else [])
        end)%list.

(** The first entry of [module_keywords] whose phrase the text holds. *)
Definition switch_request (user_lower : string) : option string :=
  snd <$> head (filter (fun entry => pystr.contains (fst entry) user_lower = true)
                       module_keywords).

Definition asks_information (user_lower : string) : bool :=
  existsb (fun phrase => pystr.contains phrase user_lower) information_phrases.

Definition asks_comparison (user_lower : string) : bool :=
  pystr.contains "compare" user_lower
  && existsb (fun word => pystr.contains word user_lower) ["modules"; "sets"].

Definition plain_query (user_input : string) (s : module_state)
    : list event * attempt string :=
  let (t, r) :=
    run_natural_language_query entity search_one render (stats_of s)
      call_local_llm json_loads plan_str gemma_synthesize_results (kb s)
      user_input in
  (t, of_res r).

(** [run_query_with_module_awareness]: the state of the module sets after
    the query, the calls made, and the reply or the exception. *)
Definition run_query_with_module_awareness (user_input : string)
    (s : module_state) : module_state * (list event * attempt string) :=
  let user_lower := pystr.lower user_input in
  match switch_request user_lower with
  | Some module_name =>
      let (s', result) := switch_fibo_module_set module_name s in
      (s', ([], Returned
                  (if sr_success result then
                     "✅ **Module Set Switched Successfully!**" +:+ nl +:+ nl +:+
                     sr_message result +:+ nl +:+ nl +:+
                     "📊 **New Stats:**" +:+ nl +:+ pystr.fmt_opt (sr_stats result)
                   else sr_message result)))
  | None =>
      if asks_information user_lower then
        match get_current_module_info s with
        | Thrown e => (s, ([], Thrown e))
        | Returned (current_info, stats) =>
            (s, ([], Returned (information_response current_info stats
                                 (get_all_module_sets_info s))))
        end
      else if asks_comparison user_lower then
        match get_current_module_info s with
        | Thrown e => (s, ([], Thrown e))
        | Returned (current_info, _) =>
            if bool_decide (mi_name current_info <> "comprehensive") then
              match compare_module_sets (mi_name current_info) "comprehensive" with
              | Thrown e => (s, ([], Thrown e))
              | Returned (inl _) =>
                  (s, ([], Thrown (Native (TypeError
                         "string indices must be integers, not 'str'"))))
              | Returned (inr c) => (s, ([], Returned (comparison_response c)))
              end
            else (s, plain_query user_input s)
        end
      else (s, plain_query user_input s)
  end.

End ModuleAwareness.

(** The name of the current module set is a key of [MODULE_SETS], and
    [MODULE_FILES] are the files of that set. *)
Definition consistent (s : module_state) : Prop :=
  exists info,
    module_set_of (CURRENT_MODULE_SET s) = Some info /\
    MODULE_FILES s = ms_modules info.

(** The text that [load_fibo_modules] returns for [loaded] modules loaded
    out of [total] and the modules [failed]. *)
Definition load_report (loaded total : nat) (failed : list string) : string :=
  let result :=
    "✅ Successfully loaded " +:+ pystr.of_int (Z.of_nat loaded) +:+ "/" +:+
    pystr.of_int (Z.of_nat total) +:+ " modules in fresh world" in
  match failed with
  | [] => result
  | _ => result +:+ nl +:+ "⚠️ Failed to load " +:+
         pystr.of_int (Z.of_nat (length failed)) +:+ " modules: " +:+
         repr_list (take 3 failed) +:+ "..."
  end.

(** A machine on which no file of a module exists, as any machine without
    the directory that [ONTOLOGY_BASE_PATH] names. *)
Definition no_file (module : string) : bool := false.

Definition never_loads (world : list Ontology) (module : string)
    : list Ontology * option Ontology := (world, None).

Definition format_overlap_demo (common larger : nat) : string := "?".

Definition aware_query (s : module_state) (user_input : string)
    : module_state * (list event * attempt string) :=
  run_query_with_module_awareness demo.entity demo.search_one demo.render
    (fun _ => "statistics") (demo.call_local_llm "not json") (demo.json_loads [])
    demo.plan_str demo.gemma_synthesize_results no_file never_loads
    format_overlap_demo user_input s.

(** The state after the equity ontology was loaded as the core set. *)
Definition core_loaded : module_state :=
  {| kb := demo.loaded;
     CURRENT_MODULE_SET := "core";
     MODULE_FILES := default [] (ms_modules <$> module_set_of "core") |}.

(** ** test_battery.py *)

Record TestCase : Type := {
  tc_name : string;
  tc_query : string;
  tc_expected_function : string;
  tc_expected_arguments : list string;
  tc_should_contain : option (list string);
  tc_should_not_contain : option (list string);
  tc_category : string
}.

Record TestResult (time : Type) : Type := {
  test_case : TestCase;
  success : bool;
  actual_response : string;
  execution_time : time;
  error_message : option string
}.
Arguments test_case {time} _.
Arguments success {time} _.
Arguments actual_response {time} _.
Arguments execution_time {time} _.
Arguments error_message {time} _.

(** One value of the dict [category_stats]. *)
Record category_stat : Type := {
  cs_total : nat;
  cs_passed : nat;
  cs_failed : nat
}.

(** One entry of the list [failed_tests] of a report. *)
Record failed_detail : Type := {
  fd_name : string;
  fd_query : string;
  fd_error : option string;
  fd_response : string
}.

Record report : Type := {
  rp_total_tests : nat;
  rp_passed : nat;
  rp_failed : nat;
  rp_success_rate : string;
  rp_avg_execution_time : string;
  rp_max_execution_time : string;
  rp_min_execution_time : string;
  rp_category_breakdown : list (string * category_stat);
  rp_failed_tests : list failed_detail
}.

(** The update of [category_stats] for one result: a category that is not
    a key yet enters with zeros, at the end, and then the counts of the
    category go up. *)
Definition count_result (passed : bool) (c : category_stat) : category_stat :=
  {| cs_total := S (cs_total c);
     cs_passed := if passed then S (cs_passed c) else cs_passed c;
     cs_failed := if passed then cs_failed c else S (cs_failed c) |}.

Fixpoint update_stats (cat : string) (passed : bool)
    (stats : list (string * category_stat)) : list (string * category_stat) :=
  match stats with
  | [] => [(cat, count_result passed
                   {| cs_total := 0; cs_passed := 0; cs_failed := 0 |})]
  | (key, c) :: rest =>
      if bool_decide (key = cat) then (key, count_result passed c) :: rest
      else (key, c) :: update_stats cat passed rest
  end.

Section TestBattery.

Variable entity : Type.
Variable search_one : Ontology -> string -> option entity.
Variable render : string -> Ontology -> list entity -> list string -> string.
Variable render_stats : kb_state -> string.
Variable call_local_llm : string -> bool -> string.
Variable json_loads : string -> option plan.
Variable plan_str : plan -> string.
Variable gemma_synthesize_results : string -> list tool_result -> string.
Variable st : kb_state.

(** The seconds that [time.time()] measures for a test, and the texts and
    the arithmetic of the floats of the report. *)
Variable time : Type.
Variable clock : TestCase -> time.
Variable average : list time -> time.
Variable slowest : list time -> time.
Variable fastest : list time -> time.
Variable format_seconds : time -> string.
Variable format_rate : nat -> nat -> string.

(** The first text of [should_contain] that the response lacks, ignoring
    case. *)
Definition first_missing (test_case : TestCase) (response : string)
    : option string :=
  head (filter (fun expected =>
                  pystr.contains (pystr.lower expected) (pystr.lower response)
                    = false)
               (default [] (tc_should_contain test_case))).

(** The first text of [should_not_contain] that the response holds,
    ignoring case. *)
Definition first_forbidden (test_case : TestCase) (response : string)
    : option string :=
  head (filter (fun forbidden =>
                  pystr.contains (pystr.lower forbidden) (pystr.lower response)
                    = true)
               (default [] (tc_should_not_contain test_case))).

Definition run_single_test (test_case : TestCase)
    : list event * TestResult time :=
  let (t, r) :=
    run_natural_language_query entity search_one render render_stats
      call_local_llm json_loads plan_str gemma_synthesize_results st
      (tc_query test_case) in
  (t,
   match r with
   | Ok response =>
       match first_missing test_case response with
       | Some expected =>
           {| test_case := test_case; success := false;
              actual_response := response;
              execution_time := clock test_case;
              error_message :=
                Some ("Missing expected content: '" +:+ expected +:+ "'") |}
       | None =>
           match first_forbidden test_case response with
           | Some forbidden =>
               {| test_case := test_case; success := false;
                  actual_response := response;
                  execution_time := clock test_case;
                  error_message :=
                    Some ("Contains forbidden content: '" +:+ forbidden +:+ "'") |}
           | None =>
               {| test_case := test_case; success := true;
                  actual_response := response;
                  execution_time := clock test_case;
                  error_message := None |}
           end
       end
   | Raise e =>
       {| test_case := test_case; success := false;
          actual_response := str_raised (Native e);
          execution_time := clock test_case;
          error_message := Some ("Exception: " +:+ str_raised (Native e)) |}
   end).

Definition category_stats (results : list (TestResult time))
    : list (string * category_stat) :=
  foldl (fun stats result =>
           update_stats (tc_category (test_case result)) (success result) stats)
        [] results.

Definition failed_tests_details (results : list (TestResult time))
    : list failed_detail :=
  map (fun r =>
         {| fd_name := tc_name (test_case r);
            fd_query := tc_query (test_case r);
            fd_error := error_message r;
            fd_response :=
              if (200 <? String.length (actual_response r))%nat
              then str_take 200 (actual_response r) +:+ "..."
              else actual_response r |})
      (filter (fun r => success r = false) results).

(** [_generate_report] for the results in [self.results]: the average
    divides by the number of results. *)
Definition _generate_report (results : list (TestResult time)) : attempt report :=
  let total_tests := length results in
  let passed_tests := length (filter (fun r => success r = true) results) in
  let failed_tests := (total_tests - passed_tests)%nat in
  let stats := category_stats results in
  if (total_tests =? 0)%nat then Thrown ZeroDivisionError
  else
    let times := map execution_time results in
    Returned
      {| rp_total_tests := total_tests;
         rp_passed := passed_tests;
         rp_failed := failed_tests;
         rp_success_rate := format_rate passed_tests total_tests +:+ "%";
         rp_avg_execution_time := format_seconds (average times) +:+ "s";
         rp_max_execution_time := format_seconds (slowest times) +:+ "s";
         rp_min_execution_time := format_seconds (fastest times) +:+ "s";
         rp_category_breakdown := stats;
         rp_failed_tests := failed_tests_details results |}.

(** The loop of [run_all_tests] over the selected test cases. *)
Fixpoint run_tests (test_cases : list TestCase)
    : list event * list (TestResult time) :=
  match test_cases with
  | [] => ([], [])
  | test_case :: rest =>
      let (t, result) := run_single_test test_case in
      let (t', results) := run_tests rest in
      ((t ++ t')%list, result :: results)
  end.

(** [run_all_tests] on a battery with the cases [all_cases]: the calls
    made, the new [self.results], and the report or the exception. *)
Definition run_all_tests (all_cases : list TestCase)
    (categories : option (list string))
    : list event * list (TestResult time) * attempt report :=
  let test_cases :=
    match categories with
    | None | Some [] => all_cases
    | Some cats => filter (fun t => tc_category t ∈ cats) all_cases
    end in
  let (t, results) := run_tests test_cases in
  (t, results, _generate_report results).

Definition run_category (all_cases : list TestCase) (category : string)
    : list event * list (TestResult time) * attempt report :=
  run_all_tests all_cases (Some [category]).

End TestBattery.

(** The sums of the counts over the categories of a breakdown. *)
Definition sum_total (stats : list (string * category_stat)) : nat :=
  foldr (fun entry n => (cs_total (snd entry) + n)%nat) 0%nat stats.

Definition sum_passed (stats : list (string * category_stat)) : nat :=
  foldr (fun entry n => (cs_passed (snd entry) + n)%nat) 0%nat stats.

(** A battery of two cases in the demo, with the clock and the float
    texts left blank. *)
Definition battery_cases : list TestCase :=
  [ {| tc_name := "List all classes"; tc_query := "List all classes";
       tc_expected_function := "list_classes"; tc_expected_arguments := [];
       tc_should_contain := Some ["PaidInCapital"];
       tc_should_not_contain := Some ["not found"];
       tc_category := "basic" |};
    {| tc_name := "Unknown class"; tc_query := "Explain Zebra";
       tc_expected_function := "explain_class"; tc_expected_arguments := ["Zebra"];
       tc_should_contain := Some ["superclass"];
       tc_should_not_contain := None;
       tc_category := "error_handling" |} ].

Definition battery_model_reply : string := demo.json_step "list_classes".

Definition battery_run_single (test_case : TestCase)
    : list event * TestResult unit :=
  run_single_test demo.entity demo.search_one demo.render demo.render_stats
    (demo.call_local_llm battery_model_reply)
    (demo.json_loads [(battery_model_reply, PlanDict (demo.step "list_classes" []))])
    demo.plan_str demo.gemma_synthesize_results demo.loaded
    unit (fun _ => tt) test_case.

Definition battery_report (results : list (TestResult unit)) : attempt report :=
  _generate_report unit (fun _ => tt) (fun _ => tt) (fun _ => tt)
    (fun _ => "?") (fun _ _ => "?") results.

Definition battery_run_category (category : string)
    : list event * list (TestResult unit) * attempt report :=
  run_category demo.entity demo.search_one demo.render demo.render_stats
    (demo.call_local_llm battery_model_reply)
    (demo.json_loads [(battery_model_reply, PlanDict (demo.step "list_classes" []))])
    demo.plan_str demo.gemma_synthesize_results demo.loaded
    unit (fun _ => tt) (fun _ => tt) (fun _ => tt) (fun _ => tt)
    (fun _ => "?") (fun _ _ => "?") battery_cases category.

(** ** Sorting keeps the elements *)

Section SortingFacts.
Context {A : Type}.
Variable le : A -> A -> bool.

Lemma insert_asc_perm (x : A) (l : list A) : insert_asc le x l ≡ₚ x :: l.
Proof.
  induction l as [|y l IH]; simpl; [done|].
  destruct (le x y); [done|].
  rewrite IH. apply Permutation_swap.
Qed.

Lemma sorted_perm (l : list A) : sorted le l ≡ₚ l.
Proof.
  induction l as [|x l IH]; simpl; [done|].
  by rewrite insert_asc_perm, IH.
Qed.

Lemma insert_desc_perm (x : A) (l : list A) : insert_desc le x l ≡ₚ x :: l.
Proof.
  induction l as [|y l IH]; simpl; [done|].
  destruct (le y x); [done|].
  rewrite IH. apply Permutation_swap.
Qed.

Lemma sorted_reverse_perm (l : list A) : sorted_reverse le l ≡ₚ l.
Proof.
  induction l as [|x l IH]; simpl; [done|].
  by rewrite insert_desc_perm, IH.
Qed.

End SortingFacts.

(** ** difflib: the work list of [get_matching_blocks] runs empty *)

Module difflib_facts.
Import difflib.

Section Bounds.
Variables a b : list ascii.
Variable b2j : gmap ascii (list Z).

Lemma scan_positions_within i alo blo bhi j2len js newj2len best :
  alo <= i ->
  map_Forall (fun _ v => 1 <= v <= i - alo) j2len ->
  within alo (i + 1) best ->
  within alo (i + 1)
         (snd (scan_positions i blo bhi j2len js newj2len best)) /\
  (map_Forall (fun _ v => 1 <= v <= i + 1 - alo) newj2len ->
   map_Forall (fun _ v => 1 <= v <= i + 1 - alo)
              (fst (scan_positions i blo bhi j2len js newj2len best))).
Proof.
  intros Hi Hold. revert newj2len best.
  induction js as [|j js IH]; intros newj2len best Hbest; simpl; [done|].
  destruct (j <? blo); [by apply IH|].
  destruct (bhi <=? j); [done|].
  destruct best as [[besti bestj] bestsize].
  assert (Hk : 1 <= default 0 (j2len !! (j - 1)) + 1 <= i + 1 - alo).
  { destruct (j2len !! (j - 1)) as [v|] eqn:Hv; simpl.
    - apply Hold in Hv. lia.
    - lia. }
  set (k := default 0 (j2len !! (j - 1)) + 1) in *.
  destruct (IH (<[j:=k]> newj2len)
               (if bestsize <? k then (i - k + 1, j - k + 1, k)
                else (besti, bestj, bestsize))) as [IH1 IH2].
  { destruct (bestsize <? k); [|done]. unfold within. lia. }
  split; [done|].
  intros Hnew. apply IH2. by apply map_Forall_insert_2.
Qed.

Lemma scan_rows_within alo ahi blo bhi :
  alo <= ahi -> within alo ahi (scan_rows a b2j alo ahi blo bhi).
Proof.
  intros Hle. unfold scan_rows.
  set (step := fun '(j2len, best) i =>
                 scan_positions i blo bhi j2len
                   match item a i with
                   | Some c => default [] (b2j !! c)
                   | None => []
                   end ∅ best).
  assert (Hgen : forall (n : nat) (i : Z) (acc : gmap Z Z * block),
             alo <= i ->
             map_Forall (fun _ v => 1 <= v <= i - alo) (fst acc) ->
             within alo i (snd acc) ->
             within alo (i + Z.of_nat n)
                    (snd (foldl step acc (seqZ i (Z.of_nat n))))).
  { induction n as [|n IH]; intros i [j2len best] Hi Hmap Hbest.
    - simpl. by rewrite Z.add_0_r.
    - rewrite seqZ_cons by lia. simpl.
      replace (Z.pred (Z.of_nat (S n))) with (Z.of_nat n) by lia.
      replace (i + Z.of_nat (S n)) with (Z.succ i + Z.of_nat n) by lia.
      simpl in Hmap, Hbest.
      destruct (scan_positions_within i alo blo bhi j2len
                  match item a i with
                  | Some c => default [] (b2j !! c)
                  | None => []
                  end ∅ best Hi Hmap) as [H1 H2].
      { destruct best as [[besti bestj] bestsize]. simpl in *. lia. }
      destruct (scan_positions _ _ _ _ _ _ _) as [new best'] eqn:Hscan.
      apply IH; simpl in *.
      + lia.
      + replace (Z.succ i - alo) with (i + 1 - alo) by lia.
        apply H2. apply map_Forall_empty.
      + by replace (Z.succ i) with (i + 1) by lia. }
  specialize (Hgen (Z.to_nat (ahi - alo)) alo (∅, (alo, blo, 0))).
  rewrite Z2Nat.id in Hgen by lia.
  replace (alo + (ahi - alo)) with ahi in Hgen by lia.
  apply Hgen; simpl; [lia | apply map_Forall_empty | lia].
Qed.

Lemma extend_down_within n alo blo top best :
  within alo top best -> within alo top (extend_down a b n alo blo best).
Proof.
  revert best. induction n as [|n IH]; intros [[besti bestj] bestsize] H;
    simpl; [done|].
  destruct (alo <? besti) eqn:Hlt; simpl; [|done].
  destruct (blo <? bestj); simpl; [|done].
  case_bool_decide; [|done].
  apply IH. unfold within in *. lia.
Qed.

Lemma extend_up_within n alo ahi bhi best :
  within alo ahi best -> within alo ahi (extend_up a b n ahi bhi best).
Proof.
  revert best. induction n as [|n IH]; intros [[besti bestj] bestsize] H;
    simpl; [done|].
  destruct (besti + bestsize <? ahi) eqn:Hlt; simpl; [|done].
  destruct (bestj + bestsize <? bhi); simpl; [|done].
  case_bool_decide; [|done].
  apply IH. unfold within in *. lia.
Qed.

Lemma find_longest_match_within alo ahi blo bhi :
  alo <= ahi -> within alo ahi (find_longest_match a b b2j alo ahi blo bhi).
Proof.
  intros Hle. unfold find_longest_match.
  pose proof (scan_rows_within alo ahi blo bhi Hle) as H0.
  set (best0 := scan_rows a b2j alo ahi blo bhi) in *.
  pose proof (extend_down_within (Z.to_nat (fst (fst best0) - alo))
                alo blo ahi best0 H0) as H1.
  destruct (extend_down _ _ _ _ _ _) as [[besti bestj] bestsize].
  by apply extend_up_within.
Qed.

Lemma weight_nonneg queue : Forall ordered queue -> 0 <= weight queue.
Proof.
  induction 1 as [|[[[alo ahi] blo] bhi] queue Hr _ IH]; simpl in *; lia.
Qed.

Lemma match_regions_enough fuel queue matching_blocks :
  Forall ordered queue ->
  weight queue <= Z.of_nat fuel ->
  is_Some (match_regions a b b2j fuel queue matching_blocks).
Proof.
  revert queue matching_blocks.
  induction fuel as [|fuel IH]; intros queue acc Hord Hw;
    destruct queue as [|[[[alo ahi] blo] bhi] queue]; simpl;
    try (by eexists).
  - apply Forall_cons_1 in Hord as [Hr Hq].
    pose proof (weight_nonneg queue Hq). simpl in Hr, Hw. lia.
  - apply Forall_cons_1 in Hord as [Hr Hq]. simpl in Hr, Hw.
    pose proof (weight_nonneg queue Hq) as Hq0.
    pose proof (find_longest_match_within alo ahi blo bhi Hr) as Hin.
    destruct (find_longest_match a b b2j alo ahi blo bhi) as [[i j] k].
    simpl in Hin. destruct Hin as (Hi & Hk & Hik).
    destruct (k =? 0) eqn:Hk0; [apply IH; [done|lia]|].
    apply Z.eqb_neq in Hk0.
    apply IH.
    + destruct ((i + k <? ahi) && (j + k <? bhi)) eqn:H2;
        destruct ((alo <? i) && (blo <? j)) eqn:H1;
        repeat apply Forall_cons_2; simpl; try done; lia.
    + destruct ((i + k <? ahi) && (j + k <? bhi)) eqn:H2;
        destruct ((alo <? i) && (blo <? j)) eqn:H1; simpl; lia.
Qed.

(** The loop of [get_matching_blocks] ends with an empty queue. *)
Lemma match_regions_terminates :
  is_Some (match_regions a b b2j (2 * length a + 1)
                         [(0, la a, 0, lb b)] []).
Proof.
  apply match_regions_enough.
  - apply Forall_cons_2; [|done]. unfold la. simpl. lia.
  - unfold la. simpl. lia.
Qed.

End Bounds.
End difflib_facts.

(** ** difflib: what [get_close_matches] returns *)

Module close_matches_facts.
Import difflib.

(** A result is the front of a rearrangement of the possibilities that
    pass the test. *)
Lemma get_close_matches_inv word possibilities n cutoff l :
  get_close_matches word possibilities n cutoff = Ok l ->
  0 < n /\
  exists l',
    l' ≡ₚ filter (fun x => good_enough (list_ascii_of_string word)
                             (chain_b (list_ascii_of_string word)) cutoff x = true)
                 possibilities /\
    l = take (Z.to_nat n) l'.
Proof.
  unfold get_close_matches.
  destruct (0 <? n) eqn:Hn; simpl; [|done].
  destruct (Qle_bool 0 cutoff && Qle_bool cutoff 1); simpl; [|done].
  intros [= <-]. split; [lia|].
  eexists. split; [|unfold nlargest; apply fmap_take].
  rewrite sorted_reverse_perm.
  rewrite <- list_fmap_compose. simpl.
  by rewrite list_fmap_id.
Qed.

Lemma get_close_matches_total word possibilities n cutoff :
  0 < n -> Qle_bool 0 cutoff = true -> Qle_bool cutoff 1 = true ->
  exists l, get_close_matches word possibilities n cutoff = Ok l.
Proof.
  intros Hn H0 H1. unfold get_close_matches.
  apply Z.ltb_lt in Hn. rewrite Hn, H0, H1. simpl. by eexists.
Qed.

Lemma get_close_matches_raises word possibilities n cutoff :
  n <= 0 -> exists e, get_close_matches word possibilities n cutoff = Raise e.
Proof.
  intros Hn. unfold get_close_matches.
  destruct (0 <? n) eqn:H; [lia|]. simpl. by eexists.
Qed.

Lemma get_close_matches_elem word possibilities n cutoff l x :
  get_close_matches word possibilities n cutoff = Ok l ->
  x ∈ l ->
  x ∈ possibilities /\ Qle_bool cutoff (score word x) = true.
Proof.
  intros (_ & l' & Hperm & ->)%get_close_matches_inv Hx.
  apply (fun H => elem_of_sublist _ _ _ H (sublist_take _ _)) in Hx.
  rewrite Hperm in Hx. apply list_elem_of_filter in Hx as [Hgood Hin].
  split; [done|]. unfold good_enough in Hgood.
  by apply andb_prop in Hgood as [_ ?].
Qed.

Lemma get_close_matches_NoDup word possibilities n cutoff l :
  NoDup possibilities ->
  get_close_matches word possibilities n cutoff = Ok l ->
  NoDup l.
Proof.
  intros Hnd (_ & l' & Hperm & ->)%get_close_matches_inv.
  eapply sublist_NoDup; [|apply sublist_take].
  rewrite Hperm. by apply list.NoDup_filter.
Qed.

Lemma get_close_matches_length word possibilities n cutoff l :
  get_close_matches word possibilities n cutoff = Ok l ->
  Z.of_nat (length l) <= n.
Proof.
  intros (Hn & l' & _ & ->)%get_close_matches_inv.
  rewrite length_take. lia.
Qed.

(** No possibility that reaches the cutoff is left out of a result that
    is empty. *)
Lemma get_close_matches_nil word possibilities n cutoff x :
  get_close_matches word possibilities n cutoff = Ok [] ->
  x ∈ possibilities ->
  good_enough (list_ascii_of_string word)
              (chain_b (list_ascii_of_string word)) cutoff x = false.
Proof.
  intros (Hn & l' & Hperm & Hnil)%get_close_matches_inv Hx.
  destruct (good_enough _ _ _ x) eqn:Hg; [|done].
  assert (Hin : x ∈ l') by (rewrite Hperm; by apply list_elem_of_filter).
  destruct l' as [|y l']; [by apply elem_of_nil in Hin|].
  destruct (Z.to_nat n) eqn:Hz; [lia|done].
Qed.

(** The first pair of the descending order has the highest score. *)
Lemma sorted_reverse_head_max (l : list (Q * string)) m rest :
  sorted_reverse scored_le l = m :: rest ->
  forall s, s ∈ l -> (fst s <= fst m)%Q.
Proof.
  assert (Hle : forall x y, scored_le x y = true -> (fst x <= fst y)%Q).
  { intros x y. unfold scored_le.
    destruct (Qeq_bool (fst x) (fst y)) eqn:Heq.
    - intros _. apply Qeq_bool_eq in Heq. rewrite Heq. apply Qle_refl.
    - apply Qle_bool_imp_le. }
  assert (Hgt : forall x y, scored_le x y = false -> (fst y <= fst x)%Q).
  { intros x y. unfold scored_le.
    destruct (Qeq_bool (fst x) (fst y)) eqn:Heq.
    - intros _. apply Qeq_bool_eq in Heq. rewrite Heq. apply Qle_refl.
    - intros Hf. apply Qlt_le_weak. apply Qnot_le_lt.
      intros H. apply Qle_bool_iff in H. congruence. }
  revert m rest. induction l as [|x l IH]; intros m rest Hs s Hin; [done|].
  simpl in Hs.
  destruct (sorted_reverse scored_le l) as [|m' t] eqn:Hl.
  - simpl in Hs. injection Hs as <- <-.
    apply elem_of_cons in Hin as [->|Hin]; [apply Qle_refl|].
    assert (Hp : l ≡ₚ []) by (by rewrite <- Hl, sorted_reverse_perm).
    apply Permutation_nil_r in Hp. subst l. by apply elem_of_nil in Hin.
  - simpl in Hs. destruct (scored_le m' x) eqn:Hc.
    + injection Hs as <- <-.
      apply elem_of_cons in Hin as [->|Hin]; [apply Qle_refl|].
      eapply Qle_trans; [by eapply IH|by apply Hle].
    + injection Hs as <- <-.
      apply elem_of_cons in Hin as [->|Hin]; [by apply Hgt|].
      by eapply IH.
Qed.

(** The first name of a result scores highest among the possibilities
    that pass the test. *)
Lemma get_close_matches_best word possibilities n cutoff m rest x :
  get_close_matches word possibilities n cutoff = Ok (m :: rest) ->
  x ∈ possibilities ->
  good_enough (list_ascii_of_string word)
              (chain_b (list_ascii_of_string word)) cutoff x = true ->
  (score word x <= score word m)%Q.
Proof.
  unfold get_close_matches.
  destruct (0 <? n) eqn:Hn; simpl; [|done].
  destruct (Qle_bool 0 cutoff && Qle_bool cutoff 1); simpl; [|done].
  intros [= Hres] Hx Hgood. unfold nlargest in Hres.
  set (b := list_ascii_of_string word) in *.
  set (scored := map (fun x => (ratio (list_ascii_of_string x) b (chain_b b), x))
                     (filter (fun x => good_enough b (chain_b b) cutoff x = true)
                             possibilities)) in *.
  destruct (sorted_reverse scored_le scored) as [|[r0 m0] t] eqn:Hsorted.
  { by rewrite take_nil in Hres. }
  destruct (Z.to_nat n) as [|k]; [done|]. simpl in Hres.
  injection Hres as -> _.
  assert (Hm : (r0, m) ∈ scored).
  { rewrite <- (sorted_reverse_perm scored_le scored), Hsorted. left. }
  apply list_elem_of_fmap in Hm as (m' & [= -> ->] & _).
  apply (sorted_reverse_head_max scored _ _ Hsorted
           (ratio (list_ascii_of_string x) b (chain_b b), x)).
  apply list_elem_of_fmap. exists x. split; [done|].
  by apply list_elem_of_filter.
Qed.

End close_matches_facts.

(** ** The candidate set *)

Lemma candidates_NoDup st : NoDup (get_class_candidates st).
Proof.
  unfold get_class_candidates. rewrite sorted_perm. apply NoDup_remove_dups.
Qed.

(** The candidates are the names of the classes of the loaded ontologies. *)
Lemma elem_of_candidates st c :
  c ∈ get_class_candidates st <->
  exists o cls, o ∈ default_world st /\ cls ∈ onto_classes o /\ cls_name cls = Some c.
Proof.
  unfold get_class_candidates.
  rewrite sorted_perm, elem_of_remove_dups, list_elem_of_In, in_concat.
  split.
  - intros (l & Hl & Hc). apply list_elem_of_In in Hl, Hc.
    apply list_elem_of_fmap in Hl as (o & -> & Ho).
    apply list_elem_of_omap in Hc as (cls & ? & ?). eauto.
  - intros (o & cls & Ho & Hcls & Hname).
    exists (omap cls_name (onto_classes o)).
    rewrite <- !list_elem_of_In. split.
    + apply list_elem_of_fmap. eauto.
    + apply list_elem_of_omap. eauto.
Qed.

Lemma get_class_suggestions_run st input_name max_suggestions :
  run_of st input_name max_suggestions
         (get_class_suggestions st input_name max_suggestions).
Proof.
  unfold get_class_suggestions.
  destruct (get_class_candidates st) as [|c0 cs] eqn:Hc.
  { by apply run_empty. }
  rewrite <- Hc.
  assert (Hne : get_class_candidates st <> []) by (by rewrite Hc).
  destruct (exact_matches _ input_name) as [|e rest] eqn:He.
  2:{ by eapply run_exact. }
  destruct (close_matches _ input_name max_suggestions) as [close|err] eqn:Hcl;
    simpl.
  - pose proof Hcl as (Hn & _)%close_matches_facts.get_close_matches_inv.
    assert (Hmax : 0 < max_suggestions) by lia.
    unfold slice_to. destruct (0 <=? max_suggestions) eqn:Hle; [|lia].
    pose proof (run_tiers st input_name max_suggestions close Hne He Hmax Hcl)
      as Hrun.
    unfold all_suggestions, listed_result in Hrun.
    by destruct (take _ _).
  - apply run_raise; try done.
    destruct (Z_le_gt_dec max_suggestions 0) as [|Hgt]; [done|].
    destruct (close_matches_facts.get_close_matches_total input_name
                (get_class_candidates st) (max_suggestions * 2) (6 # 10))
      as [l Hl]; [lia|done|done|].
    unfold close_matches in Hcl. congruence.
Qed.

(** ** The resolver returns with the default limit *)

Lemma get_class_suggestions_shape st input_name max_suggestions r :
  get_class_suggestions st input_name max_suggestions = Ok r ->
  (exists e, r = exact_result e /\ e ∈ get_class_candidates st) \/
  (exists l, l <> [] /\
             r = {| r_type := "suggestions"; r_match := None; r_suggestions := l |}) \/
  r = none_result.
Proof.
  intros Hr.
  destruct (get_class_suggestions_run st input_name max_suggestions)
    as [Hc|e rest He|err Hc He|close Hc He Hmax Hcl].
  - injection Hr as <-. by right; right.
  - injection Hr as <-. left. exists e. split; [done|].
    assert (Hin : e ∈ exact_matches (get_class_candidates st) input_name)
      by (rewrite He; left).
    unfold exact_matches in Hin. by apply list_elem_of_filter in Hin as [_ ?].
  - done.
  - injection Hr as <-. right.
    destruct (take _ _) as [|x l] eqn:Hl; [by right|].
    left. by exists (x :: l).
Qed.

Lemma get_class_suggestions_total st input_name max_suggestions :
  0 < max_suggestions ->
  exists r, get_class_suggestions st input_name max_suggestions = Ok r.
Proof.
  intros Hmax.
  destruct (get_class_suggestions_run st input_name max_suggestions);
    try (by eexists). lia.
Qed.

(** ** The resolver: exact matches *)

Lemma exact_matches_elem candidates input_name c :
  c ∈ exact_matches candidates input_name <->
  c ∈ candidates /\ pystr.lower c = pystr.lower input_name.
Proof. unfold exact_matches. rewrite list_elem_of_filter. tauto. Qed.

Lemma exact_found st input_name max_suggestions e rest :
  exact_matches (get_class_candidates st) input_name = e :: rest ->
  get_class_suggestions st input_name max_suggestions = Ok (exact_result e).
Proof.
  intros He.
  destruct (get_class_suggestions_run st input_name max_suggestions)
    as [Hc|e' rest' He'|err Hc He'|close Hc He'].
  - by rewrite Hc in He.
  - congruence.
  - congruence.
  - congruence.
Qed.

Lemma exact_returned st input_name max_suggestions r :
  get_class_suggestions st input_name max_suggestions = Ok r ->
  r_type r = "exact" ->
  exists e rest,
    exact_matches (get_class_candidates st) input_name = e :: rest /\
    r = exact_result e.
Proof.
  intros Hr Ht.
  destruct (get_class_suggestions_run st input_name max_suggestions)
    as [Hc|e' rest' He'|err Hc He'|close Hc He' Hmax Hcl].
  - injection Hr as <-. done.
  - injection Hr as <-. eauto.
  - done.
  - injection Hr as <-. by destruct (take _ _).
Qed.

(** C1.  The resolver answers "exact" exactly when a candidate equals the
    input ignoring case, whatever [max_suggestions] is.  The answer then
    carries one name and no suggestion: the first candidate, in the order of
    the candidate list and spelled as the knowledge base spells it, that
    equals the input ignoring case; when only one candidate does, that
    candidate. *)
Theorem exact_iff_equal_ignoring_case st input_name max_suggestions :
  let candidates := get_class_candidates st in
  let equal_ignoring_case c := pystr.lower c = pystr.lower input_name in
  ((exists r, get_class_suggestions st input_name max_suggestions = Ok r /\
              r_type r = "exact")
   <-> (exists c, c ∈ candidates /\ equal_ignoring_case c)) /\
  ((exists c, c ∈ candidates /\ equal_ignoring_case c) ->
   exists e,
     get_class_suggestions st input_name max_suggestions
       = Ok {| r_type := "exact"; r_match := Some e; r_suggestions := [] |} /\
     e ∈ candidates /\ equal_ignoring_case e /\
     head (exact_matches candidates input_name) = Some e /\
     (forall c, c ∈ candidates -> equal_ignoring_case c ->
                (forall c', c' ∈ candidates -> equal_ignoring_case c' -> c' = c) ->
                e = c)).
Proof.
  cbv zeta.
  set (candidates := get_class_candidates st).
  assert (Hfound : (exists c, c ∈ candidates /\
                              pystr.lower c = pystr.lower input_name) ->
                   exists e rest, exact_matches candidates input_name = e :: rest).
  { intros (c & Hc & Heq).
    assert (Hin : c ∈ exact_matches candidates input_name)
      by (by apply exact_matches_elem).
    destruct (exact_matches candidates input_name) as [|e rest]; [|by eauto].
    by apply elem_of_nil in Hin. }
  assert (Hhead : forall e rest,
             exact_matches candidates input_name = e :: rest ->
             e ∈ candidates /\ pystr.lower e = pystr.lower input_name).
  { intros e rest He. apply exact_matches_elem. rewrite He. left. }
  split; [split|].
  - intros (r & Hr & Ht).
    destruct (exact_returned _ _ _ _ Hr Ht) as (e & rest & He & _).
    exists e. by eapply Hhead.
  - intros (e & rest & He)%Hfound.
    eexists. split; [by eapply exact_found|done].
  - intros (e & rest & He)%Hfound.
    destruct (Hhead e rest He) as [Hin Heq].
    exists e. split; [by eapply exact_found|].
    repeat split; try done.
    + by rewrite He.
    + intros c _ _ Huniq. by apply Huniq.
Qed.

Lemma exact_iff_equal_ignoring_case_witness :
  exists e,
    get_class_suggestions demo.loaded "paidincapital" 3
      = Ok {| r_type := "exact"; r_match := Some e; r_suggestions := [] |} /\
    e ∈ get_class_candidates demo.loaded /\
    pystr.lower e = pystr.lower "paidincapital" /\
    head (exact_matches (get_class_candidates demo.loaded) "paidincapital") = Some e /\
    (forall c, c ∈ get_class_candidates demo.loaded ->
               pystr.lower c = pystr.lower "paidincapital" ->
               (forall c', c' ∈ get_class_candidates demo.loaded ->
                           pystr.lower c' = pystr.lower "paidincapital" -> c' = c) ->
               e = c).
Proof.
  apply (exact_iff_equal_ignoring_case demo.loaded "paidincapital" 3).
  exists "PaidInCapital". split.
  - apply elem_of_candidates. exists demo.equity, (demo.mk_class "PaidInCapital").
    split; [left|]. split; [|reflexivity]. simpl. left.
  - vm_compute. reflexivity.
Defined.

(** When two candidates differ in case only, the one that sorts first is the
    exact match of both spellings. *)
Example first_of_case_twins_is_returned :
  get_class_candidates demo.twins = ["EQUITY"; "Equity"] /\
  get_class_suggestions demo.twins "Equity" 3 = Ok (exact_result "EQUITY") /\
  get_class_suggestions demo.twins "equity" 3 = Ok (exact_result "EQUITY").
Proof. repeat split; vm_compute; reflexivity. Qed.

(** ** The resolver: the shapes of a result *)

(** C10.  A result has one of three shapes, told apart by its type: "exact"
    with a match, which is a candidate, and no suggestion; "suggestions"
    with no match and at least one suggestion; "none" with neither.  A match
    and a suggestion never come together. *)
Theorem result_has_one_of_three_shapes st input_name max_suggestions r :
  get_class_suggestions st input_name max_suggestions = Ok r ->
  ((r_type r = "exact" /\
    (exists e, r_match r = Some e /\ e ∈ get_class_candidates st) /\
    r_suggestions r = []) \/
   (r_type r = "suggestions" /\ r_match r = None /\ r_suggestions r <> []) \/
   (r_type r = "none" /\ r_match r = None /\ r_suggestions r = [])) /\
  ~ (is_Some (r_match r) /\ r_suggestions r <> []).
Proof.
  intros Hr.
  pose proof (get_class_suggestions_shape _ _ _ _ Hr) as Hshape.
  destruct Hshape as [(e & -> & He)|[(l & Hl & ->)| ->]]; simpl.
  - split; [left; eauto|]. by intros [_ ?].
  - split; [right; left; eauto|]. by intros [[? [=]] _].
  - split; [right; right; eauto|]. by intros [_ ?].
Qed.

Lemma result_has_one_of_three_shapes_witness :
  let r := {| r_type := "suggestions"; r_match := None;
              r_suggestions := ["PaidInCapital"] |} in
  ((r_type r = "exact" /\
    (exists e, r_match r = Some e /\ e ∈ get_class_candidates demo.loaded) /\
    r_suggestions r = []) \/
   (r_type r = "suggestions" /\ r_match r = None /\ r_suggestions r <> []) \/
   (r_type r = "none" /\ r_match r = None /\ r_suggestions r = [])) /\
  ~ (is_Some (r_match r) /\ r_suggestions r <> []).
Proof.
  apply (result_has_one_of_three_shapes demo.loaded "PaidInCapit" 3).
  vm_compute. reflexivity.
Defined.

(** ** The resolver: the joined tiers *)

Lemma char_matches_perm candidates input_name :
  char_matches candidates input_name ≡ₚ
  filter (fun c => is_char_match (pystr.lower input_name) c = true) candidates.
Proof.
  unfold char_matches. rewrite sorted_reverse_perm.
  rewrite <- list_fmap_compose. simpl. by rewrite list_fmap_id.
Qed.

Lemma extend_new_NoDup all tier :
  NoDup all -> NoDup tier -> NoDup (extend_new all tier).
Proof.
  intros Hall Htier. unfold extend_new. apply NoDup_app.
  split; [done|]. split; [|by apply list.NoDup_filter].
  intros x Hx (Hnot & _)%list_elem_of_filter. done.
Qed.

Lemma all_suggestions_NoDup candidates input_name close :
  NoDup candidates -> NoDup close ->
  NoDup (all_suggestions candidates input_name close).
Proof.
  intros Hc Hcl. unfold all_suggestions, combine_tiers.
  repeat apply extend_new_NoDup; try done.
  - by apply list.NoDup_filter.
  - rewrite char_matches_perm. by apply list.NoDup_filter.
  - by apply list.NoDup_filter.
Qed.

(** C2.  For a limit that is not negative, a result holds at most
    [max_suggestions] suggestions, and no name twice. *)
Theorem suggestions_bounded_and_distinct st input_name max_suggestions r :
  0 <= max_suggestions ->
  get_class_suggestions st input_name max_suggestions = Ok r ->
  Z.of_nat (length (r_suggestions r)) <= max_suggestions /\
  NoDup (r_suggestions r).
Proof.
  intros Hmax Hr.
  destruct (get_class_suggestions_run st input_name max_suggestions)
    as [Hc|e rest He|err Hc He|close Hc He Hpos Hcl].
  - injection Hr as <-. simpl. split; [lia|constructor].
  - injection Hr as <-. simpl. split; [lia|constructor].
  - done.
  - injection Hr as <-.
    set (l := all_suggestions (get_class_candidates st) input_name close).
    assert (Hlen : Z.of_nat (length (take (Z.to_nat max_suggestions) l))
                   <= max_suggestions) by (rewrite length_take; lia).
    assert (Hnd : NoDup (take (Z.to_nat max_suggestions) l)).
    { eapply sublist_NoDup; [|apply sublist_take].
      apply all_suggestions_NoDup; [apply candidates_NoDup|].
      eapply close_matches_facts.get_close_matches_NoDup;
        [apply candidates_NoDup|exact Hcl]. }
    unfold listed_result. destruct (take _ l); simpl in *; [|done].
    split; [lia|constructor].
Qed.

Lemma suggestions_bounded_and_distinct_witness :
  Z.of_nat (length ["CapitalSurplus"; "PaidInCapital"]) <= 3 /\
  NoDup ["CapitalSurplus"; "PaidInCapital"].
Proof.
  apply (suggestions_bounded_and_distinct demo.loaded "Capital" 3
           {| r_type := "suggestions"; r_match := None;
              r_suggestions := ["CapitalSurplus"; "PaidInCapital"] |}).
  - lia.
  - vm_compute. reflexivity.
Defined.

(** ** The resolver: the order of the suggestions *)

Lemma StronglySorted_lookup {A : Type} (R : A -> A -> Prop) (l : list A) i j x y :
  StronglySorted R l -> (i < j)%nat ->
  l !! i = Some x -> l !! j = Some y -> R x y.
Proof.
  intros Hs. revert i j.
  induction Hs as [|a l Hs IH Hall]; intros i j Hij Hi Hj; [done|].
  destruct j as [|j]; [lia|]. simpl in Hj.
  destruct i as [|i]; simpl in Hi.
  - injection Hi as <-. rewrite Forall_forall in Hall.
    apply Hall. by eapply list_elem_of_lookup_2.
  - apply (IH i j); [lia|done|done].
Qed.

Section Tiers.
Variables substring close char affix : list string.

#[local] Abbreviation tier := (tier_of substring close char).
#[local] Abbreviation by_tier := (fun x y : string => (tier x <= tier y)%nat).

Lemma sorted_same_tier k l :
  Forall (fun x => tier x = k) l -> StronglySorted by_tier l.
Proof.
  induction 1 as [|x l Hx Hl IH]; constructor; [done|].
  eapply Forall_impl; [exact Hl|]. intros y Hy.
  simpl in *. rewrite Hx, Hy. done.
Qed.

Lemma combine_tiers_sorted :
  StronglySorted by_tier (combine_tiers substring close char affix).
Proof.
  unfold combine_tiers, extend_new.
  set (f1 := filter (fun m => m ∉ substring) close).
  set (f2 := filter (fun m => m ∉ (substring ++ f1)%list) char).
  set (f3 := filter (fun m => m ∉ ((substring ++ f1) ++ f2)%list) affix).
  assert (H2 : Forall (fun x => tier x = 2%nat) substring).
  { apply Forall_forall. intros x Hx. unfold tier_of.
    by rewrite bool_decide_eq_true_2. }
  assert (H3 : Forall (fun x => tier x = 3%nat) f1).
  { apply Forall_forall. intros x (Hn & Hx)%list_elem_of_filter.
    unfold tier_of.
    rewrite bool_decide_eq_false_2 by done.
    by rewrite bool_decide_eq_true_2. }
  assert (Hnot : forall x, x ∉ (substring ++ f1)%list ->
                           (x ∉ substring) /\ (x ∉ close)).
  { intros x Hx. rewrite not_elem_of_app in Hx. destruct Hx as [Hs Hf].
    split; [done|]. intros Hc. apply Hf. by apply list_elem_of_filter. }
  assert (H4 : Forall (fun x => tier x = 4%nat) f2).
  { apply Forall_forall. intros x (Hn & Hx)%list_elem_of_filter.
    apply Hnot in Hn as [Hs Hc]. unfold tier_of.
    rewrite !bool_decide_eq_false_2 by done.
    by rewrite bool_decide_eq_true_2. }
  assert (H5 : Forall (fun x => tier x = 5%nat) f3).
  { apply Forall_forall. intros x (Hn & Hx)%list_elem_of_filter.
    rewrite not_elem_of_app in Hn. destruct Hn as [Hn Hf].
    apply Hnot in Hn as [Hs Hc]. unfold tier_of.
    rewrite !bool_decide_eq_false_2; [done|..|done|done].
    intros Hch. apply Hf. apply list_elem_of_filter. split; [|done].
    rewrite not_elem_of_app. split; [done|].
    intros (_ & ?)%list_elem_of_filter. done. }
  rewrite Forall_forall in H2, H3, H4, H5.
  repeat apply StronglySorted_app_2;
    try (eapply sorted_same_tier; apply Forall_forall; eassumption).
  - intros x y Hx Hy. simpl in *. rewrite (H5 y Hy).
    rewrite !elem_of_app in Hx. destruct Hx as [[Hx|Hx]|Hx].
    + rewrite (H2 x Hx). lia.
    + rewrite (H3 x Hx). lia.
    + rewrite (H4 x Hx). lia.
  - intros x y Hx Hy. simpl in *. rewrite (H4 y Hy).
    rewrite !elem_of_app in Hx. destruct Hx as [Hx|Hx].
    + rewrite (H2 x Hx). lia.
    + rewrite (H3 x Hx). lia.
  - intros x y Hx Hy. simpl in *.
    rewrite (H2 x Hx), (H3 y Hy). lia.
Qed.

Lemma combine_tiers_elem x :
  x ∈ combine_tiers substring close char affix ->
  x ∈ substring \/ x ∈ close \/ x ∈ char \/ x ∈ affix.
Proof.
  unfold combine_tiers, extend_new. rewrite !elem_of_app.
  rewrite !list_elem_of_filter. tauto.
Qed.

End Tiers.

(** C3.  In a "suggestions" result a name never stands before a name of an
    earlier tier, where the tier of a name is the first of substring, edit
    distance, character overlap and prefix or suffix that finds it; every
    suggestion is found by one of the four.  For the three classes
    PaidInCapital, CapitalSurplus and OwnersEquity and the input
    "PaidInCapit", with any limit above zero, the result is of type
    "suggestions" and its first name is "PaidInCapital", which the substring
    tier finds. *)
Theorem suggestions_follow_tier_order st input_name max_suggestions r :
  (get_class_suggestions st input_name max_suggestions = Ok r ->
   r_type r = "suggestions" ->
   let candidates := get_class_candidates st in
   exists close,
     close_matches candidates input_name max_suggestions = Ok close /\
     let tier := tier_of (substring_matches candidates input_name) close
                         (char_matches candidates input_name) in
     (forall x, x ∈ r_suggestions r ->
                x ∈ substring_matches candidates input_name \/ x ∈ close \/
                x ∈ char_matches candidates input_name \/
                x ∈ affix_matches candidates input_name) /\
     (forall i j x y,
        (i < j)%nat ->
        r_suggestions r !! i = Some x -> r_suggestions r !! j = Some y ->
        (tier x <= tier y)%nat)) /\
  (0 < max_suggestions ->
   exists r0,
     get_class_suggestions demo.loaded "PaidInCapit" max_suggestions = Ok r0 /\
     r_type r0 = "suggestions" /\ r_match r0 = None /\
     head (r_suggestions r0) = Some "PaidInCapital" /\
     "PaidInCapital" ∈ substring_matches (get_class_candidates demo.loaded)
                                         "PaidInCapit").
Proof.
  split.
  - intros Hr Ht. cbv zeta.
    destruct (get_class_suggestions_run st input_name max_suggestions)
      as [Hc|e rest He|err Hc He|close Hc He Hpos Hcl].
    + injection Hr as <-. done.
    + injection Hr as <-. done.
    + done.
    + injection Hr as <-. exists close. split; [done|].
      set (l := all_suggestions (get_class_candidates st) input_name close) in *.
      assert (Hsub : r_suggestions (listed_result (take (Z.to_nat max_suggestions) l))
                     = take (Z.to_nat max_suggestions) l).
      { unfold listed_result. by destruct (take _ l). }
      rewrite Hsub. split.
      * intros x Hx. apply (fun H => elem_of_sublist _ _ _ H (sublist_take _ _)) in Hx.
        by apply combine_tiers_elem in Hx.
      * intros i j x y Hij [Hx _]%lookup_take_Some [Hy _]%lookup_take_Some.
        apply (StronglySorted_lookup
                 (fun x y =>
                    (tier_of (substring_matches (get_class_candidates st) input_name)
                             close (char_matches (get_class_candidates st) input_name) x
                     <= tier_of (substring_matches (get_class_candidates st) input_name)
                                close (char_matches (get_class_candidates st) input_name) y)%nat)
                 l i j); [|done..].
        apply combine_tiers_sorted.
  - intros Hpos.
    destruct (get_class_suggestions_run demo.loaded "PaidInCapit" max_suggestions)
      as [Hc|e rest He|err Hc He Hneg|close Hc He _ Hcl].
    + by vm_compute in Hc.
    + by vm_compute in He.
    + lia.
    + eexists. split; [reflexivity|].
      assert (Hall : exists rest,
                 all_suggestions (get_class_candidates demo.loaded) "PaidInCapit" close
                 = "PaidInCapital" :: rest).
      { unfold all_suggestions, combine_tiers, extend_new.
        replace (substring_matches (get_class_candidates demo.loaded) "PaidInCapit")
          with ["PaidInCapital"] by (vm_compute; reflexivity).
        simpl. eauto. }
      destruct Hall as [rest ->].
      destruct (Z.to_nat max_suggestions) as [|n] eqn:Hn; [lia|]. simpl.
      repeat split; try done.
      replace (substring_matches (get_class_candidates demo.loaded) "PaidInCapit")
        with ["PaidInCapital"] by (vm_compute; reflexivity).
      left.
Qed.

Lemma suggestions_follow_tier_order_witness :
  (exists close,
     close_matches (get_class_candidates demo.loaded) "Capital" 3 = Ok close /\
     (tier_of (substring_matches (get_class_candidates demo.loaded) "Capital")
              close (char_matches (get_class_candidates demo.loaded) "Capital")
              "CapitalSurplus"
      <= tier_of (substring_matches (get_class_candidates demo.loaded) "Capital")
                 close (char_matches (get_class_candidates demo.loaded) "Capital")
                 "PaidInCapital")%nat) /\
  (exists r0,
     get_class_suggestions demo.loaded "PaidInCapit" 3 = Ok r0 /\
     r_type r0 = "suggestions" /\ r_match r0 = None /\
     head (r_suggestions r0) = Some "PaidInCapital" /\
     "PaidInCapital" ∈ substring_matches (get_class_candidates demo.loaded)
                                         "PaidInCapit").
Proof.
  destruct (suggestions_follow_tier_order demo.loaded "Capital" 3
              {| r_type := "suggestions"; r_match := None;
                 r_suggestions := ["CapitalSurplus"; "PaidInCapital"] |})
    as [Horder Hscenario].
  split.
  - destruct Horder as (close & Hclose & _ & Hord);
      [vm_compute; reflexivity | reflexivity |].
    exists close. split; [exact Hclose|].
    apply (Hord 0%nat 1%nat); [lia | reflexivity | reflexivity].
  - apply Hscenario. lia.
Defined.

(** ** The resolver: inputs that nothing matches *)

Lemma combine_tiers_nil : combine_tiers [] [] [] [] = [].
Proof. reflexivity. Qed.

(** C5.  With a limit above zero the resolver raises nothing, whatever the
    input and the knowledge base.  For an input that no tier matches it
    returns the result of type "none" with no match and no suggestion, and
    that result is returned for no other input. *)
Theorem unmatched_input_yields_none st input_name max_suggestions :
  0 < max_suggestions ->
  (exists r, get_class_suggestions st input_name max_suggestions = Ok r) /\
  (matches_no_tier (get_class_candidates st) input_name max_suggestions <->
   get_class_suggestions st input_name max_suggestions
     = Ok {| r_type := "none"; r_match := None; r_suggestions := [] |}).
Proof.
  intros Hmax.
  destruct (get_class_suggestions_run st input_name max_suggestions)
    as [Hc|e rest He|err Hc He Hneg|close Hc He _ Hcl].
  - split; [by eexists|]. split; [done|]. intros _.
    unfold matches_no_tier. rewrite Hc. repeat split.
    unfold close_matches, difflib.get_close_matches.
    destruct (0 <? max_suggestions * 2) eqn:Hn.
    + simpl. unfold difflib.nlargest. simpl. by rewrite take_nil.
    + apply Z.ltb_ge in Hn. lia.
  - split; [by eexists|]. split; [|done].
    intros (He' & _). congruence.
  - lia.
  - split; [by eexists|].
    set (l := all_suggestions (get_class_candidates st) input_name close).
    split.
    + intros (_ & Hs & Hcl' & Hch & Ha).
      assert (close = []) as -> by congruence.
      unfold l, all_suggestions. rewrite Hs, Hch, Ha, combine_tiers_nil.
      by rewrite take_nil.
    + intros Hnone.
      assert (Hl : l = []).
      { destruct (take (Z.to_nat max_suggestions) l) eqn:Ht; [|done].
        apply take_nil_inv in Ht as [?|?]; [lia|done]. }
      unfold l, all_suggestions, combine_tiers, extend_new in Hl.
      apply app_eq_nil in Hl as [Hl Haf].
      apply app_eq_nil in Hl as [Hl Hchar].
      apply app_eq_nil in Hl as [Hsub Hclose].
      rewrite Hsub in *. simpl in *.
      assert (close = []) as ->.
      { destruct close as [|x close]; [done|].
        rewrite filter_cons_True in Hclose; [done|]. apply not_elem_of_nil. }
      simpl in *.
      assert (char_matches (get_class_candidates st) input_name = []) as Hch.
      { destruct (char_matches _ _) as [|x ch]; [done|].
        rewrite filter_cons_True in Hchar; [done|]. apply not_elem_of_nil. }
      rewrite Hch in *. simpl in *.
      assert (affix_matches (get_class_candidates st) input_name = []) as Haff.
      { destruct (affix_matches _ _) as [|x af]; [done|].
        rewrite filter_cons_True in Haf; [done|]. apply not_elem_of_nil. }
      done.
Qed.

Lemma unmatched_input_yields_none_witness :
  (exists r, get_class_suggestions demo.loaded "xyz123nonexistent" 3 = Ok r) /\
  (matches_no_tier (get_class_candidates demo.loaded) "xyz123nonexistent" 3 <->
   get_class_suggestions demo.loaded "xyz123nonexistent" 3
     = Ok {| r_type := "none"; r_match := None; r_suggestions := [] |}).
Proof.
  apply (unmatched_input_yields_none demo.loaded "xyz123nonexistent" 3). lia.
Defined.

(** ** The best guess *)

#[local] Opaque difflib.get_close_matches.

Lemma resolve_class_name_fuzzy_total st input_name :
  exists resolved, resolve_class_name_fuzzy st input_name = Ok resolved.
Proof.
  destruct (get_class_suggestions_total st input_name default_max_suggestions)
    as [r Hr]; [done|].
  unfold resolve_class_name_fuzzy. rewrite Hr. simpl.
  repeat case_bool_decide; try (by eexists).
  destruct (r_suggestions r) as [|x l]; [by eexists|].
  destruct (close_matches_facts.get_close_matches_total input_name (x :: l) 1 (8 # 10))
    as [best Hbest]; [done..|].
  rewrite Hbest. simpl. destruct best; by eexists.
Qed.

(** C4, as the claim states it, fails: for an input that equals a candidate
    ignoring case, the best guess is that candidate, and the suggestion list
    the resolver produces for the same input is empty. *)
Lemma best_guess_outside_suggestions :
  exists name r,
    resolve_class_name_fuzzy demo.loaded "paidincapital" = Ok (Some name) /\
    get_class_suggestions demo.loaded "paidincapital" default_max_suggestions = Ok r /\
    name ∉ r_suggestions r.
Proof.
  exists "PaidInCapital", (exact_result "PaidInCapital").
  split; [vm_compute; reflexivity|].
  split; [vm_compute; reflexivity|]. apply not_elem_of_nil.
Qed.

(** C4, amended.  The best guess never raises.  When the resolver answers
    "exact", the best guess is the exact match.  Otherwise it is either no
    name or one name of the suggestion list: a name whose similarity to the
    input is at least 0.8 and that no suggestion passing difflib's test at
    0.8 outscores; it is no name when no suggestion reaches 0.8, and only
    when no suggestion passes that test. *)
Theorem best_guess_is_exact_or_strict_suggestion st input_name :
  exists r,
    get_class_suggestions st input_name default_max_suggestions = Ok r /\
    (r_type r = "exact" ->
     resolve_class_name_fuzzy st input_name = Ok (r_match r)) /\
    (r_type r <> "exact" ->
     let passes s :=
       difflib.good_enough (list_ascii_of_string input_name)
         (difflib.chain_b (list_ascii_of_string input_name)) (8 # 10) s = true in
     (exists best, resolve_class_name_fuzzy st input_name = Ok best) /\
     (forall m,
        resolve_class_name_fuzzy st input_name = Ok (Some m) ->
        m ∈ r_suggestions r /\
        Qle_bool (8 # 10) (difflib.score input_name m) = true /\
        (forall s, s ∈ r_suggestions r -> passes s ->
                   (difflib.score input_name s <= difflib.score input_name m)%Q)) /\
     ((forall s, s ∈ r_suggestions r ->
                 Qle_bool (8 # 10) (difflib.score input_name s) = false) ->
      resolve_class_name_fuzzy st input_name = Ok None) /\
     (resolve_class_name_fuzzy st input_name = Ok None ->
      forall s, s ∈ r_suggestions r -> ~ passes s)).
Proof.
  destruct (get_class_suggestions_total st input_name default_max_suggestions)
    as [r Hr]; [done|].
  exists r. split; [done|].
  unfold resolve_class_name_fuzzy. rewrite Hr. simpl.
  destruct (get_class_suggestions_shape _ _ _ _ Hr)
    as [(e & -> & He)|[(l & Hl & ->)| ->]]; simpl.
  - split; [done|]. intros Hne. done.
  - split; [done|]. intros _.
    destruct l as [|x0 l0]; [done|]. set (l := x0 :: l0) in *.
    destruct (close_matches_facts.get_close_matches_total input_name l 1 (8 # 10))
      as [best Hbest]; [done..|].
    rewrite Hbest. simpl.
    destruct best as [|m rest].
    + split; [by eexists|]. split; [done|]. split; [done|].
      intros _ s Hs Hpass.
      pose proof (close_matches_facts.get_close_matches_nil _ _ _ _ s Hbest Hs).
      congruence.
    + split; [by eexists|].
      assert (Hm : m ∈ l /\ Qle_bool (8 # 10) (difflib.score input_name m) = true).
      { eapply close_matches_facts.get_close_matches_elem; [exact Hbest|left]. }
      split; [|split].
      * intros m' [= <-]. destruct Hm as [Hin Hscore].
        repeat split; [done..|].
        intros s Hs Hpass.
        by eapply close_matches_facts.get_close_matches_best.
      * intros Hnone. destruct Hm as [Hin Hscore].
        rewrite (Hnone m Hin) in Hscore. done.
      * done.
  - split; [done|]. intros _.
    split; [by eexists|]. split; [done|]. split; [done|].
    intros _ s Hs. by apply elem_of_nil in Hs.
Qed.

#[local] Transparent difflib.get_close_matches.

Lemma best_guess_is_exact_or_strict_suggestion_witness :
  (resolve_class_name_fuzzy demo.loaded "PaidInCapit" = Ok (Some "PaidInCapital") /\
   "PaidInCapital" ∈ ["PaidInCapital"] /\
   Qle_bool (8 # 10) (difflib.score "PaidInCapit" "PaidInCapital") = true) /\
  resolve_class_name_fuzzy demo.loaded "paidincapital" = Ok (Some "PaidInCapital").
Proof.
  split.
  - destruct (best_guess_is_exact_or_strict_suggestion demo.loaded "PaidInCapit")
      as (r & Hr & _ & Hrest).
    assert (Hr' : r = {| r_type := "suggestions"; r_match := None;
                         r_suggestions := ["PaidInCapital"] |}).
    { vm_compute in Hr. by injection Hr as <-. }
    subst r.
    destruct Hrest as (_ & Hsome & _); [done|].
    assert (Hres : resolve_class_name_fuzzy demo.loaded "PaidInCapit"
                   = Ok (Some "PaidInCapital")) by (vm_compute; reflexivity).
    destruct (Hsome _ Hres) as (Hin & Hscore & _).
    repeat split; done.
  - destruct (best_guess_is_exact_or_strict_suggestion demo.loaded "paidincapital")
      as (r & Hr & Hexact & _).
    assert (Hr' : r = exact_result "PaidInCapital").
    { vm_compute in Hr. by injection Hr as <-. }
    subst r. exact (Hexact eq_refl).
Defined.

(** ** The tools without a loaded ontology *)

Section UnloadedTools.
Variable entity : Type.
Variable search_one : Ontology -> string -> option entity.
Variable render : string -> Ontology -> list entity -> list string -> string.
Variable render_stats : kb_state -> string.
Variable st : kb_state.

(** The tools that test [onto is None] answer with the precondition
    message and look nothing up. *)
Lemma guarded_tools_report_no_ontology :
  onto st = None ->
  (forall c, get_superclasses entity search_one render st c = Ok NO_ONTOLOGY) /\
  (forall c, get_subclasses entity search_one render st c = Ok NO_ONTOLOGY) /\
  (forall c, get_properties entity search_one render st c = Ok NO_ONTOLOGY) /\
  (forall c, describe_class entity search_one render st c = Ok NO_ONTOLOGY) /\
  (forall c, explain_class entity search_one render st c = Ok NO_ONTOLOGY) /\
  (forall c d, get_related_concepts entity search_one render st c d = Ok NO_ONTOLOGY) /\
  (forall c, get_class_info entity search_one render st c = Ok NO_ONTOLOGY) /\
  (forall c, get_all_superclasses entity search_one render st c = Ok NO_ONTOLOGY) /\
  (forall c, get_inferred_properties entity search_one render st c = Ok NO_ONTOLOGY) /\
  (forall c1 c2, explain_relationship entity search_one render st c1 c2 = Ok NO_ONTOLOGY) /\
  (forall c1 c2, get_reasoning_chain entity search_one render st c1 c2 = Ok NO_ONTOLOGY) /\
  (forall p, get_property_details entity search_one render st p = Ok NO_ONTOLOGY).
Proof.
  intros Hnone.
  unfold get_superclasses, get_subclasses, get_properties, describe_class,
    explain_class, get_related_concepts, get_class_info, get_all_superclasses,
    get_inferred_properties, explain_relationship, get_reasoning_chain,
    get_property_details, class_tool, pair_tool.
  rewrite Hnone. repeat split.
Qed.

Lemma stats_report_no_ontology :
  default_world st = [] -> get_ontology_stats render_stats st = Ok NO_ONTOLOGY.
Proof. intros H. unfold get_ontology_stats. by rewrite H. Qed.

(** The keyword search has no such test: with no ontology to walk it
    finds nothing and says so. *)
Lemma keyword_search_without_ontology keyword :
  default_world st = [] ->
  search_classes_by_keyword st keyword
    = Ok ("❌ No classes found containing '" +:+ keyword +:+ "'").
Proof. intros H. unfold search_classes_by_keyword. by rewrite H. Qed.

End UnloadedTools.

(** C9.  With nothing loaded, the keyword search does not return the
    message that no ontology is loaded: for every keyword it returns
    "No classes found containing ...".  The statistics and the tools of the
    hierarchy, of the properties and of the relationships, called in the
    same state, do return that message. *)
Theorem keyword_search_lacks_the_guard keyword :
  search_classes_by_keyword demo.unloaded keyword
    = Ok ("❌ No classes found containing '" +:+ keyword +:+ "'") /\
  search_classes_by_keyword demo.unloaded keyword <> Ok NO_ONTOLOGY /\
  get_ontology_stats demo.render_stats demo.unloaded = Ok NO_ONTOLOGY /\
  get_superclasses demo.entity demo.search_one demo.render demo.unloaded keyword
    = Ok NO_ONTOLOGY /\
  get_properties demo.entity demo.search_one demo.render demo.unloaded keyword
    = Ok NO_ONTOLOGY /\
  explain_relationship demo.entity demo.search_one demo.render demo.unloaded
                       keyword keyword
    = Ok NO_ONTOLOGY.
Proof.
  split; [reflexivity|]. split; [|repeat split].
  unfold search_classes_by_keyword, NO_ONTOLOGY. simpl. intros [=].
Qed.

(** ** Facts on strings *)

Lemma prefix_refl s : String.prefix s s = true.
Proof.
  induction s as [|c s IH]; simpl; [done|].
  destruct (ascii_dec c c); [done|congruence].
Qed.



(** ** The query pipeline *)

Section PlannerFacts.
Variable entity : Type.
Variable search_one : Ontology -> string -> option entity.
Variable render : string -> Ontology -> list entity -> list string -> string.
Variable render_stats : kb_state -> string.
Variable call_local_llm : string -> bool -> string.
Variable json_loads : string -> option plan.
Variable plan_str : plan -> string.
Variable gemma_synthesize_results : string -> list tool_result -> string.
Variable st : kb_state.

#[local] Abbreviation run :=
  (run_natural_language_query entity search_one render render_stats
     call_local_llm json_loads plan_str gemma_synthesize_results st).


End PlannerFacts.


(** C7.  A step that names a one-class tool and gives it no argument makes
    the tool call raise [TypeError]; nothing catches it.  The query raises
    after the first step has run: the third step is not executed and the
    result of the first is not reported. *)
Theorem step_without_argument_aborts_the_plan :
  demo.query demo.loaded demo.broken_reply
             [(demo.broken_reply, demo.broken_plan)]
             "Give me a complete overview"
    = ([LlmCall "Give me a complete overview" true; ToolCall "list_classes" []],
       Raise (TypeError "get_superclasses(): wrong number of arguments")).
Proof. vm_compute. reflexivity. Qed.

(** The input "ShareholderEquity" against a knowledge base that holds
    ShareholdersEquity: the suggestions are not empty and the best guess is
    ShareholdersEquity. *)
Example shareholder_equity_best_guess :
  get_class_suggestions demo.shareholders "ShareholderEquity" default_max_suggestions
    = Ok {| r_type := "suggestions"; r_match := None;
            r_suggestions := ["ShareholdersEquity"] |} /\
  resolve_class_name_fuzzy demo.shareholders "ShareholderEquity"
    = Ok (Some "ShareholdersEquity").
Proof. split; vm_compute; reflexivity. Qed.

(** ** The executor *)

Lemma format_suggestions_message_total st input_name :
  exists msg, format_suggestions_message st input_name = Ok msg.
Proof.
  destruct (get_class_suggestions_total st input_name default_max_suggestions)
    as [r Hr]; [done|].
  unfold format_suggestions_message. rewrite Hr. simpl.
  repeat case_bool_decide; try (by eexists).
  destruct (r_suggestions r) as [|? [|? ?]]; by eexists.
Qed.

Lemma single_and_two_class_functions_disjoint f :
  f ∈ single_class_functions -> f ∉ two_class_functions.
Proof.
  assert (H : Forall (fun f => f ∉ two_class_functions) single_class_functions)
    by (refine (bool_decide_unpack _ _); vm_compute; exact I).
  rewrite Forall_forall in H. apply H.
Qed.

Lemma with_arguments_same call args :
  fc_arguments call = Some args -> with_arguments call args = call.
Proof. destruct call. simpl. by intros ->. Qed.

Section ExecutorFacts.
Variable entity : Type.
Variable search_one : Ontology -> string -> option entity.
Variable render : string -> Ontology -> list entity -> list string -> string.
Variable render_stats : kb_state -> string.
Variable st : kb_state.

#[local] Abbreviation execute :=
  (execute_single_function entity search_one render render_stats st).
#[local] Abbreviation dispatch_tool := (dispatch entity search_one render st).

(** A dispatch calls at most one tool: the one that the step names, on the
    arguments it is given, cut to the number the tool takes. *)
Lemma dispatch_calls_named_tool func args e :
  e ∈ fst (dispatch_tool func args) ->
  exists f args', e = ToolCall f args' /\ func = Some f /\ args' `prefix_of` args.
Proof.
  unfold dispatch, call1.
  repeat case_bool_decide; subst;
    (destruct args as [|a1 [|a2 [|a3 args]]]; simpl;
     repeat match goal with
            | |- context [match ?r with Ok _ => _ | Raise _ => _ end] =>
                destruct r; simpl
            end;
     intros He; try (by apply elem_of_nil in He);
     apply list_elem_of_singleton in He as ->;
     do 2 eexists; (split; [reflexivity|]); (split; [reflexivity|]);
     try reflexivity; try (by eexists [_]); try (by eexists (_ :: _))).
Qed.

#[local] Opaque resolve_class_name_fuzzy format_suggestions_message dispatch.

Lemma plain_names_skipped func :
  func ∈ single_class_functions \/ func ∈ two_class_functions ->
  bool_decide (Some func = Some "list_classes") = false /\
  bool_decide (Some func = Some "get_ontology_stats") = false /\
  bool_decide (Some func = Some "search_classes_by_keyword") = false.
Proof.
  intros Hin.
  assert (H : Forall (fun f => f <> "list_classes" /\ f <> "get_ontology_stats" /\
                               f <> "search_classes_by_keyword")
                     (single_class_functions ++ two_class_functions)%list)
    by (refine (bool_decide_unpack _ _); vm_compute; exact I).
  rewrite Forall_forall in H.
  destruct (H func) as (H1 & H2 & H3); [by apply elem_of_app|].
  repeat split; apply bool_decide_eq_false_2; congruence.
Qed.

(** C6, amended.  For a step that names one of the nine one-class tools
    and has at least one argument, the executor first asks the resolver
    for the first argument.  If that gives no name, or the empty name, the
    step ends there with the not-found message, followed by the
    suggestions message for the name; no tool is called and the step is
    left as it was.  Otherwise the resolved name replaces the first
    argument in the step and the tool is dispatched on the new arguments.
    For a step that names one of the two two-class tools and has at least
    two arguments the same is done for the first and then for the second
    argument: when the first does not resolve the second is not looked
    at. *)
Theorem class_names_resolved_before_dispatch (call : func_call) func :
  fc_function call = Some func ->
  (func ∈ single_class_functions ->
   forall name rest,
     fc_arguments call = Some (name :: rest) ->
     exists resolved msg,
       resolve_class_name_fuzzy st name = Ok resolved /\
       format_suggestions_message st name = Ok msg /\
       match truthy resolved with
       | None =>
           execute call
             = ([ResolveCall name],
                Ok (call, not_found_result (Some func) name msg))
       | Some r =>
           execute call
             = (do _ <- emit (ResolveCall name);
                do out <- dispatch_tool (Some func) (r :: rest);
                ret (with_arguments call (r :: rest), out))
       end) /\
  (func ∈ two_class_functions ->
   forall name1 name2 rest,
     fc_arguments call = Some (name1 :: name2 :: rest) ->
     exists resolved1 msg1,
       resolve_class_name_fuzzy st name1 = Ok resolved1 /\
       format_suggestions_message st name1 = Ok msg1 /\
       match truthy resolved1 with
       | None =>
           execute call
             = ([ResolveCall name1],
                Ok (call, not_found_result (Some func) name1 msg1))
       | Some r1 =>
           exists resolved2 msg2,
             resolve_class_name_fuzzy st name2 = Ok resolved2 /\
             format_suggestions_message st name2 = Ok msg2 /\
             match truthy resolved2 with
             | None =>
                 execute call
                   = ([ResolveCall name1; ResolveCall name2],
                      Ok (with_arguments call (r1 :: name2 :: rest),
                          not_found_result (Some func) name2 msg2))
             | Some r2 =>
                 execute call
                   = (do _ <- emit (ResolveCall name1);
                      do _ <- emit (ResolveCall name2);
                      do out <- dispatch_tool (Some func) (r1 :: r2 :: rest);
                      ret (with_arguments call (r1 :: r2 :: rest), out))
             end
       end).
Proof.
  intros Hfunc. split.
  - intros Hin name rest Hargs.
    destruct (resolve_class_name_fuzzy_total st name) as [resolved Hres].
    destruct (format_suggestions_message_total st name) as [msg Hmsg].
    exists resolved, msg. split; [done|]. split; [done|].
    destruct (plain_names_skipped func (or_introl Hin)) as (H1 & H2 & H3).
    pose proof (single_and_two_class_functions_disjoint func Hin) as Hnot.
    unfold execute_single_function, resolve, not_found.
    rewrite Hfunc, Hargs, H1, H2, H3. simpl.
    rewrite (bool_decide_eq_true_2 _ Hin), Hres. simpl.
    destruct (truthy resolved) as [r|] eqn:Ht; simpl.
    + rewrite (bool_decide_eq_false_2 _ Hnot). simpl.
      by destruct (dispatch _ _ _ _ _ _) as [t [out|e]].
    + rewrite Hmsg. simpl. by rewrite (with_arguments_same _ _ Hargs).
  - intros Hin name1 name2 rest Hargs.
    destruct (resolve_class_name_fuzzy_total st name1) as [resolved1 Hres1].
    destruct (format_suggestions_message_total st name1) as [msg1 Hmsg1].
    exists resolved1, msg1. split; [done|]. split; [done|].
    destruct (plain_names_skipped func (or_intror Hin)) as (H1 & H2 & H3).
    assert (Hnot : func ∉ single_class_functions).
    { intros Hs. by apply single_and_two_class_functions_disjoint in Hs. }
    unfold execute_single_function, resolve, not_found.
    rewrite Hfunc, Hargs, H1, H2, H3. simpl.
    rewrite (bool_decide_eq_false_2 _ Hnot), (bool_decide_eq_true_2 _ Hin).
    simpl. unfold resolve, not_found. rewrite Hres1. simpl.
    destruct (truthy resolved1) as [r1|] eqn:Ht1; simpl.
    + destruct (resolve_class_name_fuzzy_total st name2) as [resolved2 Hres2].
      destruct (format_suggestions_message_total st name2) as [msg2 Hmsg2].
      exists resolved2, msg2. split; [done|]. split; [done|].
      rewrite Hres2. simpl.
      destruct (truthy resolved2) as [r2|] eqn:Ht2; simpl.
      * by destruct (dispatch _ _ _ _ _ _) as [t [out|e]].
      * rewrite Hmsg2. done.
    + rewrite Hmsg1. simpl. by rewrite (with_arguments_same _ _ Hargs).
Qed.

End ExecutorFacts.

(** C6, as the claim states it, fails for the tool that takes the name of a
    property, which is an entity name too: the name is handed to the tool
    as it came.  Here the resolver does not resolve the name, the resolver
    is not asked, the tool is called, and the answer is the tool's own. *)
Lemma property_name_bypasses_resolver :
  resolve_class_name_fuzzy demo.loaded "isOwnedB" = Ok None /\
  demo.execute demo.loaded (demo.step "get_property_details" ["isOwnedB"])
    = ([ToolCall "get_property_details" ["isOwnedB"]],
       Ok (demo.step "get_property_details" ["isOwnedB"],
           {| tr_function := Some "get_property_details";
              tr_output := "❌ Property 'isOwnedB' not found. Did you mean: isOwnedBy?" |})).
Proof. split; vm_compute; reflexivity. Qed.

Lemma class_names_resolved_before_dispatch_witness :
  demo.execute demo.loaded (demo.step "get_superclasses" ["PaidInCapit"])
    = ([ResolveCall "PaidInCapit"; ToolCall "get_superclasses" ["PaidInCapital"]],
       Ok (demo.step "get_superclasses" ["PaidInCapital"],
           {| tr_function := Some "get_superclasses";
              tr_output := "get_superclasses(PaidInCapital)" |})) /\
  demo.execute demo.loaded
               (demo.step "explain_relationship" ["xyz123nonexistent"; "OwnersEquity"])
    = ([ResolveCall "xyz123nonexistent"],
       Ok (demo.step "explain_relationship" ["xyz123nonexistent"; "OwnersEquity"],
           not_found_result (Some "explain_relationship") "xyz123nonexistent"
             (Some "❌ No similar classes found for 'xyz123nonexistent'. Try 'list classes' to see available options."))).
Proof.
  split.
  - destruct (class_names_resolved_before_dispatch demo.entity demo.search_one
                demo.render demo.render_stats demo.loaded
                (demo.step "get_superclasses" ["PaidInCapit"]) "get_superclasses"
                eq_refl) as [Hone _].
    destruct (Hone ltac:(refine (bool_decide_unpack _ _); vm_compute; exact I)
                   "PaidInCapit" [] eq_refl)
      as (resolved & msg & Hres & _ & Hrun).
    vm_compute in Hres. injection Hres as <-.
    unfold demo.execute. etransitivity; [exact Hrun|].
    vm_compute. reflexivity.
  - destruct (class_names_resolved_before_dispatch demo.entity demo.search_one
                demo.render demo.render_stats demo.loaded
                (demo.step "explain_relationship" ["xyz123nonexistent"; "OwnersEquity"])
                "explain_relationship" eq_refl) as [_ Htwo].
    destruct (Htwo ltac:(refine (bool_decide_unpack _ _); vm_compute; exact I)
                   "xyz123nonexistent" "OwnersEquity" [] eq_refl)
      as (resolved & msg & Hres & Hmsg & Hrun).
    vm_compute in Hres. injection Hres as <-.
    vm_compute in Hmsg. injection Hmsg as <-.
    exact Hrun.
Defined.

(** ** Plans of several steps *)

Section PlanFacts.
Variable entity : Type.
Variable search_one : Ontology -> string -> option entity.
Variable render : string -> Ontology -> list entity -> list string -> string.
Variable render_stats : kb_state -> string.
Variable gemma_synthesize_results : string -> list tool_result -> string.
Variable st : kb_state.

#[local] Abbreviation result_of := (step_result entity search_one render render_stats st).
#[local] Abbreviation returns := (step_returns entity search_one render render_stats st).
#[local] Abbreviation steps_run :=
  (run_steps entity search_one render render_stats gemma_synthesize_results st).

(** As long as no step raises, the loop runs every step and collects,
    in the order of the plan, the result of each step that calls a
    tool. *)
Lemma run_steps_collects steps results final_analysis :
  Forall returns steps ->
  exists t final_analysis',
    steps_run steps results final_analysis
      = (t, Ok ((results ++ omap result_of steps)%list, final_analysis')).
Proof.
  intros Hall. revert results final_analysis.
  induction Hall as [|step steps (t0 & [c r] & Hstep) _ IH];
    intros results final_analysis.
  - simpl. rewrite app_nil_r. by do 2 eexists.
  - simpl. unfold step_result at 1.
    destruct (fc_function step) as [f|] eqn:Hf.
    + rewrite Hstep. simpl.
      destruct (IH (results ++ [r])%list final_analysis) as (t & fa & ->).
      do 2 eexists. by rewrite <- app_assoc.
    + case_bool_decide.
      * destruct (IH results
                    (Some (gemma_synthesize_results
                             (default "Analyze and synthesize the results"
                                      (fc_instruction step)) results)))
          as (t & fa & ->).
        by do 2 eexists.
      * apply IH.
Qed.

(** The output of every collected result is one of the parts of the
    response. *)
Lemma response_reports_every_result results final_analysis r :
  r ∈ results ->
  tr_output r ∈ response_parts results final_analysis.
Proof.
  intros Hr. unfold response_parts.
  apply elem_of_app. left. right.
  generalize 1. induction Hr as [r rest|r r' rest _ IH]; intros i; simpl.
  - right. left.
  - do 3 right. apply IH.
Qed.

End PlanFacts.

(** The plan of two steps of which the second names no known class: the
    response holds the full result of the first step and the not-found
    message of the second. *)
Example two_step_plan_reports_both :
  demo.query demo.loaded "[]" [("[]", demo.two_step_plan)]
             "Compare PaidInCapital and xyz123nonexistent"
    = ([LlmCall "Compare PaidInCapital and xyz123nonexistent" true;
        ResolveCall "PaidInCapital";
        ToolCall "get_superclasses" ["PaidInCapital"];
        ResolveCall "xyz123nonexistent"],
       Ok (pystr.join nl
             ["📋 **Individual Results:**" +:+ nl;
              "### 1. get_superclasses";
              "get_superclasses(PaidInCapital)";
              "";
              "### 2. get_subclasses";
              "❌ Class 'xyz123nonexistent' not found." +:+ nl +:+
              "❌ No similar classes found for 'xyz123nonexistent'. Try 'list classes' to see available options.";
              ""])).
Proof. vm_compute. reflexivity. Qed.

(** * Further properties of the code *)

(** ** The resolver only names classes that exist *)

Lemma substring_matches_elem candidates input_name x :
  x ∈ substring_matches candidates input_name ->
  x ∈ candidates /\ is_substring_match (pystr.lower input_name) x = true.
Proof. unfold substring_matches. rewrite list_elem_of_filter. tauto. Qed.

Lemma char_matches_elem candidates input_name x :
  x ∈ char_matches candidates input_name ->
  x ∈ candidates /\ is_char_match (pystr.lower input_name) x = true.
Proof. rewrite char_matches_perm, list_elem_of_filter. tauto. Qed.

Lemma affix_matches_elem candidates input_name x :
  x ∈ affix_matches candidates input_name ->
  x ∈ candidates /\ is_affix_match (pystr.lower input_name) x = true.
Proof. unfold affix_matches. rewrite list_elem_of_filter. tauto. Qed.

Lemma all_suggestions_elem candidates input_name max_suggestions close x :
  close_matches candidates input_name max_suggestions = Ok close ->
  x ∈ all_suggestions candidates input_name close ->
  x ∈ candidates.
Proof.
  intros Hcl Hx. apply combine_tiers_elem in Hx as [Hx|[Hx|[Hx|Hx]]].
  - by apply substring_matches_elem in Hx as [? _].
  - by eapply close_matches_facts.get_close_matches_elem in Hx as [? _].
  - by apply char_matches_elem in Hx as [? _].
  - by apply affix_matches_elem in Hx as [? _].
Qed.

Lemma result_names_are_candidates st input_name max_suggestions r x :
  get_class_suggestions st input_name max_suggestions = Ok r ->
  r_match r = Some x \/ x ∈ r_suggestions r ->
  x ∈ get_class_candidates st.
Proof.
  intros Hr Hx.
  destruct (get_class_suggestions_run st input_name max_suggestions)
    as [Hc|e rest He|err Hc He|close Hc He Hmax Hcl].
  - injection Hr as <-. simpl in Hx. destruct Hx as [[=]|Hx].
    by apply elem_of_nil in Hx.
  - injection Hr as <-. simpl in Hx. destruct Hx as [[= <-]|Hx].
    + assert (Hin : e ∈ exact_matches (get_class_candidates st) input_name)
        by (rewrite He; left).
      by apply exact_matches_elem in Hin as [? _].
    + by apply elem_of_nil in Hx.
  - done.
  - injection Hr as <-.
    set (l := all_suggestions (get_class_candidates st) input_name close) in *.
    assert (Hin : x ∈ take (Z.to_nat max_suggestions) l).
    { unfold listed_result in Hx.
      destruct (take (Z.to_nat max_suggestions) l); simpl in Hx;
        destruct Hx as [[=]|Hx]; done. }
    apply (fun H => elem_of_sublist _ _ _ H (sublist_take _ _)) in Hin.
    by eapply all_suggestions_elem.
Qed.

(** X1.  Whatever [get_class_suggestions] returns, its match and each of its
    suggestions is the name of a class of the loaded ontologies. *)
Theorem suggestions_are_known_classes st input_name max_suggestions r :
  get_class_suggestions st input_name max_suggestions = Ok r ->
  forall x,
    r_match r = Some x \/ x ∈ r_suggestions r ->
    exists o cls,
      o ∈ default_world st /\ cls ∈ onto_classes o /\ cls_name cls = Some x.
Proof.
  intros Hr x Hx. apply elem_of_candidates.
  by eapply result_names_are_candidates.
Qed.

Lemma suggestions_are_known_classes_witness :
  exists o cls,
    o ∈ default_world demo.loaded /\ cls ∈ onto_classes o /\
    cls_name cls = Some "PaidInCapital".
Proof.
  apply (suggestions_are_known_classes demo.loaded "PaidInCapit" 3
           {| r_type := "suggestions"; r_match := None;
              r_suggestions := ["PaidInCapital"] |}).
  - vm_compute. reflexivity.
  - right. left.
Defined.

#[local] Opaque difflib.get_close_matches.

(** X2.  [resolve_class_name_fuzzy] raises nothing, and the name it returns,
    if any, is a candidate: the executor never hands a tool a class name
    that the knowledge base does not hold. *)
Theorem best_guess_is_a_candidate st input_name :
  exists best,
    resolve_class_name_fuzzy st input_name = Ok best /\
    forall m, best = Some m -> m ∈ get_class_candidates st.
Proof.
  destruct (get_class_suggestions_total st input_name default_max_suggestions)
    as [r Hr]; [done|].
  unfold resolve_class_name_fuzzy. rewrite Hr. simpl.
  destruct (get_class_suggestions_shape _ _ _ _ Hr)
    as [(e & -> & He)|[(l & Hl & ->)| ->]]; simpl.
  - eexists. split; [done|]. by intros m [= <-].
  - destruct l as [|x0 l0]; [done|].
    destruct (close_matches_facts.get_close_matches_total input_name (x0 :: l0)
                1 (8 # 10)) as [best Hbest]; [done..|].
    rewrite Hbest. simpl. destruct best as [|m rest].
    + eexists. split; [done|]. done.
    + eexists. split; [done|]. intros m' [= <-].
      assert (Hm : m ∈ x0 :: l0).
      { eapply close_matches_facts.get_close_matches_elem; [exact Hbest|left]. }
      eapply (result_names_are_candidates st input_name); [exact Hr|].
      right. exact Hm.
  - eexists. split; [done|]. done.
Qed.

#[local] Transparent difflib.get_close_matches.

Lemma best_guess_is_a_candidate_witness :
  "ShareholdersEquity" ∈ get_class_candidates demo.shareholders.
Proof.
  destruct (best_guess_is_a_candidate demo.shareholders "ShareholderEquity")
    as (best & Hbest & Hin).
  apply Hin. vm_compute in Hbest. by injection Hbest as <-.
Defined.

(** ** The prefix and suffix tier *)

Lemma prefix_contains p s : String.prefix p s = true -> pystr.contains p s = true.
Proof. intros H. destruct s; cbn [pystr.contains]; by rewrite H. Qed.

Lemma endswith_contains s p : pystr.endswith s p = true -> pystr.contains p s = true.
Proof.
  induction s as [|c s IH]; cbn [pystr.endswith pystr.contains]; intros H;
    apply orb_prop in H as [H|H].
  - apply bool_decide_eq_true in H. by subst p.
  - done.
  - apply bool_decide_eq_true in H. subst p. by rewrite prefix_refl.
  - rewrite (IH H). apply orb_true_r.
Qed.

Lemma affix_match_is_substring_match input_lower candidate :
  is_affix_match input_lower candidate = true ->
  is_substring_match input_lower candidate = true.
Proof.
  unfold is_affix_match, is_substring_match, pystr.startswith.
  intros H. apply orb_true_iff.
  apply orb_prop in H as [H|H]; [apply orb_prop in H as [H|H];
                                 [apply orb_prop in H as [H|H]|]|].
  - left. by apply prefix_contains.
  - left. by apply endswith_contains.
  - right. by apply prefix_contains.
  - right. by apply endswith_contains.
Qed.

Lemma extend_new_within all tier :
  (forall x, x ∈ tier -> x ∈ all) -> extend_new all tier = all.
Proof.
  intros Hsub. unfold extend_new.
  assert (Hnil : filter (fun m => m ∉ all) tier = []).
  { induction tier as [|x tier IH]; [done|].
    rewrite filter_cons_False.
    - apply IH. intros y Hy. apply Hsub. by right.
    - intros Hx. apply Hx, Hsub. left. }
  by rewrite Hnil, app_nil_r.
Qed.

(** X3.  The prefix and suffix tier never adds a name: a candidate that
    starts or ends with the input, or the other way round, is already found
    by the substring tier, so the joined list is the one of the first three
    tiers. *)
Theorem affix_tier_adds_nothing candidates input_name close :
  (forall x, x ∈ affix_matches candidates input_name ->
             x ∈ substring_matches candidates input_name) /\
  all_suggestions candidates input_name close
    = extend_new (extend_new (substring_matches candidates input_name) close)
                 (char_matches candidates input_name).
Proof.
  assert (Hsub : forall x, x ∈ affix_matches candidates input_name ->
                           x ∈ substring_matches candidates input_name).
  { intros x [Hx Ha]%affix_matches_elem.
    unfold substring_matches. apply list_elem_of_filter. split; [|done].
    by apply affix_match_is_substring_match. }
  split; [done|].
  unfold all_suggestions, combine_tiers.
  apply extend_new_within. intros x Hx%Hsub.
  unfold extend_new. rewrite !elem_of_app. by left; left.
Qed.

Lemma affix_tier_adds_nothing_witness :
  "PaidInCapital" ∈ substring_matches (get_class_candidates demo.loaded) "Paid".
Proof.
  apply (affix_tier_adds_nothing (get_class_candidates demo.loaded) "Paid" []).
  refine (bool_decide_unpack _ _). vm_compute. exact I.
Defined.

(** ** Limits that are not positive *)

(** X4.  With [max_suggestions] at zero or below, a lookup that finds no
    exact match in a knowledge base that holds classes raises the
    [ValueError] of difflib; a lookup that finds an exact match, or finds no
    class at all, still returns. *)
Theorem nonpositive_limit_raises st input_name max_suggestions :
  max_suggestions <= 0 ->
  let candidates := get_class_candidates st in
  (candidates <> [] -> exact_matches candidates input_name = [] ->
   get_class_suggestions st input_name max_suggestions
     = Raise (ValueError "n must be > 0")) /\
  (candidates = [] \/ exact_matches candidates input_name <> [] ->
   exists r, get_class_suggestions st input_name max_suggestions = Ok r).
Proof.
  intros Hmax. cbv zeta. split.
  - intros Hne He. unfold get_class_suggestions.
    destruct (get_class_candidates st) as [|c cs] eqn:Hc; [done|].
    rewrite He. unfold close_matches, difflib.get_close_matches.
    destruct (0 <? max_suggestions * 2) eqn:Hn; [|done].
    apply Z.ltb_lt in Hn. lia.
  - intros H.
    destruct (get_class_suggestions_run st input_name max_suggestions)
      as [Hc|e rest He|err Hc He|close Hc He Hpos Hcl]; try (by eexists).
    by destruct H.
Qed.

Lemma nonpositive_limit_raises_witness :
  get_class_suggestions demo.loaded "PaidInCapit" 0
    = Raise (ValueError "n must be > 0") /\
  exists r, get_class_suggestions demo.loaded "paidincapital" 0 = Ok r.
Proof.
  destruct (nonpositive_limit_raises demo.loaded "PaidInCapit" 0) as [H _]; [lia|].
  destruct (nonpositive_limit_raises demo.loaded "paidincapital" 0) as [_ H']; [lia|].
  split.
  - apply H; [by vm_compute|vm_compute; reflexivity].
  - apply H'. right. by vm_compute.
Defined.

(** ** The case of the input *)

(** X5.  The exact tier looks at the input in lower case only: two inputs
    that differ in case only get the same exact match, or both get none,
    whatever the two limits are. *)
Theorem exact_match_ignores_input_case st input1 input2 max1 max2 e :
  pystr.lower input1 = pystr.lower input2 ->
  get_class_suggestions st input1 max1
    = Ok {| r_type := "exact"; r_match := Some e; r_suggestions := [] |} ->
  get_class_suggestions st input2 max2
    = Ok {| r_type := "exact"; r_match := Some e; r_suggestions := [] |}.
Proof.
  intros Hlow Hr.
  destruct (exact_returned _ _ _ _ Hr eq_refl) as (e' & rest & He & [= <-]).
  apply (exact_found st input2 max2 e rest).
  unfold exact_matches in *. by rewrite <- Hlow.
Qed.

Lemma exact_match_ignores_input_case_witness :
  get_class_suggestions demo.loaded "PAIDINCAPITAL" 0
    = Ok {| r_type := "exact"; r_match := Some "PaidInCapital";
            r_suggestions := [] |}.
Proof.
  apply (exact_match_ignores_input_case demo.loaded "paidincapital"
           "PAIDINCAPITAL" 3 0 "PaidInCapital"); vm_compute; reflexivity.
Defined.

(** ** The suggestions message *)

(** X6.  [format_suggestions_message] raises nothing; it returns no message
    exactly when a candidate equals the input ignoring case, and a text in
    every other case. *)
Theorem no_message_iff_exact_match st input_name :
  exists msg,
    format_suggestions_message st input_name = Ok msg /\
    (msg = None <->
     exists c, c ∈ get_class_candidates st /\
               pystr.lower c = pystr.lower input_name).
Proof.
  destruct (get_class_suggestions_total st input_name default_max_suggestions)
    as [r Hr]; [done|].
  assert (Hiff : r_type r = "exact" <->
                 exists c, c ∈ get_class_candidates st /\
                           pystr.lower c = pystr.lower input_name).
  { split.
    - intros Ht. destruct (exact_returned _ _ _ _ Hr Ht) as (e & rest & He & _).
      exists e. apply (proj1 (exact_matches_elem _ input_name _)).
      rewrite He. left.
    - intros (c & Hc). apply exact_matches_elem in Hc.
      destruct (exact_matches (get_class_candidates st) input_name)
        as [|e rest] eqn:He; [by apply elem_of_nil in Hc|].
      rewrite (exact_found st input_name default_max_suggestions e rest He) in Hr.
      by injection Hr as <-. }
  unfold format_suggestions_message. rewrite Hr. simpl.
  case_bool_decide as Hex.
  - eexists. split; [done|]. by rewrite <- Hiff.
  - case_bool_decide; [destruct (r_suggestions r) as [|? [|? ?]]|];
      (eexists; split; [done|]); rewrite <- Hiff; split; done.
Qed.

Lemma no_message_iff_exact_match_witness :
  format_suggestions_message demo.loaded "ownersequity" = Ok None.
Proof.
  destruct (no_message_iff_exact_match demo.loaded "ownersequity")
    as (msg & Hmsg & Hiff).
  rewrite Hmsg. f_equal. apply Hiff. exists "OwnersEquity". split.
  - refine (bool_decide_unpack _ _). vm_compute. exact I.
  - vm_compute. reflexivity.
Defined.

(** ** The empty input *)

Lemma lower_empty_inv s : pystr.lower s = "" -> s = "".
Proof. by destruct s. Qed.

Lemma contains_empty s : pystr.contains "" s = true.
Proof. by destruct s. Qed.

Lemma filter_all {A : Type} (P : A -> Prop) `{!forall x, Decision (P x)}
    (l : list A) :
  (forall x, x ∈ l -> P x) -> filter P l = l.
Proof.
  induction l as [|x l IH]; intros Hall; [done|].
  rewrite filter_cons_True by (apply Hall; left).
  f_equal. apply IH. intros y Hy. apply Hall. by right.
Qed.

(** X7.  The empty input is a substring of every name: unless a class has
    the empty name, a lookup of "" suggests the first [max_suggestions]
    candidates in their sorted order. *)
Theorem empty_input_suggests_first_candidates st max_suggestions :
  get_class_candidates st <> [] ->
  "" ∉ get_class_candidates st ->
  0 < max_suggestions ->
  get_class_suggestions st "" max_suggestions
    = Ok {| r_type := "suggestions"; r_match := None;
            r_suggestions := take (Z.to_nat max_suggestions)
                                  (get_class_candidates st) |}.
Proof.
  intros Hne Hnot Hmax.
  assert (Hsub : substring_matches (get_class_candidates st) ""
                 = get_class_candidates st).
  { unfold substring_matches. apply filter_all. intros x _.
    unfold is_substring_match. cbn [pystr.lower]. by rewrite contains_empty. }
  destruct (get_class_suggestions_run st "" max_suggestions)
    as [Hc|e rest He|err Hc He Hneg|close Hc He _ Hcl].
  - done.
  - assert (Hin : e ∈ exact_matches (get_class_candidates st) "")
      by (rewrite He; left).
    apply exact_matches_elem in Hin as [Hin Hlow].
    apply lower_empty_inv in Hlow. by subst e.
  - lia.
  - assert (Hall : all_suggestions (get_class_candidates st) "" close
                   = get_class_candidates st).
    { unfold all_suggestions, combine_tiers. rewrite Hsub.
      rewrite (extend_new_within (get_class_candidates st) close).
      2:{ intros x Hx.
          by destruct (close_matches_facts.get_close_matches_elem
                         _ _ _ _ _ x Hcl Hx). }
      rewrite (extend_new_within (get_class_candidates st)).
      2:{ intros x Hx. by apply char_matches_elem in Hx as [? _]. }
      apply extend_new_within.
      intros x Hx. by apply affix_matches_elem in Hx as [? _]. }
    rewrite Hall. unfold listed_result.
    destruct (get_class_candidates st) as [|c cs]; [done|].
    destruct (Z.to_nat max_suggestions) eqn:Hn; [lia|]. done.
Qed.

Lemma empty_input_suggests_first_candidates_witness :
  get_class_suggestions demo.loaded "" 2
    = Ok {| r_type := "suggestions"; r_match := None;
            r_suggestions := ["CapitalSurplus"; "OwnersEquity"] |}.
Proof.
  etransitivity.
  - apply (empty_input_suggests_first_candidates demo.loaded 2).
    + by vm_compute.
    + refine (bool_decide_unpack _ _). vm_compute. exact I.
    + lia.
  - vm_compute. reflexivity.
Defined.

(** ** What a step of a plan can do *)

Lemma tool_calls_app t t' : tool_calls (t ++ t') = (tool_calls t ++ tool_calls t')%list.
Proof. apply omap_app. Qed.

Lemma llm_calls_app t t' : llm_calls (t ++ t') = (llm_calls t ++ llm_calls t')%list.
Proof. apply omap_app. Qed.

Lemma synthesis_calls_app t t' :
  synthesis_calls (t ++ t') = (synthesis_calls t ++ synthesis_calls t')%list.
Proof. apply omap_app. Qed.

Lemma calls_only_bind {A B : Type} k1 k2 func (P : A -> Prop) (Q : B -> Prop)
    (m : M A) (f : A -> M B) :
  calls_only k1 func P m ->
  (forall a, P a -> calls_only k2 func Q (f a)) ->
  calls_only (k1 + k2) func Q (bind m f).
Proof.
  intros (Hlen & Hnamed & [Hllm Hsyn] & HP) Hf.
  destruct m as [t [a|e]]; simpl in *.
  - specialize (Hf a (HP a eq_refl)).
    unfold calls_only, bind.
    destruct (f a) as [t' r].
    destruct Hf as (Hlen' & Hnamed' & [Hllm' Hsyn'] & HQ). simpl in *.
    rewrite tool_calls_app, llm_calls_app, synthesis_calls_app, length_app,
      Hllm, Hllm', Hsyn, Hsyn'.
    repeat split; try done; [lia|].
    intros g args [?|?]%elem_of_app; eauto.
  - repeat split; try done. simpl. lia.
Qed.

Lemma calls_only_ret {A : Type} func (P : A -> Prop) (a : A) :
  P a -> calls_only 0 func P (ret a).
Proof.
  intros HP. repeat split; simpl; try done.
  - intros f args H. by apply elem_of_nil in H.
  - by intros ? [= <-].
Qed.

Lemma calls_only_lift {A : Type} func (P : A -> Prop) (r : res A) :
  (forall a, r = Ok a -> P a) -> calls_only 0 func P (lift r).
Proof.
  intros HP. repeat split; simpl; try done.
  intros f args H. by apply elem_of_nil in H.
Qed.

Lemma calls_only_weaken {A : Type} k k' func (P Q : A -> Prop) (m : M A) :
  (k <= k')%nat -> (forall a, P a -> Q a) ->
  calls_only k func P m -> calls_only k' func Q m.
Proof.
  intros Hk HPQ (Hlen & Hnamed & Hllm & HP).
  split; [lia|]. split; [done|]. split; [done|].
  intros a Ha. by apply HPQ, HP.
Qed.

Lemma calls_only_bind_le {A B : Type} k1 k2 k func (P : A -> Prop)
    (Q : B -> Prop) (m : M A) (f : A -> M B) :
  calls_only k1 func P m ->
  (forall a, P a -> calls_only k2 func Q (f a)) ->
  (k1 + k2 <= k)%nat ->
  calls_only k func Q (bind m f).
Proof.
  intros Hm Hf Hk. eapply calls_only_weaken; [exact Hk| |by eapply calls_only_bind].
  done.
Qed.

Lemma calls_only_tool {A : Type} f args (P : A -> Prop) (r : res A) :
  (forall a, r = Ok a -> P a) ->
  calls_only 1 (Some f) P (bind (emit (ToolCall f args)) (fun _ => lift r)).
Proof.
  intros HP. repeat split; simpl; try done.
  intros g a H. apply list_elem_of_singleton in H. by injection H as -> _.
Qed.

Lemma calls_only_emit f args :
  calls_only 1 (Some f) (fun _ => True) (emit (ToolCall f args)).
Proof.
  repeat split; simpl; try done.
  intros g a H. apply list_elem_of_singleton in H. by injection H as -> _.
Qed.

Section StepFacts.
Variable entity : Type.
Variable search_one : Ontology -> string -> option entity.
Variable render : string -> Ontology -> list entity -> list string -> string.
Variable render_stats : kb_state -> string.
Variable st : kb_state.

#[local] Abbreviation execute :=
  (execute_single_function entity search_one render render_stats st).
#[local] Abbreviation dispatch_tool := (dispatch entity search_one render st).

Lemma resolve_calls_only name :
  forall func, calls_only 0 func (fun _ => True) (resolve st name).
Proof.
  intros func. unfold resolve, calls_only, bind, emit, lift.
  destruct (resolve_class_name_fuzzy st name) as [o|e]; cbn;
    repeat split; try done; intros f a H; by apply elem_of_nil in H.
Qed.

Lemma not_found_calls_only func name :
  calls_only 0 func (fun r => tr_function r = func) (not_found st func name).
Proof.
  unfold not_found.
  destruct (format_suggestions_message st name) as [msg|e]; simpl.
  - by apply calls_only_ret.
  - by apply calls_only_lift.
Qed.

Lemma resolve_pair_calls_only func n i args :
  calls_only 0 func
    (fun '(args', stop) =>
       length args' = length args /\
       forall r, stop = Some r -> tr_function r = func)
    (resolve_pair st func n i args).
Proof.
  revert i args. induction n as [|n IH]; intros i args; cbn [resolve_pair].
  - by apply calls_only_ret.
  - destruct (args !! i) as [original_name|]; [|by apply calls_only_lift].
    apply (calls_only_bind 0 0 func (fun _ => True)); [apply resolve_calls_only|].
    intros resolved _. destruct (truthy resolved) as [r|].
    + eapply calls_only_weaken; [done| |apply IH].
      intros [args' stop] [Hlen Hstop]. split; [|done].
      by rewrite Hlen, length_insert.
    + apply (calls_only_bind 0 0 func (fun r => tr_function r = func));
        [apply not_found_calls_only|].
      intros r Hr. apply calls_only_ret. split; [done|]. by intros ? [= <-].
Qed.

Lemma dispatch_calls_only func args :
  calls_only 1 func (fun r => tr_function r = func) (dispatch_tool func args).
Proof.
  unfold dispatch, call1.
  repeat case_bool_decide; subst;
    (destruct args as [|a1 [|a2 [|a3 args]]];
     first
       [ eapply (calls_only_bind_le 1 0 1 _ (fun _ => True));
         [ by apply calls_only_tool
         | intros ? _; by apply calls_only_ret
         | lia ]
       | eapply (calls_only_bind_le 0 0 1 _ (fun _ => True));
         [ by apply calls_only_lift
         | intros ? _; by apply calls_only_ret
         | lia ]
       | apply (calls_only_weaken 0 1 _ _ _ _ ltac:(lia) (fun _ H => H));
         first [ by apply calls_only_ret | by apply calls_only_lift ] ]).
Qed.

Lemma same_shape_refl call : same_shape call call.
Proof. unfold same_shape. by destruct (fc_arguments call). Qed.

Lemma same_shape_with_arguments call args :
  length args = length (default [] (fc_arguments call)) ->
  same_shape call (with_arguments call args).
Proof. unfold same_shape, with_arguments. by destruct (fc_arguments call). Qed.

Lemma execute_calls_only call :
  calls_only 1 (fc_function call)
    (fun '(c, r) => tr_function r = fc_function call /\ same_shape call c)
    (execute call).
Proof.
  unfold execute_single_function.
  set (func := fc_function call). set (args := default [] (fc_arguments call)).
  assert (Hkeep : forall args' r, length args' = length args ->
            tr_function r = func ->
            calls_only 0 func
              (fun '(c, r) => tr_function r = func /\ same_shape call c)
              (ret (with_arguments call args', r))).
  { intros args' r Hlen Hr. apply calls_only_ret. split; [done|].
    by apply same_shape_with_arguments. }
  repeat case_bool_decide.
  - replace func with (Some "list_classes") in *.
    apply (calls_only_tool "list_classes" [] _ (Ok _)).
    intros ? [= <-]. split; [done|apply same_shape_refl].
  - replace func with (Some "get_ontology_stats") in *.
    apply (calls_only_bind_le 1 0 1 _ (fun _ => True));
      [apply calls_only_emit| |lia].
    intros _ _. apply (calls_only_bind 0 0 _ (fun _ => True));
      [by apply calls_only_lift|].
    intros output _. apply calls_only_ret. split; [done|apply same_shape_refl].
  - replace func with (Some "search_classes_by_keyword") in *.
    destruct args as [|keyword [|more rest]].
    + apply (calls_only_weaken 0 1 _ _ _ _ ltac:(lia) (fun _ H => H)).
      apply calls_only_ret. split; [done|apply same_shape_refl].
    + apply (calls_only_bind_le 1 0 1 _ (fun _ => True)); [| |lia].
      * by apply calls_only_tool.
      * intros output _. apply calls_only_ret. split; [done|apply same_shape_refl].
    + apply (calls_only_bind_le 0 0 1 _ (fun _ => True)); [| |lia].
      * by apply calls_only_lift.
      * intros output _. apply calls_only_ret. split; [done|apply same_shape_refl].
  - apply (calls_only_bind_le 0 1 1 func
             (fun '(args', stop) =>
                length args' = length args /\
                forall r, stop = Some r -> tr_function r = func)); [| |lia].
    + destruct args as [|original_name rest] eqn:Hargs; [by apply calls_only_ret|].
      destruct (among func single_class_functions); [|by apply calls_only_ret].
      apply (calls_only_bind 0 0 func (fun _ => True)); [apply resolve_calls_only|].
      intros resolved _. destruct (truthy resolved) as [r|].
      * by apply calls_only_ret.
      * apply (calls_only_bind 0 0 func (fun r => tr_function r = func));
          [apply not_found_calls_only|].
        intros r Hr. apply calls_only_ret. split; [done|]. by intros ? [= <-].
    + intros [args1 stop1] [Hlen1 Hstop1]. destruct stop1 as [r1|].
      { apply (calls_only_weaken 0 1 _ _ _ _ ltac:(lia) (fun _ H => H)).
        apply Hkeep; [done|by apply Hstop1]. }
      apply (calls_only_bind_le 0 1 1 func
               (fun '(args', stop) =>
                  length args' = length args /\
                  forall r, stop = Some r -> tr_function r = func)); [| |lia].
      * destruct (among func two_class_functions && (2 <=? length args1)%nat).
        -- eapply calls_only_weaken; [done| |apply resolve_pair_calls_only].
           intros [args' stop] [Hlen Hstop]. split; [congruence|done].
        -- by apply calls_only_ret.
      * intros [args2 stop2] [Hlen2 Hstop2]. destruct stop2 as [r2|].
        { apply (calls_only_weaken 0 1 _ _ _ _ ltac:(lia) (fun _ H => H)).
          apply Hkeep; [done|by apply Hstop2]. }
        apply (calls_only_bind_le 1 0 1 func (fun r => tr_function r = func));
          [apply dispatch_calls_only| |lia].
        intros r Hr. by apply Hkeep.
Qed.

(** X8. Whatever a step holds and whether or not its execution raises,
    the executor runs at most one tool, and only the tool that the step
    names; it never asks the model, neither for a plan nor for a
    synthesis. *)
Theorem step_runs_at_most_its_own_tool call :
  (length (tool_calls (fst (execute call))) <= 1)%nat /\
  (forall f a, (f, a) ∈ tool_calls (fst (execute call)) ->
               fc_function call = Some f) /\
  llm_calls (fst (execute call)) = [] /\
  synthesis_calls (fst (execute call)) = [].
Proof. by destruct (execute_calls_only call) as (? & ? & [? ?] & _). Qed.

(** X9. When the execution of a step returns, the result carries the
    function name of the step, and the step that is handed back has the
    keys of the step that was given, with as many arguments: resolving
    class names replaces arguments, it adds and drops none. *)
Theorem executed_step_keeps_its_shape call t c r :
  execute call = (t, Ok (c, r)) ->
  tr_function r = fc_function call /\ same_shape call c.
Proof.
  intros Hrun. destruct (execute_calls_only call) as (_ & _ & _ & HP).
  apply (HP (c, r)). by rewrite Hrun.
Qed.

End StepFacts.

Lemma step_runs_at_most_its_own_tool_witness :
  fc_function (demo.step "get_superclasses" ["PaidInCapit"])
    = Some "get_superclasses".
Proof.
  refine (proj1 (proj2 (step_runs_at_most_its_own_tool demo.entity demo.search_one
                          demo.render demo.render_stats demo.loaded
                          (demo.step "get_superclasses" ["PaidInCapit"])))
                "get_superclasses" ["PaidInCapital"] _).
  refine (bool_decide_unpack _ _). vm_compute. exact I.
Defined.

Lemma executed_step_keeps_its_shape_witness :
  tr_function {| tr_function := Some "get_superclasses";
                 tr_output := "get_superclasses(PaidInCapital)" |}
    = fc_function (demo.step "get_superclasses" ["PaidInCapit"]) /\
  same_shape (demo.step "get_superclasses" ["PaidInCapit"])
             (demo.step "get_superclasses" ["PaidInCapital"]).
Proof.
  refine (executed_step_keeps_its_shape demo.entity demo.search_one
            demo.render demo.render_stats demo.loaded
            (demo.step "get_superclasses" ["PaidInCapit"])
            [ResolveCall "PaidInCapit"; ToolCall "get_superclasses" ["PaidInCapital"]]
            _ _ _).
  vm_compute. reflexivity.
Defined.

(** ** What a query can do *)

Lemma bind_trace {A B : Type} (m : M A) (f : A -> M B) :
  fst (bind m f) = match snd m with
                   | Ok a => (fst m ++ fst (f a))%list
                   | Raise _ => fst m
                   end.
Proof. destruct m as [t [a|e]]; simpl; [by destruct (f a)|done]. Qed.

Lemma bind_value {A B : Type} (m : M A) (f : A -> M B) b :
  snd (bind m f) = Ok b -> exists a, snd m = Ok a /\ snd (f a) = Ok b.
Proof.
  destruct m as [t [a|e]]; simpl; [|done].
  destruct (f a) as [t' r] eqn:Hfa. simpl. intros ->. exists a. by rewrite Hfa.
Qed.

Section QueryFacts.
Variable entity : Type.
Variable search_one : Ontology -> string -> option entity.
Variable render : string -> Ontology -> list entity -> list string -> string.
Variable render_stats : kb_state -> string.
Variable call_local_llm : string -> bool -> string.
Variable json_loads : string -> option plan.
Variable plan_str : plan -> string.
Variable gemma_synthesize_results : string -> list tool_result -> string.
Variable st : kb_state.

#[local] Abbreviation exec :=
  (execute_single_function entity search_one render render_stats st).
#[local] Abbreviation result_of' :=
  (step_result entity search_one render render_stats st).
#[local] Abbreviation steps_run' :=
  (run_steps entity search_one render render_stats gemma_synthesize_results st).
#[local] Abbreviation run_query :=
  (run_natural_language_query entity search_one render render_stats
     call_local_llm json_loads plan_str gemma_synthesize_results st).

Lemma exec_trace step :
  (length (tool_calls (fst (exec step))) <= 1)%nat /\
  (forall f a, (f, a) ∈ tool_calls (fst (exec step)) -> fc_function step = Some f) /\
  llm_calls (fst (exec step)) = [] /\
  synthesis_calls (fst (exec step)) = [].
Proof.
  by destruct (execute_calls_only entity search_one render render_stats st step)
    as (? & ? & [? ?] & _).
Qed.

Lemma run_steps_trace steps : forall results final_analysis,
  llm_calls (fst (steps_run' steps results final_analysis)) = [] /\
  (length (tool_calls (fst (steps_run' steps results final_analysis)))
     <= length steps)%nat /\
  (forall f a,
     (f, a) ∈ tool_calls (fst (steps_run' steps results final_analysis)) ->
     exists step, step ∈ steps /\ fc_function step = Some f).
Proof.
  induction steps as [|step rest IH]; intros results final_analysis;
    cbn [run_steps].
  - simpl. repeat split; [lia|]. intros f a H. by apply elem_of_nil in H.
  - destruct (fc_function step) as [fn|] eqn:Hfn.
    + rewrite bind_trace.
      destruct (exec_trace step) as (Hlen & Hnamed & Hllm & _).
      rewrite Hfn in Hnamed.
      destruct (exec step) as [t [[c r]|e]]; simpl in *.
      * destruct (IH (results ++ [r])%list final_analysis)
          as (IHllm & IHlen & IHnamed).
        rewrite llm_calls_app, tool_calls_app, length_app, Hllm, IHllm.
        split; [done|]. split; [lia|].
        intros f a [Hin|Hin]%elem_of_app.
        -- exists step. split; [by left|]. rewrite Hfn. eauto.
        -- destruct (IHnamed f a Hin) as (s & Hs & Hsf).
           exists s. split; [by right|done].
      * split; [done|]. split; [lia|].
        intros f a Hin. exists step. split; [by left|]. rewrite Hfn. eauto.
    + case_bool_decide.
      * rewrite bind_trace. simpl.
        match goal with
        | |- context [steps_run' rest results ?fa] =>
            destruct (IH results fa) as (IHllm & IHlen & IHnamed)
        end.
        split; [done|]. split; [lia|].
        intros f a Hin. destruct (IHnamed f a Hin) as (s & Hs & Hsf).
        exists s. split; [by right|done].
      * destruct (IH results final_analysis) as (IHllm & IHlen & IHnamed).
        split; [done|]. split; [simpl; lia|].
        intros f a Hin. destruct (IHnamed f a Hin) as (s & Hs & Hsf).
        exists s. split; [by right|done].
Qed.

Lemma query_trace user_input :
  exists t,
    fst (run_query user_input)
      = LlmCall user_input (is_complex_query user_input) :: t /\
    llm_calls t = [] /\
    (length (tool_calls t)
       <= length (planned_steps
                    (json_loads
                       (clean_plan
                          (call_local_llm user_input
                             (is_complex_query user_input))))))%nat /\
    (forall f a, (f, a) ∈ tool_calls t ->
       exists step,
         step ∈ planned_steps
                  (json_loads
                     (clean_plan
                        (call_local_llm user_input
                           (is_complex_query user_input)))) /\
         fc_function step = Some f).
Proof.
  unfold run_natural_language_query. rewrite bind_trace. simpl.
  eexists. split; [reflexivity|].
  destruct (json_loads _) as [[d|steps|text]|]; simpl;
    try (repeat split; [lia|]; intros f a H; by apply elem_of_nil in H).
  - destruct (fc_function d) as [fn|] eqn:Hfn; simpl;
      [|repeat split; [lia|]; intros f a H; by apply elem_of_nil in H].
    rewrite bind_trace.
    destruct (exec_trace d) as (Hlen & Hnamed & Hllm & _).
    destruct (exec d) as [t [[c r]|e]]; simpl in *;
      rewrite ?app_nil_r; (split; [done|]; split; [lia|]);
      intros f a Hin; exists d; (split; [by left|]); eauto.
  - rewrite bind_trace.
    destruct (run_steps_trace steps [] None) as (Hllm & Hlen & Hnamed).
    destruct (steps_run' steps [] None) as [t [[rs fa]|e]]; simpl in *;
      rewrite ?app_nil_r; done.
Qed.

(** X10. Every query asks the planning model exactly once, with the text
    of the user and the mode that [is_complex_query] chose, before
    anything else happens: there is no second request, whether the reply
    fails to parse, a step raises, or the plan runs to its end. *)
Theorem planning_model_asked_once user_input :
  head (fst (run_query user_input))
    = Some (LlmCall user_input (is_complex_query user_input)) /\
  llm_calls (fst (run_query user_input))
    = [(user_input, is_complex_query user_input)].
Proof.
  destruct (query_trace user_input) as (t & -> & Hllm & _).
  simpl. by rewrite Hllm.
Qed.

(** X11. A query runs only tools that the parsed plan names, and at most
    one tool for each step of the plan; a reply that does not parse, or
    that parses to something that is neither a dict nor a list, runs no
    tool at all. *)
Theorem query_runs_only_planned_tools user_input :
  (length (tool_calls (fst (run_query user_input)))
     <= length (planned_steps
                  (json_loads
                     (clean_plan
                        (call_local_llm user_input
                           (is_complex_query user_input))))))%nat /\
  (forall f a, (f, a) ∈ tool_calls (fst (run_query user_input)) ->
     exists step,
       step ∈ planned_steps
                (json_loads
                   (clean_plan
                      (call_local_llm user_input
                         (is_complex_query user_input)))) /\
       fc_function step = Some f).
Proof.
  destruct (query_trace user_input) as (t & -> & _ & Hlen & Hnamed).
  by simpl.
Qed.

(** X12. An analysis step hands to the synthesis the results of the
    steps before it, in the order of the plan, and nothing else: the
    results of later steps are not part of any synthesis that ran before
    them.  Only a step without a function whose "step" is "analysis" asks
    for a synthesis, with its instruction or else the default one. *)
Theorem analysis_sees_earlier_results steps :
  forall results final_analysis instruction seen,
    (instruction, seen)
      ∈ synthesis_calls (fst (steps_run' steps results final_analysis)) ->
    exists k step,
      steps !! k = Some step /\
      fc_function step = None /\
      fc_step step = Some "analysis" /\
      instruction = default "Analyze and synthesize the results"
                            (fc_instruction step) /\
      seen = (results ++ omap result_of' (take k steps))%list.
Proof.
  induction steps as [|step rest IH];
    intros results final_analysis instruction seen Hin; cbn [run_steps] in Hin.
  - simpl in Hin. by apply elem_of_nil in Hin.
  - destruct (fc_function step) as [fn|] eqn:Hfn.
    + rewrite bind_trace in Hin.
      destruct (exec_trace step) as (_ & _ & _ & Hsyn).
      destruct (exec step) as [t [[c r]|e]] eqn:Hexec; simpl in *.
      * rewrite synthesis_calls_app, Hsyn in Hin. simpl in Hin.
        apply IH in Hin as (k & s & Hk & Hf & Hs & Hi & Hseen).
        exists (S k), s. repeat split; try done.
        simpl. unfold step_result at 1. rewrite Hfn, Hexec.
        by rewrite Hseen, <- app_assoc.
      * rewrite Hsyn in Hin. by apply elem_of_nil in Hin.
    + case_bool_decide as Hstep.
      * rewrite bind_trace in Hin. simpl in Hin.
        apply elem_of_cons in Hin as [Heq|Hin].
        -- injection Heq as -> ->. exists 0%nat, step.
           simpl. by rewrite app_nil_r.
        -- apply IH in Hin as (k & s & Hk & Hf & Hs & Hi & Hseen).
           exists (S k), s. repeat split; try done.
           simpl. unfold step_result at 1. by rewrite Hfn.
      * apply IH in Hin as (k & s & Hk & Hf & Hs & Hi & Hseen).
        exists (S k), s. repeat split; try done.
        simpl. unfold step_result at 1. by rewrite Hfn.
Qed.

(** X13. The analysis that a plan of several steps ends with is the
    synthesis that its last analysis step asked for; a plan without an
    analysis step ends with the analysis it started from, which for a
    query is none. *)
Theorem final_analysis_is_last_synthesis steps :
  forall results final_analysis t collected final_analysis',
    steps_run' steps results final_analysis
      = (t, Ok (collected, final_analysis')) ->
    final_analysis'
      = match last (synthesis_calls t) with
        | Some (instruction, seen) =>
            Some (gemma_synthesize_results instruction seen)
        | None => final_analysis
        end.
Proof.
  induction steps as [|step rest IH];
    intros results final_analysis t collected final_analysis' Hrun;
    cbn [run_steps] in Hrun.
  - by injection Hrun as <- _ <-.
  - destruct (fc_function step) as [fn|] eqn:Hfn.
    + destruct (exec_trace step) as (_ & _ & _ & Hsyn).
      destruct (exec step) as [t1 [[c r]|e]]; simpl in *; [|done].
      destruct (steps_run' rest (results ++ [r])%list final_analysis)
        as [t2 r2] eqn:Hrest.
      injection Hrun as <- ->.
      rewrite synthesis_calls_app, Hsyn. simpl. by eapply IH.
    + case_bool_decide as Hstep.
      * unfold bind, emit in Hrun.
        match type of Hrun with
        | context [steps_run' rest results ?fa] =>
            destruct (steps_run' rest results fa) as [t2 r2] eqn:Hrest
        end.
        injection Hrun as <- ->. apply IH in Hrest. simpl.
        destruct (synthesis_calls t2) as [|call calls]; [exact Hrest|].
        rewrite last_cons_cons, Hrest.
        destruct (last (call :: calls)) as [[i s]|] eqn:Hlast; [done|].
        by apply last_None in Hlast.
      * by eapply IH.
Qed.

End QueryFacts.

Lemma query_runs_only_planned_tools_witness :
  exists step,
    step ∈ planned_steps
             (demo.json_loads
                [(demo.json_step "list_classes",
                  PlanDict (demo.step "list_classes" []))]
                (clean_plan
                   (demo.call_local_llm (demo.json_step "list_classes")
                      "Which classes are there?"
                      (is_complex_query "Which classes are there?")))) /\
    fc_function step = Some "list_classes".
Proof.
  refine (proj2 (query_runs_only_planned_tools demo.entity demo.search_one
                   demo.render demo.render_stats
                   (demo.call_local_llm (demo.json_step "list_classes"))
                   (demo.json_loads
                      [(demo.json_step "list_classes",
                        PlanDict (demo.step "list_classes" []))])
                   demo.plan_str demo.gemma_synthesize_results demo.loaded
                   "Which classes are there?")
                "list_classes" [] _).
  refine (bool_decide_unpack _ _). vm_compute. exact I.
Defined.

Lemma analysis_sees_earlier_results_witness :
  exists k step,
    analysed_plan !! k = Some step /\
    fc_function step = None /\
    fc_step step = Some "analysis" /\
    "Compare" = default "Analyze and synthesize the results"
                        (fc_instruction step) /\
    [{| tr_function := Some "get_superclasses";
        tr_output := "get_superclasses(PaidInCapital)" |}]
      = ([] ++ omap (step_result demo.entity demo.search_one demo.render
                       demo.render_stats demo.loaded)
                    (take k analysed_plan))%list.
Proof.
  refine (analysis_sees_earlier_results demo.entity demo.search_one demo.render
            demo.render_stats demo.gemma_synthesize_results demo.loaded
            analysed_plan [] None "Compare" _ _).
  vm_compute. constructor.
Defined.

Lemma final_analysis_is_last_synthesis_witness :
  Some "analysis"
    = match last (synthesis_calls
                    [ResolveCall "PaidInCapital";
                     ToolCall "get_superclasses" ["PaidInCapital"];
                     SynthesisCall "Compare"
                       [{| tr_function := Some "get_superclasses";
                           tr_output := "get_superclasses(PaidInCapital)" |}];
                     ResolveCall "OwnersEquity";
                     ToolCall "get_subclasses" ["OwnersEquity"]]) with
      | Some (instruction, seen) =>
          Some (demo.gemma_synthesize_results instruction seen)
      | None => None
      end.
Proof.
  refine (final_analysis_is_last_synthesis demo.entity demo.search_one
            demo.render demo.render_stats demo.gemma_synthesize_results
            demo.loaded analysed_plan [] None
            [ResolveCall "PaidInCapital";
             ToolCall "get_superclasses" ["PaidInCapital"];
             SynthesisCall "Compare"
               [{| tr_function := Some "get_superclasses";
                   tr_output := "get_superclasses(PaidInCapital)" |}];
             ResolveCall "OwnersEquity";
             ToolCall "get_subclasses" ["OwnersEquity"]]
            [{| tr_function := Some "get_superclasses";
                tr_output := "get_superclasses(PaidInCapital)" |};
             {| tr_function := Some "get_subclasses";
                tr_output := "get_subclasses(OwnersEquity)" |}]
            _ _).
  vm_compute. reflexivity.
Defined.

(** ** The executor on a knowledge base without classes *)

Section NoClasses.
Variable entity : Type.
Variable search_one : Ontology -> string -> option entity.
Variable render : string -> Ontology -> list entity -> list string -> string.
Variable render_stats : kb_state -> string.
Variable st : kb_state.

Lemma resolve_without_classes name :
  get_class_candidates st = [] ->
  resolve st name = ([ResolveCall name], Ok None).
Proof.
  intros Hnone. unfold resolve, resolve_class_name_fuzzy, get_class_suggestions.
  by rewrite Hnone.
Qed.

Lemma not_found_without_classes func name :
  get_class_candidates st = [] ->
  not_found st func name
    = ([], Ok (not_found_result func name
                 (Some ("❌ No similar classes found for '" +:+ name +:+
                        "'. Try 'list classes' to see available options.")))).
Proof.
  intros Hnone. unfold not_found, format_suggestions_message, get_class_suggestions.
  by rewrite Hnone.
Qed.

(** X14. On a knowledge base that holds no class, a step that names a
    tool taking one class name, or a tool taking two class names and
    given at least two arguments, ends in the "not found" result for its
    first argument, with the hint to list the classes.  No tool runs, so
    the tools' own "No ontology loaded" reply is never the result of such
    a step. *)
Theorem class_steps_fail_without_classes call func name rest :
  get_class_candidates st = [] ->
  fc_function call = Some func ->
  fc_arguments call = Some (name :: rest) ->
  func ∈ single_class_functions \/
    (func ∈ two_class_functions /\ rest <> []) ->
  execute_single_function entity search_one render render_stats st call
    = ([ResolveCall name],
       Ok (call,
           not_found_result (Some func) name
             (Some ("❌ No similar classes found for '" +:+ name +:+
                    "'. Try 'list classes' to see available options.")))).
Proof.
  intros Hnone Hfunc Hargs Hkind.
  assert (Hplain : func ∈ single_class_functions \/ func ∈ two_class_functions)
    by (destruct Hkind as [?|[? _]]; auto).
  destruct (plain_names_skipped func Hplain) as (H1 & H2 & H3).
  unfold execute_single_function. rewrite Hfunc, Hargs, H1, H2, H3.
  cbn [default from_option id among].
  destruct Hkind as [Hone|[Htwo Hrest]].
  - rewrite (bool_decide_eq_true_2 _ Hone).
    rewrite resolve_without_classes by done.
    cbn [bind truthy]. rewrite not_found_without_classes by done.
    cbn [bind ret app]. by rewrite with_arguments_same.
  - assert (Hnot : func ∉ single_class_functions).
    { intros Hone. by apply (single_and_two_class_functions_disjoint func). }
    rewrite (bool_decide_eq_false_2 _ Hnot), (bool_decide_eq_true_2 _ Htwo).
    destruct rest as [|second rest]; [done|].
    cbn [bind ret app length Nat.leb andb resolve_pair lookup list_lookup].
    rewrite resolve_without_classes by done.
    cbn [bind truthy]. rewrite not_found_without_classes by done.
    cbn [bind ret app]. by rewrite with_arguments_same.
Qed.

End NoClasses.

Lemma class_steps_fail_without_classes_witness :
  demo.execute demo.unloaded (demo.step "explain_relationship" ["Equity"; "Debt"])
    = ([ResolveCall "Equity"],
       Ok (demo.step "explain_relationship" ["Equity"; "Debt"],
           not_found_result (Some "explain_relationship") "Equity"
             (Some ("❌ No similar classes found for '" +:+ "Equity" +:+
                    "'. Try 'list classes' to see available options.")))).
Proof.
  refine (class_steps_fail_without_classes demo.entity demo.search_one demo.render
            demo.render_stats demo.unloaded
            (demo.step "explain_relationship" ["Equity"; "Debt"])
            "explain_relationship" "Equity" ["Debt"] eq_refl eq_refl eq_refl _).
  right. split; [|done].
  refine (bool_decide_unpack _ _). vm_compute. exact I.
Defined.

(** ** The keyword search *)

Lemma keyword_matches_world st keyword :
  keyword_matches st keyword
    = concat (map (class_matches (pystr.lower keyword)) (world_classes st)).
Proof.
  unfold keyword_matches, world_classes.
  induction (default_world st) as [|o w IH]; [done|].
  simpl. by rewrite IH, map_app, concat_app.
Qed.

Lemma search_by_matches st keyword :
  search_classes_by_keyword st keyword
    = match keyword_matches st keyword with
      | [] => Ok (keyword_not_found keyword)
      | matches =>
          Ok (pystr.join nl
                (("🔍 Found " +:+ pystr.of_int (Z.of_nat (length matches)) +:+
                  " classes containing '" +:+ keyword +:+ "':")
                   :: (map (fun m => "  📛 " +:+ km_name m +:+ " (" +:+
                                     km_match_type m +:+ ": " +:+
                                     km_match_text m +:+ ")")
                           (take 15 matches)
                         ++ (if (15 <? length matches)%nat
                             then ["  ... and " +:+
                                   pystr.of_int (Z.of_nat (length matches) - 15) +:+
                                   " more matches"]
                             else []))%list))
      end.
Proof.
  unfold search_classes_by_keyword, keyword_matches. cbv zeta.
  by destruct (concat _).
Qed.

Lemma filter_nil_existsb {A : Type} (p : A -> bool) (l : list A) :
  filter (fun x => p x = true) l = [] <-> existsb p l = false.
Proof.
  induction l as [|x l IH]; [done|].
  destruct (decide (p x = true)) as [Hp|Hp].
  - rewrite filter_cons_True by done. simpl. by rewrite Hp.
  - rewrite filter_cons_False by done. simpl.
    apply not_true_is_false in Hp. by rewrite Hp.
Qed.

Lemma class_matches_length keyword_lower cls :
  if mentions keyword_lower cls
  then (1 <= length (class_matches keyword_lower cls) <= 2)%nat
  else class_matches keyword_lower cls = [].
Proof.
  unfold mentions, class_matches.
  destruct (cls_name cls) as [name|]; [|done].
  destruct (pystr.contains keyword_lower (pystr.lower name)); simpl; [lia|].
  destruct (existsb _ (cls_label cls)) eqn:Hl;
    destruct (existsb _ (cls_comment cls)) eqn:Hc; simpl.
  - destruct (filter _ (cls_label cls)) as [|l ls] eqn:Hfl;
      [by apply filter_nil_existsb in Hfl; congruence|].
    destruct (filter _ (cls_comment cls)) as [|c cs] eqn:Hfc;
      [by apply filter_nil_existsb in Hfc; congruence|].
    simpl. lia.
  - destruct (filter _ (cls_label cls)) as [|l ls] eqn:Hfl;
      [by apply filter_nil_existsb in Hfl; congruence|].
    apply filter_nil_existsb in Hc. rewrite Hc. simpl. lia.
  - destruct (filter _ (cls_comment cls)) as [|c cs] eqn:Hfc;
      [by apply filter_nil_existsb in Hfc; congruence|].
    apply filter_nil_existsb in Hl. rewrite Hl. simpl. lia.
  - apply filter_nil_existsb in Hl, Hc. by rewrite Hl, Hc.
Qed.

Lemma matches_between keyword_lower classes :
  (length (filter (fun cls => mentions keyword_lower cls = true) classes)
     <= length (concat (map (class_matches keyword_lower) classes))
     <= 2 * length (filter (fun cls => mentions keyword_lower cls = true) classes))%nat.
Proof.
  induction classes as [|cls classes IH]; [simpl; lia|].
  pose proof (class_matches_length keyword_lower cls) as Hcls.
  cbn [map concat]. rewrite length_app.
  destruct (decide (mentions keyword_lower cls = true)) as [Hmen|Hmen].
  - rewrite filter_cons_True by done. rewrite Hmen in Hcls. simpl. lia.
  - rewrite filter_cons_False by done.
    apply not_true_is_false in Hmen. rewrite Hmen in Hcls. rewrite Hcls.
    simpl. lia.
Qed.

(** X15. The keyword search always returns a text.  It reports that no
    class was found exactly when no named class of the world holds the
    keyword in its name, a label or a comment, ignoring the case of the
    keyword and of the texts. *)
Theorem keyword_search_finds_nothing_iff st keyword :
  (exists text, search_classes_by_keyword st keyword = Ok text) /\
  (search_classes_by_keyword st keyword = Ok (keyword_not_found keyword)
   <-> forall cls, cls ∈ world_classes st ->
                   mentions (pystr.lower keyword) cls = false).
Proof.
  rewrite search_by_matches.
  pose proof (matches_between (pystr.lower keyword) (world_classes st)) as Hlen.
  rewrite <- keyword_matches_world in Hlen.
  destruct (keyword_matches st keyword) as [|m ms] eqn:Hm.
  - split; [by eexists|]. split; [|done].
    intros _ cls Hcls. simpl in Hlen.
    destruct (mentions (pystr.lower keyword) cls) eqn:Hmen; [|done].
    assert (Hin : cls ∈ filter (fun cls => mentions (pystr.lower keyword) cls = true)
                               (world_classes st))
      by (by apply list_elem_of_filter).
    destruct (filter _ (world_classes st)); [by apply elem_of_nil in Hin|].
    simpl in Hlen. lia.
  - split; [by eexists|]. split.
    + by intros [= Heq].
    + intros Hnone. exfalso.
      destruct (filter (fun cls => mentions (pystr.lower keyword) cls = true)
                       (world_classes st)) as [|cls cs] eqn:Hf;
        [simpl in Hlen; lia|].
      assert (Hin : cls ∈ filter (fun cls => mentions (pystr.lower keyword) cls = true)
                                 (world_classes st))
        by (rewrite Hf; left).
      apply list_elem_of_filter in Hin as [Hmen Hcls].
      by rewrite (Hnone cls Hcls) in Hmen.
Qed.

Lemma keyword_search_finds_nothing_iff_witness :
  search_classes_by_keyword demo.loaded "Zebra" = Ok (keyword_not_found "Zebra").
Proof.
  apply (proj2 (keyword_search_finds_nothing_iff demo.loaded "Zebra")).
  apply Forall_forall.
  refine (bool_decide_unpack _ _). vm_compute. exact I.
Defined.

(** X16. The number in the header of the keyword search counts entries,
    not classes: a class whose name does not hold the keyword adds one
    entry for a matching label and another for a matching comment.  So
    the number is at least the number of classes that hold the keyword
    and at most twice that number. *)
Theorem keyword_search_counts_entries st keyword :
  keyword_matches st keyword <> [] ->
  (exists lines,
     search_classes_by_keyword st keyword
       = Ok (pystr.join nl
               (("🔍 Found " +:+
                 pystr.of_int (Z.of_nat (length (keyword_matches st keyword))) +:+
                 " classes containing '" +:+ keyword +:+ "':") :: lines))) /\
  (length (filter (fun cls => mentions (pystr.lower keyword) cls = true)
                  (world_classes st))
     <= length (keyword_matches st keyword)
     <= 2 * length (filter (fun cls => mentions (pystr.lower keyword) cls = true)
                           (world_classes st)))%nat.
Proof.
  intros Hsome. split.
  - rewrite search_by_matches.
    destruct (keyword_matches st keyword) as [|m ms]; [done|]. by eexists.
  - rewrite keyword_matches_world. apply matches_between.
Qed.

Lemma keyword_search_counts_entries_witness :
  (exists lines,
     search_classes_by_keyword labelled "Share"
       = Ok (pystr.join nl
               (("🔍 Found " +:+
                 pystr.of_int (Z.of_nat (length (keyword_matches labelled "Share"))) +:+
                 " classes containing '" +:+ "Share" +:+ "':") :: lines))) /\
  (length (filter (fun cls => mentions (pystr.lower "Share") cls = true)
                  (world_classes labelled))
     <= length (keyword_matches labelled "Share")
     <= 2 * length (filter (fun cls => mentions (pystr.lower "Share") cls = true)
                           (world_classes labelled)))%nat.
Proof.
  apply (keyword_search_counts_entries labelled "Share").
  vm_compute. discriminate.
Defined.

(** The one class of [labelled] is reported twice. *)
Example labelled_class_counted_twice :
  length (keyword_matches labelled "Share") = 2%nat /\
  length (world_classes labelled) = 1%nat.
Proof. by vm_compute. Qed.

(** ** Module sets *)

Lemma module_set_of_None key :
  module_set_of key = None <-> key ∉ module_set_keys.
Proof.
  unfold module_set_of, module_set_keys.
  induction MODULE_SETS as [|[k v] l IH]; simpl.
  - split; [|done]. intros _ H. by apply elem_of_nil in H.
  - destruct (decide (k = key)) as [->|Hne].
    + rewrite filter_cons_True by done. simpl. split; [done|].
      intros H. exfalso. apply H. left.
    + rewrite filter_cons_False by done. rewrite IH. split.
      * intros H [?|?]%elem_of_cons; [congruence|done].
      * intros H Hin. apply H. by right.
Qed.

Lemma module_set_of_Some key info :
  module_set_of key = Some info -> (key, info) ∈ MODULE_SETS.
Proof.
  unfold module_set_of.
  destruct (filter _ MODULE_SETS) as [|[k v] l] eqn:Hf; [done|].
  simpl. intros [= <-].
  assert (Hin : (k, v) ∈ filter (fun entry => fst entry = key) MODULE_SETS)
    by (rewrite Hf; left).
  apply list_elem_of_filter in Hin as [Hk Hin]. simpl in Hk. by subst.
Qed.

Lemma module_set_of_known key :
  key ∈ module_set_keys -> exists info, module_set_of key = Some info.
Proof.
  intros Hin. destruct (module_set_of key) as [info|] eqn:Hset; [by eexists|].
  by apply module_set_of_None in Hset.
Qed.

Lemma module_sets_not_empty key info :
  module_set_of key = Some info -> ms_modules info <> [].
Proof.
  intros Hin%module_set_of_Some.
  assert (H : Forall (fun entry => ms_modules (snd entry) <> []) MODULE_SETS)
    by (repeat constructor; done).
  rewrite Forall_forall in H. apply (H _ Hin).
Qed.


Section LoadingFacts.
Variable path_exists : string -> bool.
Variable load_into : list Ontology -> string -> list Ontology * option Ontology.

#[local] Abbreviation load := (fibo_modules.load_fibo_modules path_exists load_into).
#[local] Abbreviation switch := (fibo_modules.switch_module_set path_exists load_into).
#[local] Abbreviation loop := (fibo_modules.load_modules path_exists load_into).

Lemma load_modules_step module rest p :
  loop (module :: rest) p
    = loop rest
        (if path_exists module then
           match load_into (lp_world p) module with
           | (world, Some ontology) =>
               {| lp_world := world;
                  lp_onto := if (lp_loaded_count p =? 0)%nat
                             then Some ontology else lp_onto p;
                  lp_loaded_count := S (lp_loaded_count p);
                  lp_failed_modules := lp_failed_modules p |}
           | (world, None) =>
               {| lp_world := world;
                  lp_onto := lp_onto p;
                  lp_loaded_count := lp_loaded_count p;
                  lp_failed_modules := (lp_failed_modules p ++ [module])%list |}
           end
         else
           {| lp_world := lp_world p;
              lp_onto := lp_onto p;
              lp_loaded_count := lp_loaded_count p;
              lp_failed_modules := (lp_failed_modules p ++ [module])%list |}).
Proof. reflexivity. Qed.

Lemma load_modules_accounts modules : forall p,
  (lp_loaded_count (loop modules p) + length (lp_failed_modules (loop modules p))
     = lp_loaded_count p + length (lp_failed_modules p) + length modules)%nat /\
  exists failed,
    lp_failed_modules (loop modules p) = (lp_failed_modules p ++ failed)%list /\
    failed `sublist_of` modules.
Proof.
  induction modules as [|module rest IH]; intros p.
  - simpl. split; [lia|]. exists []. by rewrite app_nil_r.
  - rewrite load_modules_step.
    destruct (path_exists module);
      [destruct (load_into (lp_world p) module) as [world [ontology|]]|];
      match goal with
      | |- context [loop rest ?q] =>
          destruct (IH q) as (Hsum & failed & Hfailed & Hsub)
      end;
      simpl in Hsum, Hfailed; rewrite Hsum, Hfailed.
    + split; [simpl; lia|]. exists failed. split; [done|by apply sublist_cons].
    + split; [rewrite length_app; simpl; lia|].
      exists (module :: failed). rewrite <- app_assoc. split; [done|].
      by apply sublist_skip.
    + split; [rewrite length_app; simpl; lia|].
      exists (module :: failed). rewrite <- app_assoc. split; [done|].
      by apply sublist_skip.
Qed.

Lemma load_modules_keeps_onto modules : forall p,
  (0 < lp_loaded_count p)%nat ->
  lp_onto (loop modules p) = lp_onto p /\
  (0 < lp_loaded_count (loop modules p))%nat.
Proof.
  induction modules as [|module rest IH]; intros p Hpos; [done|].
  rewrite load_modules_step.
  destruct (path_exists module);
    [destruct (load_into (lp_world p) module) as [world [ontology|]]|].
  - match goal with
    | |- context [loop rest ?q] =>
        destruct (IH q) as [Honto Hcount]; [simpl; lia|]
    end.
    rewrite Honto. simpl. split; [|done].
    destruct (lp_loaded_count p); [lia|done].
  - match goal with
    | |- context [loop rest ?q] => destruct (IH q) as [Honto Hcount]; [done|]
    end.
    by rewrite Honto.
  - match goal with
    | |- context [loop rest ?q] => destruct (IH q) as [Honto Hcount]; [done|]
    end.
    by rewrite Honto.
Qed.

Lemma load_modules_first modules : forall p,
  lp_loaded_count p = 0%nat ->
  (lp_loaded_count (loop modules p) = 0%nat /\
   lp_onto (loop modules p) = lp_onto p) \/
  ((0 < lp_loaded_count (loop modules p))%nat /\
   is_Some (lp_onto (loop modules p))).
Proof.
  induction modules as [|module rest IH]; intros p Hzero; [by left|].
  rewrite load_modules_step.
  destruct (path_exists module);
    [destruct (load_into (lp_world p) module) as [world [ontology|]]|].
  - right. rewrite Hzero. simpl.
    match goal with
    | |- context [loop rest ?q] =>
        destruct (load_modules_keeps_onto rest q) as [Honto Hcount]
    end; [simpl; lia|].
    split; [done|]. rewrite Honto. by eexists.
  - match goal with
    | |- context [loop rest ?q] => destruct (IH q) as [[Hc Ho]|[Hc Ho]]
    end; [done|left; by rewrite Hc, Ho|by right].
  - match goal with
    | |- context [loop rest ?q] => destruct (IH q) as [[Hc Ho]|[Hc Ho]]
    end; [done|left; by rewrite Hc, Ho|by right].
Qed.


Lemma load_fibo_modules_known name info s :
  module_set_of name = Some info ->
  load name s
    = ({| kb := {| onto := lp_onto (loop (ms_modules info)
                              {| lp_world := []; lp_onto := onto (kb s);
                                 lp_loaded_count := 0; lp_failed_modules := [] |});
                   default_world :=
                     lp_world (loop (ms_modules info)
                              {| lp_world := []; lp_onto := onto (kb s);
                                 lp_loaded_count := 0; lp_failed_modules := [] |}) |};
          CURRENT_MODULE_SET := name;
          MODULE_FILES := ms_modules info |},
       load_report
         (lp_loaded_count (loop (ms_modules info)
                              {| lp_world := []; lp_onto := onto (kb s);
                                 lp_loaded_count := 0; lp_failed_modules := [] |}))
         (length (ms_modules info))
         (lp_failed_modules (loop (ms_modules info)
                              {| lp_world := []; lp_onto := onto (kb s);
                                 lp_loaded_count := 0; lp_failed_modules := [] |}))).
Proof.
  intros Hset. unfold fibo_modules.load_fibo_modules, load_report.
  rewrite Hset. cbv zeta. f_equal. by destruct (lp_failed_modules _).
Qed.

Lemma load_fibo_modules_unknown name s :
  name ∉ module_set_keys ->
  load name s
    = (s, "❌ Invalid module set. Available options: core, comprehensive, banking, securities").
Proof.
  intros Hset%module_set_of_None.
  unfold fibo_modules.load_fibo_modules. by rewrite Hset.
Qed.

Lemma load_keeps_consistent name s :
  consistent s -> consistent (fst (load name s)).
Proof.
  intros Hs. destruct (module_set_of name) as [info|] eqn:Hset.
  - rewrite (load_fibo_modules_known name info) by done. by exists info.
  - unfold fibo_modules.load_fibo_modules. by rewrite Hset.
Qed.

Lemma switch_keeps_consistent name s :
  consistent s -> consistent (fst (switch name s)).
Proof.
  intros Hs. unfold fibo_modules.switch_module_set.
  case_bool_decide; [done|].
  pose proof (load_keeps_consistent name s Hs) as Hload.
  by destruct (load name s).
Qed.

(** X17. [load_fibo_modules] with a name that is no module set changes
    nothing: the world is not reset and the current set stays.
    [switch_module_set] does not check the name: for such a name, other
    than the current one, it too changes nothing, yet its reply starts
    with "Switched to module set". *)
Theorem unknown_set_changes_nothing name s :
  name ∉ module_set_keys ->
  fst (load name s) = s /\
  (name <> CURRENT_MODULE_SET s ->
   switch name s
     = (s, "🔄 Switched to module set '" +:+ name +:+ "'" +:+ nl +:+
           "❌ Invalid module set. Available options: core, comprehensive, banking, securities")).
Proof.
  intros Hname. rewrite load_fibo_modules_unknown by done. split; [done|].
  intros Hother. unfold fibo_modules.switch_module_set.
  rewrite bool_decide_eq_false_2 by done.
  by rewrite load_fibo_modules_unknown.
Qed.

(** X18. Loading a module set accounts for every module of the set: each
    is counted as loaded or listed as failed, and the reply reports these
    two numbers.  The world is built anew and the set becomes the current
    one whatever loads.  The global [onto] becomes an ontology as soon as
    one module loads; when none loads it keeps the value it had, which
    then refers to an ontology of the world that was dropped. *)
Theorem load_accounts_for_every_module name info s :
  module_set_of name = Some info ->
  exists loaded failed,
    (loaded + length failed = length (ms_modules info))%nat /\
    failed `sublist_of` ms_modules info /\
    snd (load name s) = load_report loaded (length (ms_modules info)) failed /\
    CURRENT_MODULE_SET (fst (load name s)) = name /\
    MODULE_FILES (fst (load name s)) = ms_modules info /\
    (loaded = 0%nat -> onto (kb (fst (load name s))) = onto (kb s)) /\
    ((0 < loaded)%nat -> is_Some (onto (kb (fst (load name s))))).
Proof.
  intros Hset. rewrite (load_fibo_modules_known name info) by done.
  match goal with
  | |- context [loop (ms_modules info) ?q] =>
      destruct (load_modules_accounts (ms_modules info) q)
        as (Hsum & failed & Hfailed & Hsub);
      destruct (load_modules_first (ms_modules info) q eq_refl)
        as [[Hcount Honto]|[Hcount Honto]]
  end; simpl in *.
  - eexists _, _. repeat split; try done; [by rewrite Hfailed|lia].
  - eexists _, _. repeat split; try done; [by rewrite Hfailed|lia].
Qed.


End LoadingFacts.

Lemma module_keywords_known user_lower module_name :
  snd <$> head (filter (fun entry => pystr.contains (fst entry) user_lower = true)
                       module_keywords) = Some module_name ->
  module_name ∈ module_set_keys.
Proof.
  destruct (filter _ module_keywords) as [|[phrase m] l] eqn:Hf; [done|].
  simpl. intros [= <-].
  assert (Hin : (phrase, m) ∈ filter (fun entry => pystr.contains (fst entry) user_lower = true)
                                     module_keywords)
    by (rewrite Hf; left).
  apply list_elem_of_filter in Hin as [_ Hin].
  assert (H : Forall (fun entry => snd entry ∈ module_set_keys) module_keywords)
    by (refine (bool_decide_unpack _ _); vm_compute; exact I).
  rewrite Forall_forall in H. apply (H _ Hin).
Qed.

Lemma remove_dups_not_nil {A : Type} `{EqDecision A} (l : list A) :
  l <> [] -> remove_dups l <> [].
Proof.
  destruct l as [|x l]; [done|]. intros _ Hnil.
  assert (Hin : x ∈ remove_dups (x :: l)) by (apply elem_of_remove_dups; left).
  rewrite Hnil in Hin. by apply elem_of_nil in Hin.
Qed.

Lemma compare_known_sets set1 set2 :
  set1 ∈ module_set_keys -> set2 ∈ module_set_keys ->
  exists c, compare_module_sets set1 set2 = Returned (inr c).
Proof.
  intros (info1 & H1)%module_set_of_known (info2 & H2)%module_set_of_known.
  unfold compare_module_sets. rewrite H1, H2. cbv zeta.
  pose proof (remove_dups_not_nil _ (module_sets_not_empty _ _ H1)) as Hne.
  destruct (remove_dups (ms_modules info1)) as [|m ms] eqn:Hm; [done|].
  simpl length. rewrite (proj2 (Nat.eqb_neq _ 0)) by lia. by eexists.
Qed.

Section AwarenessFacts.
Variable entity : Type.
Variable search_one : Ontology -> string -> option entity.
Variable render : string -> Ontology -> list entity -> list string -> string.
Variable render_stats : module_state -> string.
Variable call_local_llm : string -> bool -> string.
Variable json_loads : string -> option plan.
Variable plan_str : plan -> string.
Variable gemma_synthesize_results : string -> list tool_result -> string.
Variable path_exists : string -> bool.
Variable load_into : list Ontology -> string -> list Ontology * option Ontology.
Variable format_overlap : nat -> nat -> string.

#[local] Abbreviation current_info := (get_current_module_info render_stats).
#[local] Abbreviation switch_fibo :=
  (switch_fibo_module_set render_stats path_exists load_into).
#[local] Abbreviation aware :=
  (run_query_with_module_awareness entity search_one render render_stats
     call_local_llm json_loads plan_str gemma_synthesize_results
     path_exists load_into format_overlap).
#[local] Abbreviation planner_query s :=
  (run_natural_language_query entity search_one render (stats_of render_stats s)
     call_local_llm json_loads plan_str gemma_synthesize_results (kb s)).

Lemma current_info_known s info :
  module_set_of (CURRENT_MODULE_SET s) = Some info ->
  exists stats,
    current_info s
      = Returned ({| mi_name := CURRENT_MODULE_SET s;
                     mi_display_name := ms_name info;
                     mi_module_count := length (ms_modules info);
                     mi_modules := ms_modules info |}, stats).
Proof.
  intros Hset. unfold get_current_module_info, get_ontology_stats.
  rewrite Hset. destruct (default_world (kb s)); by eexists.
Qed.

Lemma switch_module_set_current name s :
  name ∈ module_set_keys ->
  CURRENT_MODULE_SET
    (fst (fibo_modules.switch_module_set path_exists load_into name s)) = name.
Proof.
  intros (info & Hset)%module_set_of_known.
  unfold fibo_modules.switch_module_set. case_bool_decide; [done|].
  by rewrite (load_fibo_modules_known _ _ name info).
Qed.

Lemma switch_fibo_known name s :
  name ∈ module_set_keys ->
  exists info stats,
    switch_fibo name s
      = (fst (fibo_modules.switch_module_set path_exists load_into name s),
         {| sr_success := true;
            sr_message :=
              snd (fibo_modules.switch_module_set path_exists load_into name s);
            sr_available_sets := None;
            sr_current_info := Some info;
            sr_stats := Some stats; sr_error := None |}).
Proof.
  intros Hname. pose proof (switch_module_set_current name s Hname) as Hcur.
  destruct (module_set_of_known name Hname) as (info & Hset).
  unfold switch_fibo_module_set. rewrite Hset.
  destruct (fibo_modules.switch_module_set path_exists load_into name s)
    as [s' result]. simpl in *.
  destruct (current_info_known s' info) as (stats & ->); [by rewrite Hcur|].
  by eexists _, _.
Qed.

(** X20. [switch_fibo_module_set] reports success exactly for the names
    of module sets, whatever the loading did: also when no module loaded,
    and when the set was the current one already, in which case nothing
    is loaded and the state stays as it is.  After a success the set is
    the current one; a name that is no module set changes nothing. *)
Theorem switch_reports_success_for_known_sets name s :
  (sr_success (snd (switch_fibo name s)) = true <-> name ∈ module_set_keys) /\
  (name ∈ module_set_keys ->
   CURRENT_MODULE_SET (fst (switch_fibo name s)) = name) /\
  (name ∈ module_set_keys -> name = CURRENT_MODULE_SET s ->
   fst (switch_fibo name s) = s /\
   sr_message (snd (switch_fibo name s))
     = "ℹ️ Already using module set '" +:+ name +:+ "'") /\
  (name ∉ module_set_keys -> fst (switch_fibo name s) = s).
Proof.
  destruct (decide (name ∈ module_set_keys)) as [Hname|Hname].
  - destruct (switch_fibo_known name s Hname) as (info & stats & ->). simpl.
    split; [done|]. split; [intros _; by apply switch_module_set_current|].
    split; [|done]. intros _ Hcur.
    unfold fibo_modules.switch_module_set.
    by rewrite bool_decide_eq_true_2.
  - pose proof Hname as Hnone%module_set_of_None.
    unfold switch_fibo_module_set. rewrite Hnone. simpl.
    split; [split; [done|by intros]|]. split; [done|]. split; done.
Qed.

(** X21. A query that holds one of the twelve switch phrases, ignoring
    case, never reaches the planner: no model is asked and no tool runs.
    The module set of the first such phrase in the order of
    [module_keywords] becomes the current one, and the reply always says
    that the switch succeeded, followed by the reply of
    [switch_module_set] and the statistics. *)
Theorem switch_phrase_preempts_the_planner user_input s module_name :
  switch_request (pystr.lower user_input) = Some module_name ->
  exists s' stats,
    aware user_input s
      = (s', ([], Returned
                    ("✅ **Module Set Switched Successfully!**" +:+ nl +:+ nl +:+
                     snd (fibo_modules.switch_module_set path_exists load_into
                            module_name s) +:+ nl +:+ nl +:+
                     "📊 **New Stats:**" +:+ nl +:+ stats))) /\
    CURRENT_MODULE_SET s' = module_name.
Proof.
  intros Hreq. pose proof (module_keywords_known _ _ Hreq) as Hname.
  unfold run_query_with_module_awareness. rewrite Hreq.
  destruct (switch_fibo_known module_name s Hname) as (info & stats & ->).
  eexists _, stats. split; [reflexivity|].
  by apply switch_module_set_current.
Qed.

(** X22. A query without a switch phrase leaves the state of the module
    sets as it is.  From a state in which the current set is a module
    set, the module layer keeps that property and raises nothing of its
    own: the lookups of the current set do not fail, a comparison is
    always computed, and an exception can only be one that
    [run_natural_language_query] raised for the same text. *)
Theorem module_layer_is_safe user_input s :
  (switch_request (pystr.lower user_input) = None ->
   fst (aware user_input s) = s) /\
  (consistent s ->
   consistent (fst (aware user_input s)) /\
   forall e, snd (snd (aware user_input s)) = Thrown e ->
     exists e', e = Native e' /\ snd (planner_query s user_input) = Raise e').
Proof.
  assert (Hplain : forall e,
            snd (plain_query entity search_one render render_stats call_local_llm
                   json_loads plan_str gemma_synthesize_results user_input s)
              = Thrown e ->
            exists e', e = Native e' /\ snd (planner_query s user_input) = Raise e').
  { unfold plain_query. destruct (planner_query s user_input) as [t [text|e']]; simpl.
    - done.
    - intros e [= <-]. by eexists. }
  unfold run_query_with_module_awareness.
  destruct (switch_request (pystr.lower user_input)) as [module_name|] eqn:Hreq.
  - split; [done|]. intros Hs.
    pose proof (module_keywords_known _ _ Hreq) as Hname.
    destruct (switch_fibo_known module_name s Hname) as (info & stats & ->).
    simpl. split; [|done].
    by apply switch_keeps_consistent.
  - destruct (asks_information (pystr.lower user_input)).
    { split.
      - intros _. by destruct (current_info s) as [[? ?]|?].
      - intros Hs. pose proof Hs as (info & Hset & _).
        destruct (current_info_known s info Hset) as (stats & ->). done. }
    destruct (asks_comparison (pystr.lower user_input)); [|by split].
    split.
    + intros _. destruct (current_info s) as [[info ?]|?]; [|done].
      case_bool_decide; [|done].
      by destruct (compare_module_sets _ _) as [[?|?]|?].
    + intros Hs. pose proof Hs as (info & Hset & _).
      destruct (current_info_known s info Hset) as (stats & ->).
      cbn [mi_name]. case_bool_decide; [|by split].
      destruct (compare_known_sets (CURRENT_MODULE_SET s) "comprehensive")
        as (c & ->).
      * destruct (module_set_of (CURRENT_MODULE_SET s)) eqn:Hk; [|done].
        destruct (decide (CURRENT_MODULE_SET s ∈ module_set_keys)) as [|Hn];
          [done|].
        apply module_set_of_None in Hn. congruence.
      * refine (bool_decide_unpack _ _). vm_compute. exact I.
      * done.
Qed.

End AwarenessFacts.

Lemma unknown_set_changes_nothing_witness :
  fst (fibo_modules.load_fibo_modules no_file never_loads "trading" core_loaded)
    = core_loaded /\
  fibo_modules.switch_module_set no_file never_loads "trading" core_loaded
    = (core_loaded,
       "🔄 Switched to module set '" +:+ "trading" +:+ "'" +:+ nl +:+
       "❌ Invalid module set. Available options: core, comprehensive, banking, securities").
Proof.
  destruct (unknown_set_changes_nothing no_file never_loads "trading" core_loaded)
    as [Hload Hswitch].
  { refine (bool_decide_unpack _ _). vm_compute. exact I. }
  split; [exact Hload|]. apply Hswitch. done.
Defined.

Lemma load_accounts_for_every_module_witness :
  exists loaded failed,
    (loaded + length failed = 6)%nat /\
    failed `sublist_of`
      ["FND/Accounting/AccountingEquity.rdf";
       "FND/Accounting/CurrencyAmount.rdf";
       "FBC/FinancialInstruments/FinancialInstruments.rdf";
       "FBC/ProductsAndServices/FinancialProductsAndServices.rdf";
       "FBC/FunctionalEntities/FinancialServicesEntities.rdf";
       "FBC/DebtAndEquities/Debt.rdf"] /\
    snd (fibo_modules.load_fibo_modules no_file never_loads "banking" core_loaded)
      = load_report loaded 6 failed /\
    CURRENT_MODULE_SET
      (fst (fibo_modules.load_fibo_modules no_file never_loads "banking" core_loaded))
      = "banking" /\
    MODULE_FILES
      (fst (fibo_modules.load_fibo_modules no_file never_loads "banking" core_loaded))
      = ["FND/Accounting/AccountingEquity.rdf";
         "FND/Accounting/CurrencyAmount.rdf";
         "FBC/FinancialInstruments/FinancialInstruments.rdf";
         "FBC/ProductsAndServices/FinancialProductsAndServices.rdf";
         "FBC/FunctionalEntities/FinancialServicesEntities.rdf";
         "FBC/DebtAndEquities/Debt.rdf"] /\
    (loaded = 0%nat ->
     onto (kb (fst (fibo_modules.load_fibo_modules no_file never_loads "banking"
                      core_loaded)))
       = onto (kb core_loaded)) /\
    ((0 < loaded)%nat ->
     is_Some (onto (kb (fst (fibo_modules.load_fibo_modules no_file never_loads
                               "banking" core_loaded))))).
Proof.
  exact (load_accounts_for_every_module no_file never_loads "banking"
           {| ms_name := "Banking & Financial Services";
              ms_modules :=
                ["FND/Accounting/AccountingEquity.rdf";
                 "FND/Accounting/CurrencyAmount.rdf";
                 "FBC/FinancialInstruments/FinancialInstruments.rdf";
                 "FBC/ProductsAndServices/FinancialProductsAndServices.rdf";
                 "FBC/FunctionalEntities/FinancialServicesEntities.rdf";
                 "FBC/DebtAndEquities/Debt.rdf"] |}
           core_loaded eq_refl).
Defined.


Lemma switch_reports_success_for_known_sets_witness :
  (sr_success (snd (switch_fibo_module_set (fun _ => "statistics") no_file
                      never_loads "core" initial_state)) = true /\
   CURRENT_MODULE_SET
     (fst (switch_fibo_module_set (fun _ => "statistics") no_file never_loads
             "core" initial_state)) = "core" /\
   fst (switch_fibo_module_set (fun _ => "statistics") no_file never_loads
          "core" initial_state) = initial_state /\
   sr_message (snd (switch_fibo_module_set (fun _ => "statistics") no_file
                      never_loads "core" initial_state))
     = "ℹ️ Already using module set '" +:+ "core" +:+ "'") /\
  fst (switch_fibo_module_set (fun _ => "statistics") no_file never_loads
         "trading" initial_state) = initial_state.
Proof.
  assert (Hcore : "core" ∈ module_set_keys)
    by (refine (bool_decide_unpack _ _); vm_compute; exact I).
  assert (Htrading : "trading" ∉ module_set_keys)
    by (refine (bool_decide_unpack _ _); vm_compute; exact I).
  destruct (switch_reports_success_for_known_sets (fun _ => "statistics") no_file
              never_loads "core" initial_state) as (Hiff & Hcur & Hsame & _).
  destruct (switch_reports_success_for_known_sets (fun _ => "statistics") no_file
              never_loads "trading" initial_state) as (_ & _ & _ & Hnone).
  split; [|exact (Hnone Htrading)].
  split; [exact (proj2 Hiff Hcore)|].
  split; [exact (Hcur Hcore)|].
  exact (Hsame Hcore eq_refl).
Defined.

Lemma switch_phrase_preempts_the_planner_witness :
  exists s' stats,
    aware_query initial_state "How do banks use core capital?"
      = (s', ([], Returned
                    ("✅ **Module Set Switched Successfully!**" +:+ nl +:+ nl +:+
                     snd (fibo_modules.switch_module_set no_file never_loads
                            "core" initial_state) +:+ nl +:+ nl +:+
                     "📊 **New Stats:**" +:+ nl +:+ stats))) /\
    CURRENT_MODULE_SET s' = "core".
Proof.
  unfold aware_query.
  apply switch_phrase_preempts_the_planner.
  vm_compute. reflexivity.
Defined.

Lemma module_layer_is_safe_witness :
  fst (aware_query core_loaded "Which module sets are there?") = core_loaded /\
  consistent (fst (aware_query core_loaded "Which module sets are there?")) /\
  forall e,
    snd (snd (aware_query core_loaded "Which module sets are there?")) = Thrown e ->
    exists e',
      e = Native e' /\
      snd (run_natural_language_query demo.entity demo.search_one demo.render
             (stats_of (fun _ => "statistics") core_loaded)
             (demo.call_local_llm "not json") (demo.json_loads [])
             demo.plan_str demo.gemma_synthesize_results (kb core_loaded)
             "Which module sets are there?") = Raise e'.
Proof.
  unfold aware_query.
  destruct (module_layer_is_safe demo.entity demo.search_one demo.render
              (fun _ => "statistics") (demo.call_local_llm "not json")
              (demo.json_loads []) demo.plan_str demo.gemma_synthesize_results
              no_file never_loads format_overlap_demo
              "Which module sets are there?" core_loaded) as [Hsame Hsafe].
  split; [apply Hsame; vm_compute; reflexivity|].
  apply Hsafe. eexists. split; reflexivity.
Defined.

(** ** The test battery *)

Lemma head_filter_None {A : Type} (P : A -> Prop) `{!forall x, Decision (P x)}
    (l : list A) :
  head (filter P l) = None <-> forall x, x ∈ l -> ~ P x.
Proof.
  rewrite head_None. split.
  - intros Hnil x Hx HP.
    assert (Hin : x ∈ filter P l) by (by apply list_elem_of_filter).
    rewrite Hnil in Hin. by apply elem_of_nil in Hin.
  - intros Hall. destruct (filter P l) as [|x xs] eqn:Hf; [done|].
    assert (Hin : x ∈ filter P l) by (rewrite Hf; left).
    apply list_elem_of_filter in Hin as [HP Hx]. by destruct (Hall x Hx).
Qed.

Lemma filter_split_length {A : Type} (p : A -> bool) (l : list A) :
  (length (filter (fun x => p x = true) l)
     + length (filter (fun x => p x = false) l) = length l)%nat.
Proof.
  induction l as [|x l IH]; [done|].
  destruct (p x) eqn:Hp.
  - rewrite filter_cons_True, filter_cons_False by (rewrite ?Hp; done).
    simpl. lia.
  - rewrite filter_cons_False, filter_cons_True by (rewrite ?Hp; done).
    simpl. lia.
Qed.

Lemma update_stats_keys cat passed stats :
  map fst (update_stats cat passed stats)
    = if bool_decide (cat ∈ map fst stats) then map fst stats
      else (map fst stats ++ [cat])%list.
Proof.
  induction stats as [|[key c] rest IH]; [done|].
  cbn [update_stats map fst]. destruct (decide (key = cat)) as [->|Hkey].
  - rewrite bool_decide_eq_true_2 by done. cbn [map fst].
    rewrite bool_decide_eq_true_2; [done|left].
  - rewrite bool_decide_eq_false_2 by done. cbn [map fst]. rewrite IH.
    destruct (decide (cat ∈ map fst rest)) as [Hin|Hin].
    + rewrite !bool_decide_eq_true_2; [done|by right|done].
    + rewrite !bool_decide_eq_false_2; [done| |done].
      intros [?|?]%elem_of_cons; [by subst|done].
Qed.

Lemma update_stats_NoDup cat passed stats :
  NoDup (map fst stats) -> NoDup (map fst (update_stats cat passed stats)).
Proof.
  intros Hnd. rewrite update_stats_keys. case_bool_decide; [done|].
  apply NoDup_app. repeat split; [done| |apply NoDup_singleton].
  intros x Hx Hin. apply list_elem_of_singleton in Hin. by subst.
Qed.

Lemma update_stats_sums cat passed stats :
  sum_total (update_stats cat passed stats) = S (sum_total stats) /\
  sum_passed (update_stats cat passed stats)
    = ((if passed then 1 else 0) + sum_passed stats)%nat.
Proof.
  induction stats as [|[key c] rest [IHt IHp]]; [by destruct passed|].
  cbn [update_stats]. destruct (bool_decide (key = cat)).
  - unfold sum_total, sum_passed. simpl. destruct passed; lia.
  - unfold sum_total, sum_passed in *. simpl. rewrite IHt, IHp.
    destruct passed; lia.
Qed.

Lemma update_stats_balanced cat passed stats :
  Forall (fun entry => (cs_passed (snd entry) + cs_failed (snd entry)
                          = cs_total (snd entry))%nat) stats ->
  Forall (fun entry => (cs_passed (snd entry) + cs_failed (snd entry)
                          = cs_total (snd entry))%nat)
         (update_stats cat passed stats).
Proof.
  induction 1 as [|[key c] rest Hc Hrest IH].
  - constructor; [|done]. simpl. by destruct passed.
  - cbn [update_stats]. destruct (bool_decide (key = cat)).
    + constructor; [|done]. simpl in *. destruct passed; lia.
    + by constructor.
Qed.

Section BatteryFacts.
Variable entity : Type.
Variable search_one : Ontology -> string -> option entity.
Variable render : string -> Ontology -> list entity -> list string -> string.
Variable render_stats : kb_state -> string.
Variable call_local_llm : string -> bool -> string.
Variable json_loads : string -> option plan.
Variable plan_str : plan -> string.
Variable gemma_synthesize_results : string -> list tool_result -> string.
Variable st : kb_state.
Variable time : Type.
Variable clock : TestCase -> time.
Variable average : list time -> time.
Variable slowest : list time -> time.
Variable fastest : list time -> time.
Variable format_seconds : time -> string.
Variable format_rate : nat -> nat -> string.

#[local] Abbreviation query :=
  (run_natural_language_query entity search_one render render_stats
     call_local_llm json_loads plan_str gemma_synthesize_results st).
#[local] Abbreviation single :=
  (run_single_test entity search_one render render_stats call_local_llm
     json_loads plan_str gemma_synthesize_results st time clock).
#[local] Abbreviation generate :=
  (_generate_report time average slowest fastest format_seconds format_rate).

Lemma category_stats_inv (results : list (TestResult time)) : forall stats,
  NoDup (map fst stats) ->
  Forall (fun entry => (cs_passed (snd entry) + cs_failed (snd entry)
                          = cs_total (snd entry))%nat) stats ->
  let stats' :=
    foldl (fun stats result =>
             update_stats (tc_category (test_case result)) (success result) stats)
          stats results in
  NoDup (map fst stats') /\
  Forall (fun entry => (cs_passed (snd entry) + cs_failed (snd entry)
                          = cs_total (snd entry))%nat) stats' /\
  sum_total stats' = (sum_total stats + length results)%nat /\
  sum_passed stats'
    = (sum_passed stats + length (filter (fun r => success r = true) results))%nat.
Proof.
  induction results as [|r results IH]; intros stats Hnd Hbal.
  - simpl. repeat split; try done; lia.
  - cbn [foldl].
    destruct (IH (update_stats (tc_category (test_case r)) (success r) stats))
      as (Hnd' & Hbal' & Htotal & Hpassed).
    { by apply update_stats_NoDup. }
    { by apply update_stats_balanced. }
    destruct (update_stats_sums (tc_category (test_case r)) (success r) stats)
      as [Ht Hp].
    split; [done|]. split; [done|]. cbv zeta in *. rewrite Htotal, Hpassed, Ht, Hp.
    split; [simpl; lia|].
    destruct (success r) eqn:Hs.
    + rewrite filter_cons_True by done. simpl. lia.
    + rewrite filter_cons_False by (rewrite Hs; done). simpl. lia.
Qed.

(** X23. A test passes exactly when the query returns a response that
    holds every text of [should_contain] and none of [should_not_contain],
    ignoring case; a list that is missing or empty asks for nothing.  The
    fields [expected_function] and [expected_arguments] of the test case
    take no part in the verdict.  Running a test asks the planner once,
    with the query of the test case, and an exception of the planner
    makes the test fail instead of stopping the run. *)
Theorem test_passes_iff test_case :
  fst (single test_case) = fst (query (tc_query test_case)) /\
  (success (snd (single test_case)) = true <->
   exists response,
     snd (query (tc_query test_case)) = Ok response /\
     (forall expected,
        expected ∈ default [] (tc_should_contain test_case) ->
        pystr.contains (pystr.lower expected) (pystr.lower response) = true) /\
     (forall forbidden,
        forbidden ∈ default [] (tc_should_not_contain test_case) ->
        pystr.contains (pystr.lower forbidden) (pystr.lower response) = false)).
Proof.
  unfold run_single_test.
  destruct (query (tc_query test_case)) as [t [response|e]]; simpl.
  - split; [done|].
    destruct (first_missing test_case response) as [expected|] eqn:Hmiss.
    { simpl. split; [done|]. intros (r & [= <-] & Hall & _).
      unfold first_missing in Hmiss.
      destruct (filter _ _) as [|x xs] eqn:Hf; [done|]. injection Hmiss as ->.
      assert (Hin : expected ∈ filter
                (fun expected => pystr.contains (pystr.lower expected)
                                   (pystr.lower response) = false)
                (default [] (tc_should_contain test_case)))
        by (rewrite Hf; left).
      apply list_elem_of_filter in Hin as [Hno Hin].
      rewrite (Hall expected Hin) in Hno. done. }
    unfold first_missing in Hmiss.
    pose proof (proj1 (head_filter_None _ _) Hmiss) as Hcontained. clear Hmiss.
    destruct (first_forbidden test_case response) as [forbidden|] eqn:Hforb.
    { simpl. split; [done|]. intros (r & [= <-] & _ & Hnone).
      unfold first_forbidden in Hforb.
      destruct (filter _ _) as [|x xs] eqn:Hf; [done|]. injection Hforb as ->.
      assert (Hin : forbidden ∈ filter
                (fun forbidden => pystr.contains (pystr.lower forbidden)
                                    (pystr.lower response) = true)
                (default [] (tc_should_not_contain test_case)))
        by (rewrite Hf; left).
      apply list_elem_of_filter in Hin as [Hyes Hin].
      rewrite (Hnone forbidden Hin) in Hyes. done. }
    unfold first_forbidden in Hforb.
    pose proof (proj1 (head_filter_None _ _) Hforb) as Hclean. clear Hforb.
    simpl. split; [|done]. intros _. exists response. split; [done|]. split.
    + intros expected Hin. specialize (Hcontained expected Hin). simpl in Hcontained.
      by destruct (pystr.contains _ _).
    + intros forbidden Hin. specialize (Hclean forbidden Hin). simpl in Hclean.
      by destruct (pystr.contains _ _).
  - split; [done|]. split; [done|]. by intros (r & [=] & _).
Qed.

(** X24. In a report the passed and the failed tests add up to the total,
    which is the number of results; the list of failed tests has one
    entry for each failed test; every category is listed once, its passed
    and failed tests add up to its total, and the totals and the passed
    counts of the categories add up to those of the summary. *)
Theorem report_counts_add_up results rep :
  generate results = Returned rep ->
  rp_total_tests rep = length results /\
  (rp_passed rep + rp_failed rep = rp_total_tests rep)%nat /\
  length (rp_failed_tests rep) = rp_failed rep /\
  NoDup (map fst (rp_category_breakdown rep)) /\
  Forall (fun entry => (cs_passed (snd entry) + cs_failed (snd entry)
                          = cs_total (snd entry))%nat)
         (rp_category_breakdown rep) /\
  sum_total (rp_category_breakdown rep) = rp_total_tests rep /\
  sum_passed (rp_category_breakdown rep) = rp_passed rep.
Proof.
  unfold _generate_report. destruct (length results =? 0)%nat; [done|].
  intros [= <-]. simpl.
  pose proof (filter_split_length success results) as Hsplit.
  destruct (category_stats_inv results [] (NoDup_nil_2) (Forall_nil_2 _))
    as (Hnd & Hbal & Htotal & Hpassed).
  fold (category_stats time results) in Hnd, Hbal, Htotal, Hpassed.
  split; [done|]. split; [lia|].
  split; [unfold failed_tests_details; rewrite length_map; lia|].
  split; [done|]. split; [done|]. split; [by rewrite Htotal|by rewrite Hpassed].
Qed.

(** X25. A report needs at least one result: with none, the average
    divides by zero.  So running a category that no test case belongs to
    asks no model, leaves no result and raises [ZeroDivisionError]
    instead of returning an empty report. *)
Theorem empty_run_raises all_cases category :
  (forall results, generate results = Thrown ZeroDivisionError <-> results = []) /\
  ((forall t, t ∈ all_cases -> tc_category t <> category) ->
   run_category entity search_one render render_stats call_local_llm
     json_loads plan_str gemma_synthesize_results st time clock average slowest
     fastest format_seconds format_rate all_cases category
     = ([], [], Thrown ZeroDivisionError)).
Proof.
  split.
  - intros results. unfold _generate_report.
    destruct results as [|r results]; simpl; [done|]. split; done.
  - intros Hnone. unfold run_category, run_all_tests.
    assert (Hfilter : filter (fun t => tc_category t ∈ [category]) all_cases = []).
    { destruct (filter _ all_cases) as [|x xs] eqn:Hf; [done|].
      assert (Hin : x ∈ filter (fun t => tc_category t ∈ [category]) all_cases)
        by (rewrite Hf; left).
      apply list_elem_of_filter in Hin as [Hcat Hin].
      apply list_elem_of_singleton in Hcat. by destruct (Hnone x Hin). }
    by rewrite Hfilter.
Qed.

End BatteryFacts.

Lemma test_passes_iff_witness :
  exists response,
    snd (run_natural_language_query demo.entity demo.search_one demo.render
           demo.render_stats (demo.call_local_llm battery_model_reply)
           (demo.json_loads
              [(battery_model_reply, PlanDict (demo.step "list_classes" []))])
           demo.plan_str demo.gemma_synthesize_results demo.loaded
           "List all classes") = Ok response /\
    (forall expected,
       expected ∈ ["PaidInCapital"] ->
       pystr.contains (pystr.lower expected) (pystr.lower response) = true) /\
    (forall forbidden,
       forbidden ∈ ["not found"] ->
       pystr.contains (pystr.lower forbidden) (pystr.lower response) = false).
Proof.
  refine (proj1 (proj2 (test_passes_iff demo.entity demo.search_one demo.render
                          demo.render_stats
                          (demo.call_local_llm battery_model_reply)
                          (demo.json_loads
                             [(battery_model_reply,
                               PlanDict (demo.step "list_classes" []))])
                          demo.plan_str demo.gemma_synthesize_results demo.loaded
                          unit (fun _ => tt)
                          {| tc_name := "List all classes";
                             tc_query := "List all classes";
                             tc_expected_function := "list_classes";
                             tc_expected_arguments := [];
                             tc_should_contain := Some ["PaidInCapital"];
                             tc_should_not_contain := Some ["not found"];
                             tc_category := "basic" |})) _).
  vm_compute. reflexivity.
Defined.

Lemma report_counts_add_up_witness :
  exists rep,
    battery_report (map (fun t => snd (battery_run_single t)) battery_cases)
      = Returned rep /\
    rp_total_tests rep = 2%nat /\
    (rp_passed rep + rp_failed rep = rp_total_tests rep)%nat /\
    length (rp_failed_tests rep) = rp_failed rep /\
    NoDup (map fst (rp_category_breakdown rep)) /\
    Forall (fun entry => (cs_passed (snd entry) + cs_failed (snd entry)
                            = cs_total (snd entry))%nat)
           (rp_category_breakdown rep) /\
    sum_total (rp_category_breakdown rep) = rp_total_tests rep /\
    sum_passed (rp_category_breakdown rep) = rp_passed rep.
Proof.
  destruct (battery_report (map (fun t => snd (battery_run_single t)) battery_cases))
    as [rep|e] eqn:Hrep; [|by vm_compute in Hrep].
  exists rep. split; [done|].
  exact (report_counts_add_up unit (fun _ => tt) (fun _ => tt) (fun _ => tt)
           (fun _ => "?") (fun _ _ => "?") _ rep Hrep).
Defined.

Lemma empty_run_raises_witness :
  battery_run_category "performance" = ([], [], Thrown ZeroDivisionError).
Proof.
  refine (proj2 (empty_run_raises demo.entity demo.search_one demo.render
                   demo.render_stats (demo.call_local_llm battery_model_reply)
                   (demo.json_loads
                      [(battery_model_reply,
                        PlanDict (demo.step "list_classes" []))])
                   demo.plan_str demo.gemma_synthesize_results demo.loaded
                   unit (fun _ => tt) (fun _ => tt) (fun _ => tt) (fun _ => tt)
                   (fun _ => "?") (fun _ _ => "?") battery_cases "performance") _).
  apply Forall_forall.
  refine (bool_decide_unpack _ _). vm_compute. exact I.
Defined.

(** ** The class names of the world *)

Section SortedFacts.
Context {A : Type}.
Variable le : A -> A -> bool.
Hypothesis le_total : forall x y, le x y = false -> le y x = true.
Hypothesis le_trans : forall x y z, le x y = true -> le y z = true -> le x z = true.

Lemma insert_asc_sorted x l :
  StronglySorted (fun a b => le a b = true) l ->
  StronglySorted (fun a b => le a b = true) (insert_asc le x l).
Proof.
  induction 1 as [|y l Hl IH Hy]; simpl.
  - by repeat constructor.
  - destruct (le x y) eqn:Hxy.
    + constructor; [by constructor|].
      constructor; [done|].
      eapply Forall_impl; [exact Hy|]. intros z Hz. by eapply le_trans.
    + constructor; [done|].
      rewrite (insert_asc_perm le x l). constructor; [by apply le_total|done].
Qed.

Lemma sorted_sorted l : StronglySorted (fun a b => le a b = true) (sorted le l).
Proof.
  induction l as [|x l IH]; simpl; [constructor|by apply insert_asc_sorted].
Qed.

End SortedFacts.

Lemma strictly_sorted {A : Type} (R : A -> A -> Prop) (l : list A) :
  StronglySorted R l -> NoDup l ->
  StronglySorted (fun a b => R a b /\ a <> b) l.
Proof.
  induction 1 as [|x l Hl IH Hx]; intros Hnd; [constructor|].
  apply NoDup_cons in Hnd as [Hnot Hnd].
  constructor; [by apply IH|].
  rewrite Forall_forall in Hx. apply Forall_forall. intros y Hy.
  split; [by apply Hx|]. intros ->. done.
Qed.

(** X26. [get_class_candidates] lists the names of the classes of every
    ontology of the world, each once, in strictly ascending order of the
    characters; it does not look at the global [onto]. *)
Theorem candidates_are_sorted_names st :
  StronglySorted (fun a b => String.leb a b = true /\ a <> b)
                 (get_class_candidates st) /\
  (forall c,
     c ∈ get_class_candidates st <->
     exists o cls,
       o ∈ default_world st /\ cls ∈ onto_classes o /\ cls_name cls = Some c) /\
  (forall o, get_class_candidates {| onto := o; default_world := default_world st |}
             = get_class_candidates st).
Proof.
  split; [|split; [apply elem_of_candidates|done]].
  apply strictly_sorted; [|apply candidates_NoDup].
  unfold get_class_candidates. apply sorted_sorted.
  - intros x y Hxy. destruct (String.leb_total x y) as [H|H]; [congruence|done].
  - intros x y z Hxy Hyz.
    apply Is_true_true. apply Is_true_true in Hxy, Hyz.
    exact (transitivity (R := String.le) Hxy Hyz).
Qed.

Lemma candidates_are_sorted_names_witness :
  (exists o cls,
     o ∈ default_world demo.loaded /\ cls ∈ onto_classes o /\
     cls_name cls = Some "OwnersEquity").
Proof.
  apply (proj1 (proj2 (candidates_are_sorted_names demo.loaded))).
  refine (bool_decide_unpack _ _). vm_compute. exact I.
Defined.

(** ** The clean-up of the reply *)

Lemma append_nil_r (s : string) : s +:+ "" = s.
Proof.
  induction s as [|x s IH]; [done|].
  change (String x (s +:+ "") = String x s). by rewrite IH.
Qed.

Lemma contains_char_cons c x s :
  pystr.contains (String c "") (String x s) = false ->
  x <> c /\ pystr.contains (String c "") s = false.
Proof.
  cbn [pystr.contains String.prefix]. intros H.
  apply orb_false_elim in H as [Hhead Htail]. split; [|done].
  intros ->. destruct (ascii_dec c c); [|done]. by destruct s.
Qed.

Lemma prefix_other_head c old x s :
  x <> c -> String.prefix (String c old) (String x s) = false.
Proof. intros Hx. cbn [String.prefix]. by destruct (ascii_dec c x); [subst|]. Qed.

Lemma replace_from_free c old new a b :
  pystr.contains (String c "") a = false ->
  pystr.replace_from (String c old) new 0 (a +:+ b)
    = a +:+ pystr.replace_from (String c old) new 0 b.
Proof.
  induction a as [|x a IH]; intros Hfree; [done|].
  apply contains_char_cons in Hfree as [Hx Hfree].
  change (String x a +:+ b) with (String x (a +:+ b)).
  cbn [pystr.replace_from]. rewrite prefix_other_head by done.
  rewrite IH by done. done.
Qed.

Lemma prefix_app old b : String.prefix old (old +:+ b) = true.
Proof.
  induction old as [|x old IH]; [by destruct b|].
  change (String x old +:+ b) with (String x (old +:+ b)).
  cbn [String.prefix]. by destruct (ascii_dec x x).
Qed.

Lemma replace_from_skip old new pre s :
  pystr.replace_from old new (String.length pre) (pre +:+ s)
    = pystr.replace_from old new 0 s.
Proof.
  induction pre as [|x pre IH]; [done|].
  change (String x pre +:+ s) with (String x (pre +:+ s)).
  cbn [pystr.replace_from String.length]. exact IH.
Qed.

Lemma replace_from_hit c old new b :
  pystr.replace_from (String c old) new 0 (String c old +:+ b)
    = new +:+ pystr.replace_from (String c old) new 0 b.
Proof.
  pose proof (prefix_app (String c old) b) as Hprefix.
  change (String c old +:+ b) with (String c (old +:+ b)) in *.
  cbn [pystr.replace_from]. rewrite Hprefix.
  replace (String.length (String c old) - 1)%nat with (String.length old)
    by (simpl; lia).
  by rewrite replace_from_skip.
Qed.

(** X27. A reply that the model wrapped in a fence, three backticks and
    "json" before and three backticks behind a body without a backtick,
    is cleaned to the body without the white space around it.  A reply
    without three backticks in a row is left as it is, white space
    included. *)
Theorem fenced_reply_is_unwrapped :
  (forall body,
     pystr.contains "`" body = false ->
     clean_plan ("```json" +:+ body +:+ "```") = pystr.strip body) /\
  (forall raw_plan,
     pystr.contains "```" raw_plan = false -> clean_plan raw_plan = raw_plan).
Proof.
  split.
  - intros body Hfree. unfold clean_plan.
    rewrite (prefix_contains "```" ("```json" +:+ body +:+ "```"))
      by (by destruct body).
    unfold pystr.replace.
    rewrite (replace_from_hit "`" "``json" "" (body +:+ "```")).
    change ("" +:+ ?s) with s.
    rewrite (replace_from_free "`" "``json" "" body "```") by done.
    change (pystr.replace_from "```json" "" 0 "```") with "```".
    rewrite (replace_from_free "`" "``" "" body "```") by done.
    change (pystr.replace_from "```" "" 0 "```") with "".
    by rewrite append_nil_r.
  - intros raw_plan Hnone. unfold clean_plan. by rewrite Hnone.
Qed.

Lemma fenced_reply_is_unwrapped_witness :
  clean_plan ("```json" +:+ (nl +:+ "{}" +:+ nl) +:+ "```") = pystr.strip (nl +:+ "{}" +:+ nl) /\
  clean_plan " {} " = " {} ".
Proof.
  split.
  - apply (proj1 fenced_reply_is_unwrapped). vm_compute. reflexivity.
  - apply (proj2 fenced_reply_is_unwrapped). vm_compute. reflexivity.
Defined.

(** ** Properties *)

Section PropertyFacts.
Variable entity : Type.
Variable search_one : Ontology -> string -> option entity.
Variable render : string -> Ontology -> list entity -> list string -> string.

(** X28. [get_property_details] raises nothing.  For a name that the
    primary ontology does not hold, the reply suggests at most three
    names, each of them a property of the primary ontology [onto] and not
    of the other ontologies of the world, or says only that the property
    was not found. *)
Theorem property_lookup_suggests_known_properties st property_name :
  exists text,
    get_property_details entity search_one render st property_name = Ok text /\
    forall o,
      onto st = Some o ->
      search_one o ("*" +:+ property_name) = None ->
      exists suggestions,
        (length suggestions <= 3)%nat /\
        (forall x, x ∈ suggestions -> x ∈ onto_properties o) /\
        text = match suggestions with
               | [] => "❌ Property '" +:+ property_name +:+ "' not found."
               | _ => "❌ Property '" +:+ property_name +:+
                      "' not found. Did you mean: " +:+
                      pystr.join ", " suggestions +:+ "?"
               end.
Proof.
  unfold get_property_details.
  destruct (onto st) as [o|]; [|by eexists].
  destruct (search_one o ("*" +:+ property_name)) as [prop|] eqn:Hfound.
  { eexists. split; [done|]. intros ? [= <-]. by rewrite Hfound. }
  destruct (close_matches_facts.get_close_matches_total property_name
              (onto_properties o) 3 (6 # 10)) as (suggestions & Hclose);
    [done..|].
  rewrite Hclose. simpl.
  exists (match suggestions with
          | [] => "❌ Property '" +:+ property_name +:+ "' not found."
          | _ => "❌ Property '" +:+ property_name +:+
                 "' not found. Did you mean: " +:+
                 pystr.join ", " suggestions +:+ "?"
          end).
  split; [by destruct suggestions|].
  intros ? [= <-] _. exists suggestions. split; [|split; [|done]].
  - pose proof (close_matches_facts.get_close_matches_length _ _ _ _ _ Hclose).
    lia.
  - intros x Hx.
    by destruct (close_matches_facts.get_close_matches_elem _ _ _ _ _ _ Hclose Hx).
Qed.

End PropertyFacts.

Lemma property_lookup_suggests_known_properties_witness :
  exists suggestions,
    (length suggestions <= 3)%nat /\
    (forall x, x ∈ suggestions -> x ∈ onto_properties demo.equity) /\
    "❌ Property 'isOwnedB' not found. Did you mean: isOwnedBy?"
      = match suggestions with
        | [] => "❌ Property '" +:+ "isOwnedB" +:+ "' not found."
        | _ => "❌ Property '" +:+ "isOwnedB" +:+
               "' not found. Did you mean: " +:+
               pystr.join ", " suggestions +:+ "?"
        end.
Proof.
  destruct (property_lookup_suggests_known_properties demo.entity demo.search_one
              demo.render demo.loaded "isOwnedB") as (text & Htext & Hsuggest).
  vm_compute in Htext. injection Htext as <-.
  exact (Hsuggest demo.equity eq_refl eq_refl).
Defined.
